(** * gRPC tracing interceptors of package obs: a shallow embedding

    The interceptors of the package (unary/streaming, client/server), the
    two stream proxies and the [grpcTraceMD] carrier adapter, written as
    Rocq functions over an explicit [world]: the spans of the process, the
    metadata maps that Go shares by reference, the flight recorder's log
    and a record of the calls made to the wrapped code. *)

From Stdlib Require Import ZArith Lia Ascii String.
From stdpp Require Import gmap strings list fin_maps.

Open Scope Z_scope.
Open Scope string_scope.
Open Scope list_scope.

(** ** Go values *)

(** Go's [error] interface.  The code compares errors by identity with two
    sentinels only, [io.EOF] and [opentracing.ErrSpanContextNotFound];
    every other error is [errorsNew msg].  A nil error is [None]. *)
Inductive error :=
| io_EOF
| ErrSpanContextNotFound
| errorsNew (msg : string).

#[global] Instance error_eq_dec : EqDecision error.
Proof. solve_decision. Defined.

(** [err.Error()], which is what [fmt.Sprintf("%v", err)] prints. *)
Definition Error (e : error) : string :=
  match e with
  | io_EOF => "EOF"
  | ErrSpanContextNotFound => "opentracing: SpanContext not found in Extract carrier"
  | errorsNew msg => msg
  end.

(** The counters of the stream proxies are Go [int]s: 64 bits, signed,
    [++] wraps around. *)
Definition int_modulus : Z := 2 ^ 64.
Definition int_half : Z := 2 ^ 63.

Definition wrap_int (z : Z) : Z := (z + int_half) mod int_modulus - int_half.

Definition incr (n : Z) : Z := wrap_int (n + 1).

(** Requests, replies and stream messages ([interface{}] in the source). *)
Definition payload := string.

(** ** Spans *)

Inductive tagValue :=
| TagBool (b : bool)
| TagInt (n : Z)
| TagString (s : string).

#[global] Instance tagValue_eq_dec : EqDecision tagValue.
Proof. solve_decision. Defined.

(** [opentracing.SpanContext] is opaque to the package: the context of a
    span of this process is named by the span's handle, a context that the
    tracer decoded from the wire by what it decoded. *)
Inductive SpanContext :=
| LocalContext (span : nat)
| RemoteContext (id : string).

#[global] Instance SpanContext_eq_dec : EqDecision SpanContext.
Proof. solve_decision. Defined.

(** A span: its name, the context it is a child of ([None] for a root
    span), its tags, and one snapshot of the tags for every time its
    completion callback ran. *)
Record Span := mkSpan {
  operationName : string;
  parentContext : option SpanContext;
  tags : gmap string tagValue;
  finished : list (gmap string tagValue)
}.

Inductive Level := INFO | WARN.

#[global] Instance Level_eq_dec : EqDecision Level.
Proof. solve_decision. Defined.

Record logEntry := mkLog {
  level : Level;
  logName : string;
  logMessage : string;
  logError : error
}.

(** ** Contexts and metadata *)

(** A [context.Context] is an immutable value; deriving a context gives a
    new value.  [ctxMD] is the metadata attached by [metadata.NewContext]
    (a reference to a map), [ctxFlight] the span attached by the flight
    recorder, [ctxSpan] the one attached by [opentracing.ContextWithSpan];
    [ctxValues] stands for everything else the context carries. *)
Record context := mkContext {
  ctxValues : string;
  ctxMD : option nat;
  ctxFlight : option nat;
  ctxSpan : option nat
}.

#[global] Instance context_eq_dec : EqDecision context.
Proof. solve_decision. Defined.

(** The calls made to the wrapped code, in order. *)
Inductive call :=
| InvokerCall (ctx : context) (method : string) (req : payload)
| StreamerCall (ctx : context) (method : string)
| HandlerCall (ctx : context) (req : payload)
| StreamHandlerCall (srv : payload)
| SendMsgCall (m : payload) (res : option error)
| RecvMsgCall (m : payload) (res : option error).

(** [metadata.MD] is [map[string][]string], a reference type: [mds] is the
    store of the maps, a value of type [MD] is an index into it. *)
Record world := mkWorld {
  spans : list Span;
  mds : list (gmap string (list string));
  logs : list logEntry;
  calls : list call
}.

Definition set_spans (f : list Span -> list Span) (w : world) : world :=
  mkWorld (f (spans w)) (mds w) (logs w) (calls w).

Definition set_mds (f : list (gmap string (list string)) -> list (gmap string (list string)))
    (w : world) : world :=
  mkWorld (spans w) (f (mds w)) (logs w) (calls w).

Definition add_log (e : logEntry) (w : world) : world :=
  mkWorld (spans w) (mds w) (logs w ++ [e]) (calls w).

Definition add_call (c : call) (w : world) : world :=
  mkWorld (spans w) (mds w) (logs w) (calls w ++ [c]).

(** [span.SetTag(key, value)]. *)
Definition SetTag (span : nat) (key : string) (value : tagValue) (w : world) : world :=
  set_spans (alter (fun s => mkSpan (operationName s) (parentContext s)
                                    (<[key := value]> (tags s)) (finished s)) span) w.

(** [ext.SpanKind.Set(span, kind)] and [ext.Error.Set(span, b)] of
    opentracing-go set the tags ["span.kind"] and ["error"]. *)
Definition SpanKind_Set (span : nat) (kind : string) : world -> world :=
  SetTag span "span.kind" (TagString kind).

Definition SpanKindRPCClientEnum : string := "client".
Definition SpanKindRPCServerEnum : string := "server".

Definition Error_Set (span : nat) (b : bool) : world -> world :=
  SetTag span "error" (TagBool b).

(** [span.Context()]. *)
Definition Span_Context (span : nat) : SpanContext := LocalContext span.

(** [metadata.FromContext(ctx)]: the map and the [ok] flag as an option. *)
Definition FromContext (ctx : context) : option nat := ctxMD ctx.

(** [metadata.NewContext(ctx, md)]. *)
Definition NewContext (ctx : context) (md : nat) : context :=
  mkContext (ctxValues ctx) (Some md) (ctxFlight ctx) (ctxSpan ctx).

(** [metadata.New(nil)]: a fresh empty map. *)
Definition metadata_New (w : world) : nat * world :=
  (length (mds w), set_mds (fun h => h ++ [∅]) w).

(** The contents of a map of the store (a nil map reads as empty). *)
Definition contents (md : nat) (w : world) : gmap string (list string) :=
  default ∅ (mds w !! md).

(** [md.Copy()]: a fresh map with the same keys and fresh slices holding
    the same values. *)
Definition MD_Copy (md : nat) (w : world) : nat * world :=
  (length (mds w), set_mds (fun h => h ++ [contents md w]) w).

(** [opentracing.ContextWithSpan(ctx, span)]. *)
Definition ContextWithSpan (ctx : context) (span : nat) : context :=
  mkContext (ctxValues ctx) (ctxMD ctx) (ctxFlight ctx) (Some span).

(** ** The carrier adapter [grpcTraceMD] *)

(** [append(g[key], val)] stored back under [key]: a missing key reads as
    the nil slice. *)
Definition appendValue (key val : string) (m : gmap string (list string))
  : gmap string (list string) :=
  <[key := default [] (m !! key) ++ [val]]> m.

(** [g[key] = append(g[key], val)], on the map that [g] refers to.  A
    [g] that refers to no map of the store (a nil map, on which Go
    panics) is left as it is: the interceptors call [Set] only on a map
    they have just made or copied. *)
Definition grpcTraceMD_Set (g : nat) (key val : string) (w : world) : world :=
  set_mds (alter (appendValue key val) g) w.

Section Carrier.
(** [metadata.DecodeKeyValue] belongs to grpc; the adapter is modelled
    over any such function. *)
Variable DecodeKeyValue : string -> string -> (string * string) + error.

(** The state the visiting closure captures. *)
Context {H : Type}.

Definition visitor := string -> string -> H -> option error * H.

(** The inner loop, [for _, v := range vs], with its two early returns. *)
Fixpoint ForeachKey_values (k : string) (vs : list string) (handler : visitor) (h : H)
  : (option error * H) + H :=
  match vs with
  | [] => inr h
  | v :: vs' =>
      match DecodeKeyValue k v with
      | inr err => inl (Some err, h)
      | inl (rk, rv) =>
          match handler rk rv h with
          | (Some err, h') => inl (Some err, h')
          | (None, h') => ForeachKey_values k vs' handler h'
          end
      end
  end.

(** [ForeachKey]: [g] lists the entries of the map in the order in which
    [range] happens to yield them (see [rangeOf]). *)
Fixpoint ForeachKey (g : list (string * list string)) (handler : visitor) (h : H)
  : option error * H :=
  match g with
  | [] => (None, h)
  | (k, vs) :: g' =>
      match ForeachKey_values k vs handler h with
      | inl returned => returned
      | inr h' => ForeachKey g' handler h'
      end
  end.
End Carrier.

(** Go leaves the order of [range] over a map unspecified: any enumeration
    of the entries can be the one a run sees. *)
Definition rangeOf (m : gmap string (list string)) (g : list (string * list string)) : Prop :=
  g ≡ₚ map_to_list m.

(** The (key, value) pairs of an enumeration in visiting order. *)
Definition pairsOf (g : list (string * list string)) : list (string * string) :=
  flat_map (fun kv => map (pair (fst kv)) (snd kv)) g.

(** The pairs as [DecodeKeyValue] returns them, for pairs it accepts. *)
Definition decodedPairs (DecodeKeyValue : string -> string -> (string * string) + error)
    (ps : list (string * string)) : list (string * string) :=
  omap (fun kv => match DecodeKeyValue (fst kv) (snd kv) with
                  | inl p => Some p
                  | inr _ => None
                  end) ps.

(** The two nested loops of [ForeachKey] as one loop over the pairs. *)
Fixpoint ForeachPair {H : Type}
    (DecodeKeyValue : string -> string -> (string * string) + error)
    (ps : list (string * string)) (handler : @visitor H) (h : H) : option error * H :=
  match ps with
  | [] => (None, h)
  | (k, v) :: ps' =>
      match DecodeKeyValue k v with
      | inr err => (Some err, h)
      | inl (rk, rv) =>
          match handler rk rv h with
          | (Some err, h') => (Some err, h')
          | (None, h') => ForeachPair DecodeKeyValue ps' handler h'
          end
      end
  end.

(** A visitor that also records the pairs it is called with. *)
Definition recording {H : Type} (handler : @visitor H) : @visitor (H * list (string * string)) :=
  fun k v st =>
    let '(res, h') := handler k v (fst st) in
    (res, (h', snd st ++ [(k, v)])).

(** A callback called on the pairs [ps] in turn, from the state [h] of
    what it captures: the state it ends in when every call returns nil,
    and nothing when one of the calls returns an error. *)
Fixpoint accepted {H : Type} (handler : @visitor H) (ps : list (string * string)) (h : H)
  : option H :=
  match ps with
  | [] => Some h
  | (rk, rv) :: ps' =>
      match handler rk rv h with
      | (None, h') => accepted handler ps' h'
      | (Some _, _) => None
      end
  end.

(** ** The collaborators *)

(** The tracer, as the interceptors use it.  [Inject] reaches the carrier
    through [Set] only (a [TextMapWriter]): it is given by the pairs it
    sets, in order, and the error it returns.  [Extract] reads the carrier
    through [ForeachKey] only: it is given by its result on the contents
    of the map. *)
Record Tracer := mkTracer {
  Inject : SpanContext -> list (string * string) * option error;
  Extract : gmap string (list string) -> option SpanContext * option error
}.

(** [tracer.Inject(sc, opentracing.TextMap, grpcTraceMD(md))]. *)
Definition tracer_Inject (tracer : Tracer) (sc : SpanContext) (md : nat) (w : world)
  : option error * world :=
  let '(sets, err) := Inject tracer sc in
  (err, foldl (fun w' kv => grpcTraceMD_Set md (fst kv) (snd kv) w') w sets).

(** [tracer.Extract(opentracing.TextMap, grpcTraceMD(md))]. *)
Definition tracer_Extract (tracer : Tracer) (md : nat) (w : world)
  : option SpanContext * option error :=
  Extract tracer (contents md w).

(** The flight recorder's session for one span; [TraceSpan] is the span. *)
Record FlightSpan := mkFlightSpan { TraceSpan : nat }.

(** Modelled from the spec: the completion callback that the flight
    recorder hands out with a span (flight_recorder.go is not among the
    sources).  Running it finalizes the span: the tags it carries at that
    moment are what is reported. *)
Definition finishSpan (span : nat) (w : world) : world :=
  set_spans (alter (fun s => mkSpan (operationName s) (parentContext s) (tags s)
                                    (finished s ++ [tags s])) span) w.

(** Modelled from the spec: [fr.WithNewSpanContext(ctx, name, parent)]
    (flight_recorder.go is not among the sources) starts a span that is a
    child of [parent], or a root span when [parent] is nil, and returns
    the session, a context carrying the span and the completion callback. *)
Definition WithNewSpanContext (ctx : context) (name : string) (parent : option SpanContext)
    (w : world) : (FlightSpan * context * (world -> world)) * world :=
  let span := length (spans w) in
  ((mkFlightSpan span,
    mkContext (ctxValues ctx) (ctxMD ctx) (Some span) (ctxSpan ctx),
    finishSpan span),
   set_spans (fun l => l ++ [mkSpan name parent ∅ []]) w).

(** Modelled from the spec: [fr.WithNewSpan(ctx, name)] (flight_recorder.go
    is not among the sources) starts a span under the span the context
    carries, if any. *)
Definition WithNewSpan (ctx : context) (name : string) (w : world)
  : (FlightSpan * context * (world -> world)) * world :=
  WithNewSpanContext ctx name (LocalContext <$> ctxSpan ctx) w.

(** Modelled from the spec: [fs.Warn(name, msg, Vals{}.WithError(err))]
    (flight_recorder.go is not among the sources) logs at warning level. *)
Definition Warn (fs : FlightSpan) (name msg : string) (err : error) (w : world) : world :=
  add_log (mkLog WARN name msg err) w.

(** Modelled from the spec: [fs.Info(msg, Vals{}.WithError(err))]
    (flight_recorder.go is not among the sources) logs at info level. *)
Definition Info (fs : FlightSpan) (msg : string) (err : error) (w : world) : world :=
  add_log (mkLog INFO "" msg err) w.

(** Modelled from the spec: [tracing.Label.ErrorMessage] (package
    obs/tracing is not among the sources); the spec's scenario names the
    tag [error_message]. *)
Definition Label_ErrorMessage : string := "error_message".

(** The wrapped code.  It is given the world to read (the metadata its
    context refers to, say); what it does is its own business and is not
    part of the world of the interceptors. *)
Definition UnaryInvoker := context -> string -> payload -> payload -> world -> payload * option error.
Definition UnaryHandler := context -> payload -> world -> option payload * option error.

Definition call_invoker (invoker : UnaryInvoker) (ctx : context) (method : string)
    (req reply : payload) (w : world) : (payload * option error) * world :=
  (invoker ctx method req reply w, add_call (InvokerCall ctx method req) w).

Definition call_handler (handler : UnaryHandler) (ctx : context) (req : payload) (w : world)
  : (option payload * option error) * world :=
  (handler ctx req w, add_call (HandlerCall ctx req) w).

(** ** The unary interceptors *)

Section Interceptors.
(** The package variable [traceHostname], set once by [init]. *)
Variable traceHostname : string.

(** The reply is an out parameter in Go: what the caller finds in it
    after the call is returned here next to the error.  [defer done()]
    runs [done] last on both return paths. *)
Definition tracingUnaryClientInterceptor (tracer : Tracer)
    (ctx : context) (method : string) (req reply : payload) (invoker : UnaryInvoker)
    (w : world) : (payload * option error) * world :=
  let '(fs, ctx, done, w) := WithNewSpan ctx ("grpc:" +:+ method) w in
  let span := TraceSpan fs in
  let w := SpanKind_Set span SpanKindRPCClientEnum w in
  let '(md, w) := match FromContext ctx with
                  | None => metadata_New w
                  | Some md => MD_Copy md w
                  end in
  let '(ierr, w) := tracer_Inject tracer (Span_Context span) md w in
  let w := match ierr with
           | Some err => Warn fs "tracer_inject" "error injecting trace metadata" err w
           | None => w
           end in
  let ctx := NewContext ctx md in
  let '(reply, err, w) := call_invoker invoker ctx method req reply w in
  match err with
  | Some e =>
      let w := Info fs ("error in gRPC " +:+ method) e w in
      let w := Error_Set span true w in
      ((reply, Some e), done w)
  | None => ((reply, None), done w)
  end.

Definition tracingUnaryServerInterceptor (tracer : Tracer)
    (ctx : context) (req : payload) (FullMethod : string) (handler : UnaryHandler)
    (w : world) : (option payload * option error) * world :=
  let '(md, w) := match FromContext ctx with
                  | None => metadata_New w
                  | Some md => (md, w)
                  end in
  let '(spanCtx, err) := tracer_Extract tracer md w in
  let '(fs, ctx, done, w) := WithNewSpanContext ctx ("grpc:" +:+ FullMethod) spanCtx w in
  let span := TraceSpan fs in
  let w := SpanKind_Set span SpanKindRPCServerEnum w in
  let w := SetTag span "grpc.hostname" (TagString traceHostname) w in
  let w := match err with
           | Some e =>
               if decide (e = ErrSpanContextNotFound) then w
               else Warn fs "tracer_extract" "error extracting trace metadata" e w
           | None => w
           end in
  let ctx := ContextWithSpan ctx span in
  let '(resp, err, w) := call_handler handler ctx req w in
  match err with
  | Some e =>
      let w := Info fs ("error in gRPC " +:+ FullMethod) e w in
      let w := Error_Set span true w in
      let w := SetTag span Label_ErrorMessage (TagString (Error e)) w in
      ((resp, Some e), done w)
  | None => ((resp, None), done w)
  end.
End Interceptors.

(** ** Streams *)

(** [grpc.ClientStream] and [grpc.ServerStream] are interfaces: a wrapped
    stream is any state [S] with the methods below.  A method returns its
    result and the stream's next state. *)
Class ClientStream (S : Type) := {
  cs_Header : S -> (option nat * option error) * S;
  cs_Trailer : S -> option nat * S;
  cs_CloseSend : S -> option error * S;
  cs_Context : S -> context;
  cs_SendMsg : payload -> S -> option error * S;
  cs_RecvMsg : payload -> S -> option error * S
}.

Class ServerStream (S : Type) := {
  ss_SendHeader : nat -> S -> option error * S;
  ss_SetTrailer : nat -> S -> S;
  ss_Context : S -> context;
  ss_SendMsg : payload -> S -> option error * S;
  ss_RecvMsg : payload -> S -> option error * S
}.

(** A method call either returns or panics (a call through a nil
    interface value). *)
Inductive result (A : Type) :=
| Returned (a : A)
| Panicked.
Arguments Returned {A} a.
Arguments Panicked {A}.

Section ClientProxy.
Context {S : Type} `{ClientStream S}.

Record clientStreamInterceptor := mkClientStreamInterceptor {
  csi_cs : option S;
  csi_span : nat;
  csi_done : world -> world;
  csi_inCount : Z;
  csi_outCount : Z
}.

(** The wrapped stream moves to its next state. *)
Definition csi_with_cs (csi : clientStreamInterceptor) (s : S) : clientStreamInterceptor :=
  mkClientStreamInterceptor (Some s) (csi_span csi) (csi_done csi)
                            (csi_inCount csi) (csi_outCount csi).

Definition clientStream_Header (csi : clientStreamInterceptor)
  : result (option nat * option error) * clientStreamInterceptor :=
  match csi_cs csi with
  | None => (Panicked, csi)
  | Some s => let '(r, s') := cs_Header s in (Returned r, csi_with_cs csi s')
  end.

Definition clientStream_Trailer (csi : clientStreamInterceptor)
  : result (option nat) * clientStreamInterceptor :=
  match csi_cs csi with
  | None => (Panicked, csi)
  | Some s => let '(r, s') := cs_Trailer s in (Returned r, csi_with_cs csi s')
  end.

Definition clientStream_CloseSend (csi : clientStreamInterceptor)
  : result (option error) * clientStreamInterceptor :=
  match csi_cs csi with
  | None => (Panicked, csi)
  | Some s => let '(r, s') := cs_CloseSend s in (Returned r, csi_with_cs csi s')
  end.

Definition clientStream_Context (csi : clientStreamInterceptor) : result context :=
  match csi_cs csi with
  | None => Panicked
  | Some s => Returned (cs_Context s)
  end.

(** [csi.outCount++; return csi.cs.SendMsg(m)]. *)
Definition clientStream_SendMsg (m : payload) (csi : clientStreamInterceptor) (w : world)
  : result (option error) * clientStreamInterceptor * world :=
  let csi := mkClientStreamInterceptor (csi_cs csi) (csi_span csi) (csi_done csi)
                                       (csi_inCount csi) (incr (csi_outCount csi)) in
  match csi_cs csi with
  | None => (Panicked, csi, w)
  | Some s =>
      let '(err, s') := cs_SendMsg m s in
      (Returned err, csi_with_cs csi s', add_call (SendMsgCall m err) w)
  end.

Definition clientStream_RecvMsg (m : payload) (csi : clientStreamInterceptor) (w : world)
  : result (option error) * clientStreamInterceptor * world :=
  match csi_cs csi with
  | None => (Panicked, csi, w)
  | Some s =>
      let '(err, s') := cs_RecvMsg m s in
      let csi := csi_with_cs csi s' in
      let w := add_call (RecvMsgCall m err) w in
      if decide (err = Some io_EOF) then
        let w := SetTag (csi_span csi) "grpc.stream_received" (TagInt (csi_inCount csi)) w in
        let w := SetTag (csi_span csi) "grpc.stream_sent" (TagInt (csi_outCount csi)) w in
        let w := csi_done csi w in
        (Returned err, csi, w)
      else
        let csi := mkClientStreamInterceptor (csi_cs csi) (csi_span csi) (csi_done csi)
                                             (incr (csi_inCount csi)) (csi_outCount csi) in
        (Returned err, csi, w)
  end.

(** The caller of a client stream: what it calls next, given what the
    calls so far returned. *)
Inductive clientProg :=
| CStop
| CHeader (k : option nat * option error -> clientProg)
| CTrailer (k : option nat -> clientProg)
| CCloseSend (k : option error -> clientProg)
| CContext (k : context -> clientProg)
| CSendMsg (m : payload) (k : option error -> clientProg)
| CRecvMsg (m : payload) (k : option error -> clientProg).

(** The caller runs against the proxy; the flag tells whether a call
    panicked. *)
Fixpoint runClient (p : clientProg) (csi : clientStreamInterceptor) (w : world)
  : bool * clientStreamInterceptor * world :=
  match p with
  | CStop => (false, csi, w)
  | CHeader k =>
      match clientStream_Header csi with
      | (Returned r, csi) => runClient (k r) csi w
      | (Panicked, csi) => (true, csi, w)
      end
  | CTrailer k =>
      match clientStream_Trailer csi with
      | (Returned r, csi) => runClient (k r) csi w
      | (Panicked, csi) => (true, csi, w)
      end
  | CCloseSend k =>
      match clientStream_CloseSend csi with
      | (Returned r, csi) => runClient (k r) csi w
      | (Panicked, csi) => (true, csi, w)
      end
  | CContext k =>
      match clientStream_Context csi with
      | Returned r => runClient (k r) csi w
      | Panicked => (true, csi, w)
      end
  | CSendMsg m k =>
      match clientStream_SendMsg m csi w with
      | (Returned r, csi, w) => runClient (k r) csi w
      | (Panicked, csi, w) => (true, csi, w)
      end
  | CRecvMsg m k =>
      match clientStream_RecvMsg m csi w with
      | (Returned r, csi, w) => runClient (k r) csi w
      | (Panicked, csi, w) => (true, csi, w)
      end
  end.

Definition Streamer := context -> string -> string -> world -> option S * option error.

(** The streaming client interceptor.  There is no [defer done()] here:
    [done] is handed to the proxy. *)
Definition tracingStreamClientInterceptor (tracer : Tracer)
    (ctx : context) (desc : string) (method : string) (streamer : Streamer)
    (w : world) : (clientStreamInterceptor * option error) * world :=
  let '(fs, ctx, done, w) := WithNewSpan ctx ("grpc:" +:+ method) w in
  let span := TraceSpan fs in
  let w := SpanKind_Set span SpanKindRPCClientEnum w in
  let '(md, w) := match FromContext ctx with
                  | None => metadata_New w
                  | Some md => MD_Copy md w
                  end in
  let '(ierr, w) := tracer_Inject tracer (Span_Context span) md w in
  let w := match ierr with
           | Some err => Warn fs "tracer_inject" "error injecting trace metadata" err w
           | None => w
           end in
  let ctx := NewContext ctx md in
  let '(cs, err) := streamer ctx desc method w in
  let w := add_call (StreamerCall ctx method) w in
  let w := match err with
           | Some e =>
               let w := Info fs ("error in gRPC " +:+ method) e w in
               Error_Set span true w
           | None => w
           end in
  ((mkClientStreamInterceptor cs span done 0 0, err), w).
End ClientProxy.

Arguments clientStreamInterceptor S : clear implicits.
Arguments Streamer S : clear implicits.

Section ServerProxy.
Context {S : Type} `{ServerStream S}.

Record serverStreamInterceptor := mkServerStreamInterceptor {
  ssi_ss : S;
  ssi_span : nat;
  ssi_done : world -> world;
  ssi_inCount : Z;
  ssi_outCount : Z;
  ssi_ctx : context
}.

Definition ssi_with_ss (ssi : serverStreamInterceptor) (s : S) : serverStreamInterceptor :=
  mkServerStreamInterceptor s (ssi_span ssi) (ssi_done ssi)
                            (ssi_inCount ssi) (ssi_outCount ssi) (ssi_ctx ssi).

Definition serverStream_SendHeader (md : nat) (ssi : serverStreamInterceptor)
  : option error * serverStreamInterceptor :=
  let '(r, s') := ss_SendHeader md (ssi_ss ssi) in (r, ssi_with_ss ssi s').

Definition serverStream_SetTrailer (md : nat) (ssi : serverStreamInterceptor)
  : serverStreamInterceptor :=
  ssi_with_ss ssi (ss_SetTrailer md (ssi_ss ssi)).

(** [return ssi.ctx]: the wrapped stream is not asked. *)
Definition serverStream_Context (ssi : serverStreamInterceptor) : context :=
  ssi_ctx ssi.

(** [ssi.outCount++; return ssi.ss.SendMsg(m)]. *)
Definition serverStream_SendMsg (m : payload) (ssi : serverStreamInterceptor) (w : world)
  : option error * serverStreamInterceptor * world :=
  let ssi := mkServerStreamInterceptor (ssi_ss ssi) (ssi_span ssi) (ssi_done ssi)
                                       (ssi_inCount ssi) (incr (ssi_outCount ssi))
                                       (ssi_ctx ssi) in
  let '(err, s') := ss_SendMsg m (ssi_ss ssi) in
  (err, ssi_with_ss ssi s', add_call (SendMsgCall m err) w).

(** [ssi.inCount++; return ssi.ss.RecvMsg(m)]. *)
Definition serverStream_RecvMsg (m : payload) (ssi : serverStreamInterceptor) (w : world)
  : option error * serverStreamInterceptor * world :=
  let ssi := mkServerStreamInterceptor (ssi_ss ssi) (ssi_span ssi) (ssi_done ssi)
                                       (incr (ssi_inCount ssi)) (ssi_outCount ssi)
                                       (ssi_ctx ssi) in
  let '(err, s') := ss_RecvMsg m (ssi_ss ssi) in
  (err, ssi_with_ss ssi s', add_call (RecvMsgCall m err) w).

Definition serverStream_finish (ssi : serverStreamInterceptor) (w : world) : world :=
  let w := SetTag (ssi_span ssi) "grpc.stream_received" (TagInt (ssi_inCount ssi)) w in
  let w := SetTag (ssi_span ssi) "grpc.stream_sent" (TagInt (ssi_outCount ssi)) w in
  ssi_done ssi w.

(** A stream handler: what it calls on the stream it is given, and the
    error it returns in the end. *)
Inductive serverProg :=
| SReturn (err : option error)
| SSendHeader (md : nat) (k : option error -> serverProg)
| SSetTrailer (md : nat) (k : serverProg)
| SContext (k : context -> serverProg)
| SSendMsg (m : payload) (k : option error -> serverProg)
| SRecvMsg (m : payload) (k : option error -> serverProg).

Fixpoint runServer (p : serverProg) (ssi : serverStreamInterceptor) (w : world)
  : option error * serverStreamInterceptor * world :=
  match p with
  | SReturn err => (err, ssi, w)
  | SSendHeader md k =>
      let '(r, ssi) := serverStream_SendHeader md ssi in runServer (k r) ssi w
  | SSetTrailer md k => runServer k (serverStream_SetTrailer md ssi) w
  | SContext k => runServer (k (serverStream_Context ssi)) ssi w
  | SSendMsg m k =>
      let '(r, ssi, w) := serverStream_SendMsg m ssi w in runServer (k r) ssi w
  | SRecvMsg m k =>
      let '(r, ssi, w) := serverStream_RecvMsg m ssi w in runServer (k r) ssi w
  end.

Definition StreamHandler := payload -> serverProg.

(** [handler(srv, ssi)]. *)
Definition call_stream_handler (handler : StreamHandler) (srv : payload)
    (ssi : serverStreamInterceptor) (w : world)
  : option error * serverStreamInterceptor * world :=
  runServer (handler srv) ssi (add_call (StreamHandlerCall srv) w).

Section Interceptor.
Variable traceHostname : string.

(** [defer ssi.finish()] runs [finish] last on both return paths, on
    the proxy as the handler left it. *)
Definition tracingStreamServerInterceptor (tracer : Tracer)
    (srv : payload) (ss : S) (FullMethod : string) (handler : StreamHandler)
    (w : world) : option error * world :=
  let ctx := ss_Context ss in
  let '(md, w) := match FromContext ctx with
                  | None => metadata_New w
                  | Some md => (md, w)
                  end in
  let '(spanCtx, err) := tracer_Extract tracer md w in
  let '(fs, ctx, done, w) := WithNewSpanContext ctx ("grpc:" +:+ FullMethod) spanCtx w in
  let span := TraceSpan fs in
  let w := SpanKind_Set span SpanKindRPCServerEnum w in
  let w := SetTag span "grpc.hostname" (TagString traceHostname) w in
  let w := match err with
           | Some e =>
               if decide (e = ErrSpanContextNotFound) then w
               else Warn fs "tracer_extract" "error extracting trace metadata" e w
           | None => w
           end in
  let ctx := ContextWithSpan ctx span in
  let ssi := mkServerStreamInterceptor ss span done 0 0 ctx in
  let '(herr, ssi, w) := call_stream_handler handler srv ssi w in
  match herr with
  | Some e =>
      let w := Info fs ("error in gRPC " +:+ FullMethod) e w in
      let w := Error_Set span true w in
      let w := SetTag span Label_ErrorMessage (TagString (Error e)) w in
      (Some e, serverStream_finish ssi w)
  | None => (None, serverStream_finish ssi w)
  end.
End Interceptor.
End ServerProxy.

Arguments serverStreamInterceptor S : clear implicits.

(** ** Observations on the world *)

(** The snapshots taken of a span, one per run of its completion
    callback: the span was finalized [length (finalizations span w)]
    times. *)
Definition finalizations (span : nat) (w : world) : list (gmap string tagValue) :=
  match spans w !! span with
  | Some s => finished s
  | None => []
  end.

Definition spanTags (span : nat) (w : world) : gmap string tagValue :=
  match spans w !! span with
  | Some s => tags s
  | None => ∅
  end.

(** What was logged, and which calls were made, since an earlier world. *)
Definition logsSince (w w' : world) : list logEntry := drop (length (logs w)) (logs w').
Definition callsSince (w w' : world) : list call := drop (length (calls w)) (calls w').

Definition isRecv (c : call) : bool :=
  match c with RecvMsgCall _ _ => true | _ => false end.

Definition isSend (c : call) : bool :=
  match c with SendMsgCall _ _ => true | _ => false end.

(** A [RecvMsg] that returned the end-of-stream signal. *)
Definition isEOF (c : call) : bool :=
  match c with
  | RecvMsgCall _ res => bool_decide (res = Some io_EOF)
  | _ => false
  end.

(** A [RecvMsg] that returned nil. *)
Definition isRecvOk (c : call) : bool :=
  match c with RecvMsgCall _ None => true | _ => false end.

(** A [RecvMsg] that returned anything but the end-of-stream signal. *)
Definition isRecvNotEOF (c : call) : bool := isRecv c && negb (isEOF c).

Fixpoint countCalls (f : call -> bool) (tr : list call) : nat :=
  match tr with
  | [] => 0%nat
  | c :: tr' => ((if f c then 1 else 0) + countCalls f tr')%nat
  end.

(** The values of the two counters of the client proxy at each
    end-of-stream signal of a trace, starting from [i] and [o]. *)
Fixpoint eofCounts (tr : list call) (i o : Z) : list (Z * Z) :=
  match tr with
  | [] => []
  | c :: tr' =>
      match c with
      | RecvMsgCall _ res =>
          if decide (res = Some io_EOF) then (i, o) :: eofCounts tr' i o
          else eofCounts tr' (incr i) o
      | SendMsgCall _ _ => eofCounts tr' i (incr o)
      | _ => eofCounts tr' i o
      end
  end.

(** A snapshot that reports [io.1] received and [io.2] sent. *)
Definition reports (snap : gmap string tagValue) (io : Z * Z) : Prop :=
  snap !! "grpc.stream_received" = Some (TagInt (fst io)) /\
  snap !! "grpc.stream_sent" = Some (TagInt (snd io)).

(** What each finalization of a span reported as received and as sent. *)
Definition reported (span : nat) (w : world) : list (option tagValue * option tagValue) :=
  (fun snap => (snap !! "grpc.stream_received", snap !! "grpc.stream_sent"))
    <$> finalizations span w.

(** The metadata a context refers to, empty when it has none: what a
    client interceptor copies and what a server interceptor reads. *)
Definition metadataOf (ctx : context) (w : world) : gmap string (list string) :=
  match ctxMD ctx with
  | Some md => contents md w
  | None => ∅
  end.

(** A map after a sequence of [Set] calls. *)
Definition setAll (sets : list (string * string)) (m : gmap string (list string))
  : gmap string (list string) :=
  foldl (fun m' kv => appendValue (fst kv) (snd kv) m') m sets.

Definition optList {A : Type} (o : option A) : list A :=
  match o with
  | Some a => [a]
  | None => []
  end.

(** The log entries of the interceptors. *)
Definition injectWarning (e : error) : logEntry :=
  mkLog WARN "tracer_inject" "error injecting trace metadata" e.

Definition extractWarning (e : error) : logEntry :=
  mkLog WARN "tracer_extract" "error extracting trace metadata" e.

Definition callInfo (method : string) (e : error) : logEntry :=
  mkLog INFO "" ("error in gRPC " +:+ method) e.

(** The warnings of an extraction that returned [xerr]. *)
Definition extractWarnings (xerr : option error) : list logEntry :=
  match xerr with
  | Some e => if decide (e = ErrSpanContextNotFound) then [] else [extractWarning e]
  | None => []
  end.

(** The tags of a client span and of a server span when the wrapped call
    returned [err]. *)
Definition clientTags (err : option error) : gmap string tagValue :=
  let kind : gmap string tagValue := <["span.kind" := TagString "client"]> ∅ in
  match err with
  | Some _ => <["error" := TagBool true]> kind
  | None => kind
  end.

Definition serverTags (hostname : string) (err : option error) : gmap string tagValue :=
  let base : gmap string tagValue :=
    <["grpc.hostname" := TagString hostname]> (<["span.kind" := TagString "server"]> ∅) in
  match err with
  | Some e => <["error_message" := TagString (Error e)]> (<["error" := TagBool true]> base)
  | None => base
  end.

(** A tag set with the two stream counters added. *)
Definition withCounts (received sent : Z) (t : gmap string tagValue) : gmap string tagValue :=
  <["grpc.stream_sent" := TagInt sent]> (<["grpc.stream_received" := TagInt received]> t).

(** The context a server interceptor hands on: the one that span start
    returns, with the span attached by [opentracing.ContextWithSpan]. *)
Definition derivedContext (ctx : context) (name : string) (parent : option SpanContext)
    (w : world) : context :=
  let '(fs, ctx', _, _) := WithNewSpanContext ctx name parent w in
  ContextWithSpan ctx' (TraceSpan fs).

(** Every [Context()] call of a stream handler answered with [c]. *)
Fixpoint answerContext (c : context) (p : serverProg) : serverProg :=
  match p with
  | SReturn err => SReturn err
  | SSendHeader md k => SSendHeader md (fun r => answerContext c (k r))
  | SSetTrailer md k => SSetTrailer md (answerContext c k)
  | SContext k => answerContext c (k c)
  | SSendMsg m k => SSendMsg m (fun r => answerContext c (k r))
  | SRecvMsg m k => SRecvMsg m (fun r => answerContext c (k r))
  end.

(** What the [Context()] calls of a handler return, in order, when the
    handler runs against the proxy [ssi]. *)
Fixpoint contextsSeen {S : Type} `{ServerStream S} (p : serverProg)
    (ssi : serverStreamInterceptor S) (w : world) : list context :=
  match p with
  | SReturn _ => []
  | SSendHeader md k =>
      let '(r, ssi) := serverStream_SendHeader md ssi in contextsSeen (k r) ssi w
  | SSetTrailer md k => contextsSeen k (serverStream_SetTrailer md ssi) w
  | SContext k =>
      serverStream_Context ssi :: contextsSeen (k (serverStream_Context ssi)) ssi w
  | SSendMsg m k =>
      let '(r, ssi, w) := serverStream_SendMsg m ssi w in contextsSeen (k r) ssi w
  | SRecvMsg m k =>
      let '(r, ssi, w) := serverStream_RecvMsg m ssi w in contextsSeen (k r) ssi w
  end.

(** ** Sample collaborators, for running the model on concrete inputs *)

(** A wrapped stream that answers from two scripts; when a script is used
    up, [RecvMsg] returns [io.EOF] and [SendMsg] nil. *)
Record scripted := mkScripted {
  recvScript : list (option error);
  sendScript : list (option error);
  scriptedContext : context
}.

Definition scripted_recv (s : scripted) : option error * scripted :=
  match recvScript s with
  | [] => (Some io_EOF, s)
  | r :: rs => (r, mkScripted rs (sendScript s) (scriptedContext s))
  end.

Definition scripted_send (s : scripted) : option error * scripted :=
  match sendScript s with
  | [] => (None, s)
  | r :: rs => (r, mkScripted (recvScript s) rs (scriptedContext s))
  end.

#[global] Instance scripted_ClientStream : ClientStream scripted := {
  cs_Header s := ((None, None), s);
  cs_Trailer s := (None, s);
  cs_CloseSend s := (None, s);
  cs_Context := scriptedContext;
  cs_SendMsg _ := scripted_send;
  cs_RecvMsg _ := scripted_recv
}.

#[global] Instance scripted_ServerStream : ServerStream scripted := {
  ss_SendHeader _ s := (None, s);
  ss_SetTrailer _ s := s;
  ss_Context := scriptedContext;
  ss_SendMsg _ := scripted_send;
  ss_RecvMsg _ := scripted_recv
}.

Definition background : context := mkContext "background" None None None.

Definition emptyWorld : world := mkWorld [] [] [] [].

(** A tracer that injects one key and finds no parent on extraction. *)
Definition sampleTracer : Tracer :=
  mkTracer (fun _ => ([("trace-id", "7")], None))
           (fun _ => (None, Some ErrSpanContextNotFound)).

(** A tracer whose injection fails. *)
Definition failingTracer : Tracer :=
  mkTracer (fun _ => ([], Some (errorsNew "unsupported format")))
           (fun _ => (None, Some (errorsNew "corrupted"))).

(** An invoker that answers with the request, a handler that fails, and a
    call whose context carries metadata. *)
Definition echoInvoker : UnaryInvoker := fun _ _ req _ _ => (req, None).

Definition failingHandler : UnaryHandler := fun _ _ _ => (None, Some (errorsNew "boom")).

Definition withMetadata : context := mkContext "call" (Some 0%nat) None None.

Definition callerWorld : world := mkWorld [] [{["user" := ["alice"]]}] [] [].

(** A stream that is opened and then fails (its first [RecvMsg] returns
    an error), and one that has already ended. *)
Definition failedStream : scripted :=
  mkScripted [Some (errorsNew "unavailable")] [] background.

Definition endedStream : scripted := mkScripted [] [] background.

(** A stream that delivers a message, fails once, delivers another message
    and ends. *)
Definition flakyStream : scripted :=
  mkScripted [None; Some (errorsNew "unavailable"); None] [] background.

(** Streamers: one that opens the given stream, one that fails. *)
Definition opening (s : scripted) : Streamer scripted := fun _ _ _ _ => (Some s, None).

Definition refusing {S : Type} (e : error) : Streamer S := fun _ _ _ _ => (None, Some e).

(** Callers of a client stream: a receive loop that stops at the first
    error or end-of-stream signal, [n] sends before another caller, a
    receive loop that goes on until the end-of-stream signal, and a caller
    that receives [n] times whatever comes back. *)
Fixpoint recvLoop (fuel : nat) : clientProg :=
  match fuel with
  | O => CStop
  | S fuel' => CRecvMsg "" (fun r => match r with
                                     | None => recvLoop fuel'
                                     | Some _ => CStop
                                     end)
  end.

Fixpoint sendThen (n : nat) (p : clientProg) : clientProg :=
  match n with
  | O => p
  | S n' => CSendMsg "msg" (fun _ => sendThen n' p)
  end.

Fixpoint recvUntilEOF (fuel : nat) : clientProg :=
  match fuel with
  | O => CStop
  | S fuel' => CRecvMsg "" (fun r => if decide (r = Some io_EOF) then CStop
                                     else recvUntilEOF fuel')
  end.

Fixpoint recvTimes (n : nat) : clientProg :=
  match n with
  | O => CStop
  | S n' => CRecvMsg "" (fun _ => recvTimes n')
  end.

(** A stream handler that asks for its context, receives twice, sends once
    and fails. *)
Definition sampleHandler : StreamHandler := fun _ =>
  SContext (fun _ =>
  SRecvMsg "" (fun _ =>
  SRecvMsg "" (fun _ =>
  SSendMsg "msg" (fun _ =>
  SReturn (Some (errorsNew "boom")))))).

(** Modelled from grpc 1.0 and Go's standard library, neither of which
    is among the sources.  [base64.StdEncoding.DecodeString] reads its
    input in groups of four characters of the standard alphabet, skips
    carriage returns and line feeds wherever they stand, accepts [=]
    padding in the last group only, and otherwise fails with a
    [CorruptInputError] that holds the offset of the offending byte;
    the bits of a last group that do not make up a byte are dropped. *)
Definition base64_value (c : ascii) : option N :=
  let n := N_of_ascii c in
  if ((65 <=? n) && (n <=? 90))%N then Some (n - 65)%N
  else if ((97 <=? n) && (n <=? 122))%N then Some (n - 71)%N
  else if ((48 <=? n) && (n <=? 57))%N then Some (n + 4)%N
  else if (n =? 43)%N then Some 62%N
  else if (n =? 47)%N then Some 63%N
  else None.

Definition is_pad (c : ascii) : bool := (N_of_ascii c =? 61)%N.

Definition is_newline (c : ascii) : bool :=
  ((N_of_ascii c =? 10) || (N_of_ascii c =? 13))%N.

Definition base64_bytes (va vb vc vd : N) : list ascii :=
  let n := (va * 262144 + vb * 4096 + vc * 64 + vd)%N in
  [ascii_of_N (n / 65536); ascii_of_N ((n / 256) mod 256); ascii_of_N (n mod 256)].

(** The input from offset [si] on, without the newlines it starts with. *)
Fixpoint skip_newlines (l : list ascii) (si : nat) : list ascii * nat :=
  match l with
  | c :: rest => if is_newline c then skip_newlines rest (S si) else (l, si)
  | [] => ([], si)
  end.

(** After the padding: anything but newlines is trailing garbage. *)
Definition base64_end (out : list ascii) (l : list ascii) (si : nat) : list ascii + nat :=
  match skip_newlines l si with
  | ([], _) => inl out
  | (_ :: _, si') => inr si'
  end.

(** The decoder at offset [si], with the values [dbuf] of the group it is
    in: the bytes, or the offset of the [CorruptInputError]. *)
Fixpoint base64_decode (l : list ascii) (si : nat) (dbuf : list N) : list ascii + nat :=
  match l with
  | [] =>
      match dbuf with
      | [] => inl []
      | _ => inr (si - length dbuf)%nat
      end
  | c :: rest =>
      match base64_value c with
      | Some v =>
          match dbuf with
          | [va; vb; vc] =>
              match base64_decode rest (S si) [] with
              | inl out => inl (base64_bytes va vb vc v ++ out)
              | inr offset => inr offset
              end
          | _ => base64_decode rest (S si) (dbuf ++ [v])
          end
      | None =>
          if is_newline c then base64_decode rest (S si) dbuf
          else if negb (is_pad c) then inr si
          else
            match dbuf with
            | [va; vb] =>
                match skip_newlines rest (S si) with
                | ([], si') => inr si'
                | (d :: rest', si') =>
                    if is_pad d
                    then base64_end (take 1 (base64_bytes va vb 0 0)) rest' (S si')
                    else inr (si' - 1)%nat
                end
            | [va; vb; vc] => base64_end (take 2 (base64_bytes va vb vc 0)) rest (S si)
            | _ => inr si
            end
      end
  end.

(** [strconv.Itoa] of an offset. *)
Fixpoint digits (fuel n : nat) (acc : list ascii) : list ascii :=
  match fuel with
  | O => acc
  | S fuel' =>
      let acc := ascii_of_nat (48 + n mod 10) :: acc in
      if decide (n / 10 = 0)%nat then acc else digits fuel' (n / 10) acc
  end.

Definition Itoa (n : nat) : string := string_of_list_ascii (digits (S n) n []).

(** [CorruptInputError(offset).Error()]. *)
Definition CorruptInputError (offset : nat) : error :=
  errorsNew ("illegal base64 data at input byte " +:+ Itoa offset).

Definition DecodeString (s : string) : string + error :=
  match base64_decode (list_ascii_of_string s) 0 [] with
  | inl val => inl (string_of_list_ascii val)
  | inr offset => inr (CorruptInputError offset)
  end.

(** [strings.Split(s, ",")] and [strings.Join(l, ",")]. *)
Fixpoint Split_comma (l : list ascii) (cur : list ascii) : list string :=
  match l with
  | [] => [string_of_list_ascii cur]
  | c :: rest =>
      if decide (c = ","%char) then string_of_list_ascii cur :: Split_comma rest []
      else Split_comma rest (cur ++ [c])
  end.

Fixpoint Join_comma (l : list string) : string :=
  match l with
  | [] => ""
  | [s] => s
  | s :: rest => s +:+ "," +:+ Join_comma rest
  end.

Definition binHdrSuffix : string := "-bin".

Definition HasSuffix (s suffix : string) : bool :=
  bool_decide (drop (String.length s - String.length suffix)
                    (list_ascii_of_string s) = list_ascii_of_string suffix).

(** The values of [vvs] decoded in turn, up to the first that fails. *)
Fixpoint decodeAll (vvs : list string) : list string + error :=
  match vvs with
  | [] => inl []
  | vv :: rest =>
      match DecodeString vv with
      | inr err => inr err
      | inl val =>
          match decodeAll rest with
          | inr err => inr err
          | inl vals => inl (val :: vals)
          end
      end
  end.

(** [metadata.DecodeKeyValue]: the value of a key that ends in [-bin] is
    split on commas, every part is decoded as base64, and the parts are
    joined with commas again; every other pair is returned as it
    is. *)
Definition grpcDecodeKeyValue (k v : string) : (string * string) + error :=
  if HasSuffix k binHdrSuffix then
    match decodeAll (Split_comma (list_ascii_of_string v) []) with
    | inl vals => inl (k, Join_comma vals)
    | inr err => inr err
    end
  else inl (k, v).

(** A visitor that accepts every pair, and one that refuses every pair. *)
Definition acceptAll : @visitor unit := fun _ _ h => (None, h).
Definition refuseAll : @visitor unit := fun _ _ h => (Some (errorsNew "stop"), h).

(** ** The wrapped stream without the proxy *)


Section Direct.
Context {S : Type}.

(** A caller run against a client stream itself: the stream it leaves and
    the [SendMsg] and [RecvMsg] calls it made. *)
Fixpoint runDirectClient `{ClientStream S} (p : clientProg) (s : S) : S * list call :=
  match p with
  | CStop => (s, [])
  | CHeader k => let '(r, s') := cs_Header s in runDirectClient (k r) s'
  | CTrailer k => let '(r, s') := cs_Trailer s in runDirectClient (k r) s'
  | CCloseSend k => let '(r, s') := cs_CloseSend s in runDirectClient (k r) s'
  | CContext k => runDirectClient (k (cs_Context s)) s
  | CSendMsg m k =>
      let '(r, s') := cs_SendMsg m s in
      let '(s'', tr) := runDirectClient (k r) s' in
      (s'', SendMsgCall m r :: tr)
  | CRecvMsg m k =>
      let '(r, s') := cs_RecvMsg m s in
      let '(s'', tr) := runDirectClient (k r) s' in
      (s'', RecvMsgCall m r :: tr)
  end.

(** A handler run against a server stream itself. *)
Fixpoint runDirectServer `{ServerStream S} (p : serverProg) (s : S)
  : option error * S * list call :=
  match p with
  | SReturn err => (err, s, [])
  | SSendHeader md k => let '(r, s') := ss_SendHeader md s in runDirectServer (k r) s'
  | SSetTrailer md k => runDirectServer k (ss_SetTrailer md s)
  | SContext k => runDirectServer (k (ss_Context s)) s
  | SSendMsg m k =>
      let '(r, s') := ss_SendMsg m s in
      let '(herr, s'', tr) := runDirectServer (k r) s' in
      (herr, s'', SendMsgCall m r :: tr)
  | SRecvMsg m k =>
      let '(r, s') := ss_RecvMsg m s in
      let '(herr, s'', tr) := runDirectServer (k r) s' in
      (herr, s'', RecvMsgCall m r :: tr)
  end.
End Direct.


(** A callback that counts its calls and returns an error from the
    [n]-th call on, whatever the pair. *)
Definition refuseFrom (n : nat) : @visitor nat :=
  fun _ _ calls =>
    (if decide (n <= S calls)%nat then Some (errorsNew "enough") else None, S calls).


(** * Package obserr: errors with key/value data and annotations *)

Module obserr.

(** [err.Error()] of an error that is not an [*Error]. *)
Definition errorString : error -> string := Error.

(** An [interface{}] argument, as the type switches of [New] and
    [Annotate] tell them apart: nil, a string, an [*Error], any other
    error, and anything else, given by what [%v] prints for it. *)
Inductive value :=
| VNil
| VString (s : string)
| VErrorPtr (p : nat)
| VError (e : error)
| VOther (printed : string).

(** A value of Go's [error] interface: nil, an [*Error], or another
    error. *)
Inductive goerror :=
| ENil
| EPtr (p : nat)
| EPlain (e : error).

(** An [error] passed where an [interface{}] is expected. *)
Definition toValue (e : goerror) : value :=
  match e with
  | ENil => VNil
  | EPtr p => VErrorPtr p
  | EPlain e => VError e
  end.

(** The struct.  [orig] and [err] never hold an [*Error]: [New] returns an
    [*Error] argument as it is, and [Annotate] stores what [fmt.Errorf]
    makes. *)
Record Error := mkError {
  orig : error;
  err : error;
  vals : gmap string value
}.

(** The [*Error] objects of the program are kept in a list: a pointer is
    an index, and a pointer that refers to no object stands for nil.
    [alloc] is [&Error{orig: err, err: err, vals: make(...)}]. *)
Definition alloc (e : error) (st : list Error) : nat * list Error :=
  (length st, st ++ [mkError e e ∅]).

(** [New]: [fmt.Errorf("%v", o)] of the default case prints [<nil>] for
    nil. *)
Definition New (e : value) (st : list Error) : nat * list Error :=
  match e with
  | VString o => alloc (errorsNew o) st
  | VErrorPtr o => (o, st)
  | VError o => alloc o st
  | VNil => alloc (errorsNew "<nil>") st
  | VOther printed => alloc (errorsNew printed) st
  end.

(** [e.Error()]. *)
Definition Error_Error (e : nat) (st : list Error) : result string :=
  match st !! e with
  | Some o => Returned (errorString (err o))
  | None => Panicked
  end.

(** [e.Get(k)]: a missing key reads as nil. *)
Definition Error_Get (e : nat) (k : string) (st : list Error) : result value :=
  match st !! e with
  | Some o => Returned (default VNil (vals o !! k))
  | None => Panicked
  end.

(** The loop of [Set] on the map: [kvs[i].(string)] panics on a key that
    is not a string, [kvs[i+1]] when the last key has no value. *)
Fixpoint Set_loop (kvs : list value) (v : gmap string value) : bool * gmap string value :=
  match kvs with
  | [] => (false, v)
  | VString k :: x :: rest => Set_loop rest (<[k := x]> v)
  | _ => (true, v)
  end.

(** [e.Set(kvs...)]: the flag tells whether the call panicked; what was
    stored before the panic stays stored.  Without arguments the receiver
    is not dereferenced. *)
Definition Error_Set (e : nat) (kvs : list value) (st : list Error) : result nat * list Error :=
  match kvs with
  | [] => (Returned e, st)
  | _ =>
      match st !! e with
      | None => (Panicked, st)
      | Some o =>
          let '(panicked, v) := Set_loop kvs (vals o) in
          let st' := <[e := mkError (orig o) (err o) v]> st in
          (if panicked then Panicked else Returned e, st')
      end
  end.

(** [e.Vals()]. *)
Definition Error_Vals (e : nat) (st : list Error) : result (gmap string value) :=
  match st !! e with
  | Some o => Returned (vals o)
  | None => Panicked
  end.

(** The text [Annotate] prefixes, by the type switch on the annotation. *)
Definition annotation (ann : value) (st : list Error) : result string :=
  match ann with
  | VString o => Returned o
  | VErrorPtr o =>
      match st !! o with
      | Some oe => Returned (errorString (err oe))
      | None => Panicked
      end
  | VError o => Returned (errorString o)
  | VNil => Returned "<nil>"
  | VOther printed => Returned printed
  end.

(** [e.Annotate(ann)]: [e.err = fmt.Errorf("%s: %s", a, e.err)]. *)
Definition Error_Annotate (e : nat) (ann : value) (st : list Error) : result nat * list Error :=
  match annotation ann st with
  | Panicked => (Panicked, st)
  | Returned a =>
      match st !! e with
      | None => (Panicked, st)
      | Some o =>
          (Returned e,
           <[e := mkError (orig o) (errorsNew (a +:+ ": " +:+ errorString (err o))) (vals o)]> st)
      end
  end.

(** The package function: [New(e).Annotate(an)]. *)
Definition Annotate (e : goerror) (an : value) (st : list Error) : result nat * list Error :=
  let '(p, st) := New (toValue e) st in
  Error_Annotate p an st.

(** [Original(e)]. *)
Definition Original (e : goerror) (st : list Error) : result goerror :=
  match e with
  | EPtr oe =>
      match st !! oe with
      | Some o => Returned (EPlain (orig o))
      | None => Panicked
      end
  | _ => Returned e
  end.

(** Annotating again and again, each time what the last call returned. *)
Fixpoint annotateAll (e : goerror) (anns : list value) (st : list Error) : result goerror * list Error :=
  match anns with
  | [] => (Returned e, st)
  | an :: rest =>
      match Annotate e an st with
      | (Returned p, st') => annotateAll (EPtr p) rest st'
      | (Panicked, st') => (Panicked, st')
      end
  end.

(** An annotation that is not an [*Error], and what it prints as. *)
Definition plain (ann : value) : Prop :=
  match ann with
  | VErrorPtr _ => False
  | _ => True
  end.

Definition printed (ann : value) : string :=
  match ann with
  | VNil => "<nil>"
  | VString s => s
  | VErrorPtr _ => ""
  | VError e => errorString e
  | VOther s => s
  end.

(** The arguments of [Set] for a list of (key, value) pairs. *)
Definition keyvals (pairs : list (string * value)) : list value :=
  flat_map (fun kv => [VString (fst kv); snd kv]) pairs.

(** Arguments at which the loop of [Set] panics: a key that is not a
    string, or a last key without a value. *)
Definition malformed (bad : list value) : Prop :=
  match bad with
  | [] => False
  | [VString _] => True
  | VString _ :: _ => False
  | _ => True
  end.

(** The value the last pair with key [k] gives it, if any. *)
Definition lastFor (k : string) (pairs : list (string * value)) : option value :=
  snd <$> last (filter (fun kv => fst kv = k) pairs).
End obserr.

(** An [*Error] made from [io.EOF] that carries a value. *)
Definition sampleObserr : list obserr.Error :=
  [obserr.mkError io_EOF io_EOF {["attempt" := obserr.VOther "3"]}].


(** * Package topk: counting sampled events per project *)

Module topk.

(** The two counters are [int64]s: [++] wraps as [incr] does. *)
Record sampledCount := mkSampledCount {
  preSampling : Z;
  postSampling : Z
}.

(** [mixpanel.TrackedEvent]; the properties of the events made here are
    integers. *)
Record TrackedEvent := mkTrackedEvent {
  EventName : string;
  Properties : gmap string Z
}.

(** The calls on the metrics receiver: [Incr(name)] and
    [IncrBy(name, amount)].  The amounts here are lengths, which
    [float64] holds exactly. *)
Inductive metric :=
| Incr (name : string)
| IncrBy (name : string) (amount : Z).

(** [mixpanel.Client.TrackBatched]: the error it returns for a batch may
    depend on the batches it was given before. *)
Definition Client := list (list TrackedEvent) -> list TrackedEvent -> option error.

(** The tracker, with what its collaborators have seen of it: the batches
    given to the client, the calls on the receiver, and the lines
    printed by [log.Printf].  [counts] maps an [int32] project id to its
    counters; the mutex makes [Track] and the swap in [flush] atomic. *)
Record projectTracker := mkProjectTracker {
  eventName : string;
  counts : gmap Z sampledCount;
  tracked : list (list TrackedEvent);
  received : list metric;
  printed : list string
}.

Definition set_counts (c : gmap Z sampledCount) (p : projectTracker) : projectTracker :=
  mkProjectTracker (eventName p) c (tracked p) (received p) (printed p).

(** [NewProjectTracker], without the ticker that calls [flush]. *)
Definition NewProjectTracker (eventName : string) : projectTracker :=
  mkProjectTracker eventName ∅ [] [] [].

Definition Track (projectId : Z) (inSample : bool) (p : projectTracker) : projectTracker :=
  let counts1 := match counts p !! projectId with
                 | Some _ => counts p
                 | None => <[projectId := mkSampledCount 0 0]> (counts p)
                 end in
  match counts1 !! projectId with
  | Some count =>
      let count := mkSampledCount (incr (preSampling count)) (postSampling count) in
      let count := if inSample
                   then mkSampledCount (preSampling count) (incr (postSampling count))
                   else count in
      set_counts (<[projectId := count]> counts1) p
  | None => set_counts counts1 p
  end.

Definition send (client : Client) (events : list TrackedEvent) (p : projectTracker)
  : projectTracker :=
  let err := client (tracked p) events in
  let tracked' := tracked p ++ [events] in
  let received' := received p ++ [IncrBy "num_sent_events" (Z.of_nat (length events))] in
  match err with
  | Some e =>
      mkProjectTracker (eventName p) (counts p) tracked'
        (received' ++ [Incr "failures"])
        (printed p ++ ["error while tracking to mixpanel api: " +:+ Error e])
  | None =>
      mkProjectTracker (eventName p) (counts p) tracked'
        (received' ++ [Incr "success"]) (printed p)
  end.

Definition maxBatchSize : nat := 100.

(** The event [flush] makes for a project. *)
Definition eventOf (name : string) (entry : Z * sampledCount) : TrackedEvent :=
  mkTrackedEvent name
    (<["project_id" := fst entry]>
       (<["count" := preSampling (snd entry)]>
          (<["pre_sampling" := preSampling (snd entry)]>
             (<["post_sampling" := postSampling (snd entry)]> ∅)))).

(** The loop of [flush] over the entries [g], in the order in which
    [range] yields them, with the events collected so far. *)
Fixpoint flush_range (client : Client) (g : list (Z * sampledCount))
    (events : list TrackedEvent) (p : projectTracker) : list TrackedEvent * projectTracker :=
  match g with
  | [] => (events, p)
  | entry :: g' =>
      let events := events ++ [eventOf (eventName p) entry] in
      if decide (length events = maxBatchSize)
      then flush_range client g' [] (send client events p)
      else flush_range client g' events p
  end.

(** [flush]: [g] is the order in which the old map is ranged over. *)
Definition flush (client : Client) (g : list (Z * sampledCount)) (p : projectTracker)
  : projectTracker :=
  let old := counts p in
  let p := set_counts ∅ p in
  if decide (size old = 0%nat) then p
  else
    let '(events, p) := flush_range client g [] p in
    if decide (0 < length events)%nat then send client events p else p.

(** [Close]: the ticker is stopped, and what is left is flushed. *)
Definition Close (client : Client) (g : list (Z * sampledCount)) (p : projectTracker)
  : projectTracker :=
  flush client g p.

(** A sequence of [Track] calls. *)
Definition trackAll (l : list (Z * bool)) (p : projectTracker) : projectTracker :=
  foldl (fun p' c => Track (fst c) (snd c) p') p l.

(** How often a project was tracked, and how often in the sample. *)
Definition seen (projectId : Z) (l : list (Z * bool)) : nat :=
  length (filter (fun c => fst c = projectId) l).

Definition sampled (projectId : Z) (l : list (Z * bool)) : nat :=
  length (filter (fun c => fst c = projectId /\ snd c = true) l).

(** The total of the [num_sent_events] amounts, and the number of
    [Incr] calls with a name, among calls on the receiver. *)
#[global] Instance metric_eq_dec : EqDecision metric.
Proof. solve_decision. Defined.

Definition sentEvents (ms : list metric) : Z :=
  foldr (fun m acc => match m with
                      | IncrBy name n => if decide (name = "num_sent_events") then n + acc else acc
                      | Incr _ => acc
                      end) 0 ms.

Definition incrs (name : string) (ms : list metric) : nat :=
  length (filter (fun m => m = Incr name) ms).
End topk.

(** A client that refuses every second batch, and 250 projects tracked
    once each. *)
Definition flakyClient : topk.Client :=
  fun history _ => if Nat.even (length history) then None else Some (errorsNew "rate limited").

Definition manyProjects : list (Z * bool) :=
  (fun i => (Z.of_nat i, Nat.even i)) <$> seq 0 250.

(** A client that refuses every batch. *)
Definition refuseBatches : topk.Client := fun _ _ => Some (errorsNew "unreachable").

(** * Properties *)

(** ** Arithmetic of the counters *)

Lemma wrap_int_small (z : Z) : 0 <= z < int_half -> wrap_int z = z.
Proof.
  intros Hz. unfold wrap_int, int_modulus, int_half in *.
  rewrite Z.mod_small; lia.
Qed.

Lemma incr_wrap_int (z : Z) : incr (wrap_int z) = wrap_int (z + 1).
Proof.
  unfold incr, wrap_int.
  replace ((z + int_half) mod int_modulus - int_half + 1 + int_half)
    with ((z + int_half) mod int_modulus + 1) by lia.
  rewrite Zplus_mod_idemp_l. f_equal. f_equal. lia.
Qed.

Lemma iter_incr (n : nat) (z : Z) :
  Nat.iter n incr (wrap_int z) = wrap_int (z + Z.of_nat n).
Proof.
  induction n as [|n IH]; simpl.
  - f_equal. lia.
  - rewrite IH, incr_wrap_int. f_equal. lia.
Qed.

Lemma iter_incr_0 (n : nat) :
  Z.of_nat n < int_half -> Nat.iter n incr 0 = Z.of_nat n.
Proof.
  intros Hn. change 0 with (wrap_int 0). rewrite iter_incr.
  apply wrap_int_small. lia.
Qed.

Example decode_bin : grpcDecodeKeyValue "k-bin" "aGk=" = inl ("k-bin", "hi").
Proof. vm_compute. reflexivity. Qed.

Example decode_bin_bad : grpcDecodeKeyValue "k-bin" "!!!" = inr (CorruptInputError 0).
Proof. vm_compute. reflexivity. Qed.

Example decode_bin_parts : grpcDecodeKeyValue "k-bin" "aGk=,aGV5" = inl ("k-bin", "hi,hey").
Proof. vm_compute. reflexivity. Qed.

Example decode_bin_short :
  grpcDecodeKeyValue "k-bin" "aGVsbG8gd29ybGQ"
  = inr (errorsNew "illegal base64 data at input byte 12").
Proof. vm_compute. reflexivity. Qed.

Example decode_plain : grpcDecodeKeyValue "trace-id" "7" = inl ("trace-id", "7").
Proof. vm_compute. reflexivity. Qed.

(** ** The world after a run of a unary interceptor *)

Lemma alter_snoc {A : Type} (f : A -> A) (l : list A) (x : A) :
  alter f (length l) (l ++ [x]) = l ++ [f x].
Proof.
  replace (length l) with (length l + 0)%nat by lia.
  rewrite alter_app_r. reflexivity.
Qed.

Lemma lookup_snoc_new {A : Type} (l : list A) (x : A) : (l ++ [x]) !! length l = Some x.
Proof. apply list_lookup_middle. reflexivity. Qed.

Lemma tracer_Inject_eq tracer sc md w :
  tracer_Inject tracer sc md w =
  (snd (Inject tracer sc), set_mds (alter (setAll (fst (Inject tracer sc))) md) w).
Proof.
  unfold tracer_Inject. destruct (Inject tracer sc) as [sets err]. cbn. f_equal.
  revert w. induction sets as [|[k v] sets IH]; intros w; cbn.
  - destruct w; unfold set_mds; cbn. f_equal. symmetry. apply list_alter_id. reflexivity.
  - rewrite IH. destruct w; unfold set_mds, grpcTraceMD_Set, set_mds; cbn. f_equal.
    rewrite list_alter_alter_eq. reflexivity.
Qed.

(** Unfolds the operations on the world down to record constructions,
    leaving the tag maps and the strings as they are. *)
Ltac world_simpl :=
  cbn [spans mds logs calls TraceSpan fst snd ctxValues ctxMD ctxFlight ctxSpan
       operationName parentContext tags finished optList fmap list_fmap default
       from_option app clientTags serverTags withCounts
       ssi_ss ssi_span ssi_done ssi_inCount ssi_outCount ssi_ctx
       csi_cs csi_span csi_done csi_inCount csi_outCount].

Ltac unfold_world :=
  unfold Warn, Info, Error_Set, SpanKind_Set, SetTag, finishSpan, NewContext, ContextWithSpan,
    Span_Context, metadata_New, MD_Copy, tracer_Extract, add_log, add_call, set_mds, set_spans,
    contents, Label_ErrorMessage, injectWarning, extractWarning, callInfo,
    SpanKindRPCClientEnum, SpanKindRPCServerEnum, FromContext in *;
  world_simpl.

Ltac destruct_call :=
  match goal with
  | |- context [match ?x with (_, _) => _ end] => destruct x as [? [?|]]
  end.

(** The unary client interceptor, in one equation: what the invoker is
    called with, and the world the interceptor leaves. *)
Lemma unary_client_run tracer ctx method req reply invoker w :
  let n := length (spans w) in
  let sets := fst (Inject tracer (LocalContext n)) in
  let warned := injectWarning <$> optList (snd (Inject tracer (LocalContext n))) in
  let name := "grpc:" +:+ method in
  let parent := LocalContext <$> ctxSpan ctx in
  let md' := setAll sets (metadataOf ctx w) in
  let ctx' := mkContext (ctxValues ctx) (Some (length (mds w))) (Some n) (ctxSpan ctx) in
  let w_call := mkWorld (spans w ++ [mkSpan name parent (clientTags None) []])
                        (mds w ++ [md']) (logs w ++ warned) (calls w) in
  let res := invoker ctx' method req reply w_call in
  tracingUnaryClientInterceptor tracer ctx method req reply invoker w =
  (res, mkWorld (spans w ++ [mkSpan name parent (clientTags (snd res)) [clientTags (snd res)]])
                (mds w ++ [md'])
                (logs w ++ warned ++ (callInfo method <$> optList (snd res)))
                (calls w ++ [InvokerCall ctx' method req])).
Proof.
  unfold tracingUnaryClientInterceptor, WithNewSpan, WithNewSpanContext, call_invoker,
    metadataOf.
  cbv zeta. unfold_world.
  destruct (ctxMD ctx); unfold_world; rewrite tracer_Inject_eq;
    destruct (snd (Inject tracer _)); unfold_world.
  all: rewrite ?lookup_snoc_new, !alter_snoc; world_simpl.
  all: rewrite ?app_nil_r.
  all: destruct_call; unfold_world.
  all: rewrite ?alter_snoc; world_simpl.
  all: rewrite ?app_nil_r, <- ?app_assoc; reflexivity.
Qed.

(** The unary server interceptor, in one equation. *)
Lemma unary_server_run host tracer ctx req FullMethod handler w :
  let n := length (spans w) in
  let found := Extract tracer (metadataOf ctx w) in
  let warned := extractWarnings (snd found) in
  let name := "grpc:" +:+ FullMethod in
  let mds' := match ctxMD ctx with Some _ => mds w | None => mds w ++ [∅] end in
  let ctx' := mkContext (ctxValues ctx) (ctxMD ctx) (Some n) (Some n) in
  let w_call := mkWorld (spans w ++ [mkSpan name (fst found) (serverTags host None) []])
                        mds' (logs w ++ warned) (calls w) in
  let res := handler ctx' req w_call in
  tracingUnaryServerInterceptor host tracer ctx req FullMethod handler w =
  (res, mkWorld (spans w ++ [mkSpan name (fst found) (serverTags host (snd res))
                                    [serverTags host (snd res)]])
                mds'
                (logs w ++ warned ++ (callInfo FullMethod <$> optList (snd res)))
                (calls w ++ [HandlerCall ctx' req])).
Proof.
  unfold tracingUnaryServerInterceptor, WithNewSpanContext, call_handler,
    metadataOf, extractWarnings.
  cbv zeta. unfold_world.
  destruct (ctxMD ctx) as [md|]; unfold_world; rewrite ?lookup_snoc_new; world_simpl.
  all: destruct (Extract tracer _) as [spanCtx [e|]]; world_simpl.
  all: try destruct (decide (e = ErrSpanContextNotFound)).
  all: unfold_world; rewrite ?alter_snoc; world_simpl.
  all: rewrite ?app_nil_r.
  all: destruct_call; unfold_world.
  all: rewrite ?alter_snoc; world_simpl.
  all: rewrite ?app_nil_r, <- ?app_assoc; reflexivity.
Qed.

(** The streaming client interceptor, in one equation. *)
Lemma stream_client_run {S : Type} `{ClientStream S} tracer ctx desc method
    (streamer : Streamer S) w :
  let n := length (spans w) in
  let sets := fst (Inject tracer (LocalContext n)) in
  let warned := injectWarning <$> optList (snd (Inject tracer (LocalContext n))) in
  let name := "grpc:" +:+ method in
  let parent := LocalContext <$> ctxSpan ctx in
  let md' := setAll sets (metadataOf ctx w) in
  let ctx' := mkContext (ctxValues ctx) (Some (length (mds w))) (Some n) (ctxSpan ctx) in
  let w_call := mkWorld (spans w ++ [mkSpan name parent (clientTags None) []])
                        (mds w ++ [md']) (logs w ++ warned) (calls w) in
  let res := streamer ctx' desc method w_call in
  tracingStreamClientInterceptor tracer ctx desc method streamer w =
  ((mkClientStreamInterceptor (fst res) n (finishSpan n) 0 0, snd res),
   mkWorld (spans w ++ [mkSpan name parent (clientTags (snd res)) []])
           (mds w ++ [md'])
           (logs w ++ warned ++ (callInfo method <$> optList (snd res)))
           (calls w ++ [StreamerCall ctx' method])).
Proof.
  unfold tracingStreamClientInterceptor, WithNewSpan, WithNewSpanContext, metadataOf.
  cbv zeta. unfold_world.
  destruct (ctxMD ctx); unfold_world; rewrite tracer_Inject_eq;
    destruct (snd (Inject tracer _)); unfold_world.
  all: rewrite ?lookup_snoc_new, !alter_snoc; world_simpl.
  all: rewrite ?app_nil_r.
  all: destruct_call; unfold_world.
  all: rewrite ?alter_snoc; world_simpl.
  all: rewrite ?app_nil_r, <- ?app_assoc; reflexivity.
Qed.

(** ** Spans under the operations of the proxies *)

Lemma countCalls_app f tr1 tr2 :
  countCalls f (tr1 ++ tr2) = (countCalls f tr1 + countCalls f tr2)%nat.
Proof. induction tr1 as [|c tr1 IH]; cbn; [reflexivity|]. rewrite IH. lia. Qed.

Lemma finalizations_SetTag span span' key value w :
  finalizations span (SetTag span' key value w) = finalizations span w.
Proof.
  unfold finalizations, SetTag, set_spans; cbn.
  rewrite list_lookup_alter. destruct (decide (span' = span)) as [->|]; [|reflexivity].
  destruct (spans w !! span); reflexivity.
Qed.

Lemma spanTags_SetTag span key value w :
  (span < length (spans w))%nat ->
  spanTags span (SetTag span key value w) = <[key := value]> (spanTags span w).
Proof.
  intros Hlt. unfold spanTags, SetTag, set_spans; cbn.
  rewrite list_lookup_alter_eq.
  destruct (lookup_lt_is_Some_2 _ _ Hlt) as [s ->]. reflexivity.
Qed.

Lemma finalizations_finishSpan span w :
  (span < length (spans w))%nat ->
  finalizations span (finishSpan span w) = finalizations span w ++ [spanTags span w].
Proof.
  intros Hlt. unfold finalizations, spanTags, finishSpan, set_spans; cbn.
  rewrite list_lookup_alter_eq.
  destruct (lookup_lt_is_Some_2 _ _ Hlt) as [s ->]. reflexivity.
Qed.

Lemma length_spans_SetTag span key value w :
  length (spans (SetTag span key value w)) = length (spans w).
Proof. unfold SetTag, set_spans; cbn. apply length_alter. Qed.

Lemma length_spans_finishSpan span w :
  length (spans (finishSpan span w)) = length (spans w).
Proof. unfold finishSpan, set_spans; cbn. apply length_alter. Qed.

(** ** Running a handler against the server proxy *)

(** A handler leaves the spans, the metadata and the log alone; the proxy
    it was given has counted its [RecvMsg] and [SendMsg] calls, whatever
    they returned, and still carries the same span, callback and
    context. *)
Lemma runServer_spec {S : Type} `{ServerStream S} (p : serverProg) :
  forall (ssi : serverStreamInterceptor S) (w : world),
  exists herr tr s,
    runServer p ssi w =
      (herr,
       mkServerStreamInterceptor s (ssi_span ssi) (ssi_done ssi)
         (Nat.iter (countCalls isRecv tr) incr (ssi_inCount ssi))
         (Nat.iter (countCalls isSend tr) incr (ssi_outCount ssi))
         (ssi_ctx ssi),
       mkWorld (spans w) (mds w) (logs w) (calls w ++ tr)).
Proof.
  induction p as [err|md k IH|md k IH|k IH|m k IH|m k IH]; intros ssi w; cbn.
  - exists err, [], (ssi_ss ssi). destruct ssi, w; cbn. rewrite app_nil_r. reflexivity.
  - unfold serverStream_SendHeader.
    destruct (ss_SendHeader md (ssi_ss ssi)) as [r s1].
    destruct (IH r (ssi_with_ss ssi s1) w) as (herr & tr & s & ->).
    exists herr, tr, s. reflexivity.
  - destruct (IH (serverStream_SetTrailer md ssi) w) as (herr & tr & s & ->).
    exists herr, tr, s. reflexivity.
  - destruct (IH (serverStream_Context ssi) ssi w) as (herr & tr & s & ->).
    exists herr, tr, s. reflexivity.
  - unfold serverStream_SendMsg; cbn.
    destruct (ss_SendMsg m (ssi_ss ssi)) as [r s1].
    match goal with |- context [runServer (k r) ?a ?b] =>
      destruct (IH r a b) as (herr & tr & s & ->) end.
    exists herr, (SendMsgCall m r :: tr), s. cbn.
    rewrite <- app_assoc. rewrite <- Nat.iter_succ_r. reflexivity.
  - unfold serverStream_RecvMsg; cbn.
    destruct (ss_RecvMsg m (ssi_ss ssi)) as [r s1].
    match goal with |- context [runServer (k r) ?a ?b] =>
      destruct (IH r a b) as (herr & tr & s & ->) end.
    exists herr, (RecvMsgCall m r :: tr), s. cbn.
    rewrite <- app_assoc. rewrite <- Nat.iter_succ_r. reflexivity.
Qed.

(** [Context()] on the proxy answers with the proxy's own context at every
    point of a handler. *)
Lemma runServer_answerContext {S : Type} `{ServerStream S} (p : serverProg) :
  forall (ssi : serverStreamInterceptor S) (w : world),
    runServer p ssi w = runServer (answerContext (ssi_ctx ssi) p) ssi w.
Proof.
  induction p as [err|md k IH|md k IH|k IH|m k IH|m k IH]; intros ssi w; cbn.
  - reflexivity.
  - unfold serverStream_SendHeader.
    destruct (ss_SendHeader md (ssi_ss ssi)) as [r s1]. rewrite IH. reflexivity.
  - rewrite IH. reflexivity.
  - apply IH.
  - unfold serverStream_SendMsg; cbn.
    destruct (ss_SendMsg m (ssi_ss ssi)) as [r s1]. rewrite IH. reflexivity.
  - unfold serverStream_RecvMsg; cbn.
    destruct (ss_RecvMsg m (ssi_ss ssi)) as [r s1]. rewrite IH. reflexivity.
Qed.

(** The streaming server interceptor, in one equation: the proxy the
    handler is run against, and the world the interceptor leaves. *)
Lemma stream_server_run {S : Type} `{ServerStream S} host tracer srv (ss : S)
    FullMethod handler w :
  let n := length (spans w) in
  let ctx := ss_Context ss in
  let found := Extract tracer (metadataOf ctx w) in
  let warned := extractWarnings (snd found) in
  let name := "grpc:" +:+ FullMethod in
  let mds' := match ctxMD ctx with Some _ => mds w | None => mds w ++ [∅] end in
  let ctx' := mkContext (ctxValues ctx) (ctxMD ctx) (Some n) (Some n) in
  let ssi := mkServerStreamInterceptor ss n (finishSpan n) 0 0 ctx' in
  let started := spans w ++ [mkSpan name (fst found) (serverTags host None) []] in
  let w_call := mkWorld started mds' (logs w ++ warned) (calls w ++ [StreamHandlerCall srv]) in
  exists herr tr s,
    let received := Nat.iter (countCalls isRecv tr) incr 0 in
    let sent := Nat.iter (countCalls isSend tr) incr 0 in
    let final := withCounts received sent (serverTags host herr) in
    runServer (handler srv) ssi w_call =
      (herr, mkServerStreamInterceptor s n (finishSpan n) received sent ctx',
       mkWorld started mds' (logs w ++ warned) (calls w ++ StreamHandlerCall srv :: tr)) /\
    tracingStreamServerInterceptor host tracer srv ss FullMethod handler w =
      (herr, mkWorld (spans w ++ [mkSpan name (fst found) final [final]])
                     mds'
                     (logs w ++ warned ++ (callInfo FullMethod <$> optList herr))
                     (calls w ++ StreamHandlerCall srv :: tr)).
Proof.
  unfold tracingStreamServerInterceptor, WithNewSpanContext, call_stream_handler,
    metadataOf, extractWarnings.
  cbv zeta. unfold_world.
  destruct (ctxMD (ss_Context ss)) as [md|]; unfold_world; rewrite ?lookup_snoc_new; world_simpl.
  all: destruct (Extract tracer _) as [spanCtx [e|]]; world_simpl.
  all: try destruct (decide (e = ErrSpanContextNotFound)).
  all: unfold_world; rewrite ?alter_snoc; world_simpl.
  all: rewrite ?app_nil_r.
  all: match goal with |- context [runServer ?p ?a ?b] =>
         destruct (runServer_spec p a b) as (herr & tr & s & Hrun) end.
  all: cbn [spans mds logs calls ssi_span ssi_done ssi_inCount ssi_outCount ssi_ctx] in Hrun;
         exists herr, tr, s; rewrite Hrun.
  all: rewrite <- app_assoc; split; [reflexivity|].
  all: destruct herr; unfold serverStream_finish; unfold_world;
         rewrite ?alter_snoc; world_simpl;
         rewrite ?app_nil_r, <- ?app_assoc; reflexivity.
Qed.

(** ** Running a caller against the client proxy *)

Lemma reports_withCounts received sent t :
  reports (withCounts received sent t) (received, sent).
Proof.
  unfold reports, withCounts; cbn. split.
  - rewrite lookup_insert_ne by discriminate. apply lookup_insert_eq.
  - apply lookup_insert_eq.
Qed.

Lemma iter_countCalls_counted f c tr z :
  f c = true ->
  Nat.iter (countCalls f (c :: tr)) incr z = Nat.iter (countCalls f tr) incr (incr z).
Proof. intros Hc. cbn [countCalls]. rewrite Hc. apply Nat.iter_succ_r. Qed.

Lemma countCalls_skipped f c tr :
  f c = false -> countCalls f (c :: tr) = countCalls f tr.
Proof. intros Hc. cbn [countCalls]. rewrite Hc. reflexivity. Qed.

Lemma isRecvNotEOF_other m r :
  r <> Some io_EOF -> isRecvNotEOF (RecvMsgCall m r) = true.
Proof. intros Hne. unfold isRecvNotEOF; cbn. rewrite (bool_decide_false _ Hne). reflexivity. Qed.

(** A caller of a proxy that wraps a stream and owns the completion
    callback of its span: no call panics, the counters count the
    [RecvMsg] calls that did not return [io.EOF] and the [SendMsg] calls,
    and the span gets one snapshot for each [RecvMsg] that returned
    [io.EOF], reporting the counters as they were then. *)
Lemma runClient_spec {S : Type} `{ClientStream S} (p : clientProg) :
  forall (s : S) (span : nat) (i o : Z) (w : world),
    (span < length (spans w))%nat ->
    exists tr s' snaps w',
      runClient p (mkClientStreamInterceptor (Some s) span (finishSpan span) i o) w =
        (false,
         mkClientStreamInterceptor (Some s') span (finishSpan span)
           (Nat.iter (countCalls isRecvNotEOF tr) incr i)
           (Nat.iter (countCalls isSend tr) incr o),
         w') /\
      mds w' = mds w /\ logs w' = logs w /\ calls w' = calls w ++ tr /\
      length (spans w') = length (spans w) /\
      finalizations span w' = finalizations span w ++ snaps /\
      Forall2 reports snaps (eofCounts tr i o).
Proof.
  induction p as [|k IH|k IH|k IH|k IH|m k IH|m k IH]; intros s span i o w Hlt;
    cbn [runClient].
  - exists [], s, [], w. rewrite !app_nil_r. repeat split; constructor.
  - unfold clientStream_Header, csi_with_cs; cbn. destruct (cs_Header s) as [r s1].
    apply IH, Hlt.
  - unfold clientStream_Trailer, csi_with_cs; cbn. destruct (cs_Trailer s) as [r s1].
    apply IH, Hlt.
  - unfold clientStream_CloseSend, csi_with_cs; cbn. destruct (cs_CloseSend s) as [r s1].
    apply IH, Hlt.
  - unfold clientStream_Context; cbn. apply IH, Hlt.
  - unfold clientStream_SendMsg, csi_with_cs; cbn. destruct (cs_SendMsg m s) as [r s1].
    destruct (IH r s1 span i (incr o) (add_call (SendMsgCall m r) w) Hlt)
      as (tr & s' & snaps & w' & Hrun & Hmds & Hlogs & Hcalls & Hlen & Hfin & Hrep).
    exists (SendMsgCall m r :: tr), s', snaps, w'.
    rewrite Hrun, Hcalls, Hmds, Hlogs, Hlen, Hfin.
    rewrite (iter_countCalls_counted isSend) by reflexivity.
    rewrite (countCalls_skipped isRecvNotEOF) by reflexivity.
    cbn [calls add_call]. rewrite <- app_assoc.
    repeat split. exact Hrep.
  - unfold clientStream_RecvMsg, csi_with_cs; cbn. destruct (cs_RecvMsg m s) as [r s1].
    destruct (decide (r = Some io_EOF)) as [->|Hne].
    + remember (finishSpan _ _) as w1 eqn:Hw1.
      assert (Hlen1 : length (spans w1) = length (spans w)).
      { subst w1. rewrite length_spans_finishSpan, !length_spans_SetTag. reflexivity. }
      assert (Hfin1 : finalizations span w1 =
                      finalizations span w ++ [withCounts i o (spanTags span w)]).
      { subst w1. rewrite finalizations_finishSpan by (rewrite !length_spans_SetTag; exact Hlt).
        rewrite !finalizations_SetTag.
        rewrite !spanTags_SetTag by (rewrite ?length_spans_SetTag; exact Hlt).
        reflexivity. }
      assert (Hrest : mds w1 = mds w /\ logs w1 = logs w /\
                      calls w1 = calls w ++ [RecvMsgCall m (Some io_EOF)]).
      { subst w1. repeat split. }
      destruct Hrest as (Hmds1 & Hlogs1 & Hcalls1).
      clear Hw1.
      destruct (IH (Some io_EOF) s1 span i o w1)
        as (tr & s' & snaps & w' & Hrun & Hmds & Hlogs & Hcalls & Hlen & Hfin & Hrep).
      { rewrite Hlen1. exact Hlt. }
      exists (RecvMsgCall m (Some io_EOF) :: tr), s',
        (withCounts i o (spanTags span w) :: snaps), w'.
      rewrite Hrun, Hcalls, Hmds, Hlogs, Hlen, Hfin, Hfin1, Hcalls1, Hmds1, Hlogs1, Hlen1.
      rewrite (countCalls_skipped isSend) by reflexivity.
      rewrite (countCalls_skipped isRecvNotEOF) by reflexivity.
      rewrite <- !app_assoc.
      repeat split. cbn.
      constructor; [apply reports_withCounts | exact Hrep].
    + destruct (IH r s1 span (incr i) o (add_call (RecvMsgCall m r) w) Hlt)
        as (tr & s' & snaps & w' & Hrun & Hmds & Hlogs & Hcalls & Hlen & Hfin & Hrep).
      exists (RecvMsgCall m r :: tr), s', snaps, w'.
      rewrite Hrun, Hcalls, Hmds, Hlogs, Hlen, Hfin.
      rewrite (countCalls_skipped isSend) by reflexivity.
      rewrite (iter_countCalls_counted isRecvNotEOF) by (apply isRecvNotEOF_other, Hne).
      cbn [calls add_call eofCounts]. rewrite <- app_assoc.
      destruct (decide (r = Some io_EOF)); [contradiction|].
      repeat split. exact Hrep.
Qed.

(** ** C1: how often a span is finalized *)

Lemma length_eofCounts tr i o : length (eofCounts tr i o) = countCalls isEOF tr.
Proof.
  revert i o. induction tr as [|c tr IH]; intros i o; cbn; [reflexivity|].
  destruct c; cbn; try apply IH.
  destruct (decide (res = Some io_EOF)) as [->|Hne]; cbn.
  - rewrite IH. reflexivity.
  - rewrite (bool_decide_false _ Hne). apply IH.
Qed.

(** The span of an opened client stream has one finalization for each
    [RecvMsg] that returned the end-of-stream signal. *)
Lemma client_stream_finalizations (S : Type) (CS : ClientStream S) tracer ctx desc method
    (streamer : Streamer S) w p csi err w1 panicked csi' w2 :
  tracingStreamClientInterceptor tracer ctx desc method streamer w = (csi, err, w1) ->
  is_Some (csi_cs csi) ->
  runClient p csi w1 = (panicked, csi', w2) ->
  csi_span csi = length (spans w) /\
  finalizations (csi_span csi) w1 = [] /\
  length (finalizations (csi_span csi) w2) = countCalls isEOF (callsSince w1 w2).
Proof.
  intros Hopen Hcs Hrun.
  rewrite stream_client_run in Hopen. cbv zeta in Hopen.
  injection Hopen as <- <- <-. cbn in Hcs |- *.
  destruct Hcs as [s Hs]. rewrite Hs in Hrun.
  split; [reflexivity|].
  split; [unfold finalizations; cbn; rewrite lookup_snoc_new; reflexivity|].
  match type of Hrun with runClient _ _ ?w0 = _ =>
    destruct (runClient_spec p s (length (spans w)) 0 0 w0)
      as (tr & s' & snaps & w' & Hrun' & _ & _ & Hcalls & _ & Hfin & Hrep) end.
  { cbn. rewrite length_app; cbn. lia. }
  rewrite Hrun' in Hrun. injection Hrun as <- <- <-.
  rewrite Hfin. unfold callsSince. rewrite Hcalls, drop_app_length.
  rewrite <- (length_eofCounts tr 0 0), <- (Forall2_length _ _ _ Hrep).
  unfold finalizations; cbn. rewrite lookup_snoc_new. reflexivity.
Qed.

(** C1, as amended.  The unary client, unary server and streaming server
    interceptors finalize the span of a call exactly once, whatever the
    wrapped invoker or handler returns.  The streaming client interceptor
    returns without finalizing the span of a stream it has opened; the
    span is then finalized exactly once if exactly one [RecvMsg] on the
    proxy returns the end-of-stream signal, and not at all if none
    does. *)
Theorem span_finalization :
  (forall tracer ctx method req reply invoker w,
     length (finalizations (length (spans w))
       (snd (tracingUnaryClientInterceptor tracer ctx method req reply invoker w))) = 1%nat) /\
  (forall host tracer ctx req FullMethod handler w,
     length (finalizations (length (spans w))
       (snd (tracingUnaryServerInterceptor host tracer ctx req FullMethod handler w))) = 1%nat) /\
  (forall (S : Type) (SS : ServerStream S) host tracer srv (ss : S) FullMethod handler w,
     length (finalizations (length (spans w))
       (snd (tracingStreamServerInterceptor host tracer srv ss FullMethod handler w))) = 1%nat) /\
  (forall (S : Type) (CS : ClientStream S) tracer ctx desc method (streamer : Streamer S) w
          p csi err w1 panicked csi' w2,
     tracingStreamClientInterceptor tracer ctx desc method streamer w = (csi, err, w1) ->
     is_Some (csi_cs csi) ->
     runClient p csi w1 = (panicked, csi', w2) ->
     csi_span csi = length (spans w) /\
     finalizations (csi_span csi) w1 = [] /\
     (countCalls isEOF (callsSince w1 w2) = 1%nat ->
      length (finalizations (csi_span csi) w2) = 1%nat) /\
     (countCalls isEOF (callsSince w1 w2) = 0%nat ->
      finalizations (csi_span csi) w2 = [])).
Proof.
  split; [|split; [|split]].
  - intros. rewrite unary_client_run. unfold finalizations; cbn.
    rewrite lookup_snoc_new. reflexivity.
  - intros. rewrite unary_server_run. unfold finalizations; cbn.
    rewrite lookup_snoc_new. reflexivity.
  - intros.
    destruct (stream_server_run host tracer srv ss FullMethod handler w)
      as (herr & tr & s & _ & ->).
    unfold finalizations; cbn. rewrite lookup_snoc_new. reflexivity.
  - intros S CS tracer ctx desc method streamer w p csi err w1 panicked csi' w2 Hopen Hcs Hrun.
    destruct (client_stream_finalizations S CS tracer ctx desc method streamer w p csi err w1
                panicked csi' w2 Hopen Hcs Hrun) as (Hspan & Hnone & Hlen).
    split; [exact Hspan|]. split; [exact Hnone|]. split; intros Hcount.
    + rewrite Hlen. exact Hcount.
    + apply length_zero_iff_nil. rewrite Hlen. exact Hcount.
Qed.

(** C1 as stated does not hold for client streams.  A stream is opened and
    then fails: the first [RecvMsg] returns an error, the caller's receive
    loop stops there, and the span has not been finalized. *)
Lemma span_finalization_counterexample :
  let r := tracingStreamClientInterceptor sampleTracer background "desc" "Watch"
             (opening failedStream) emptyWorld in
  let r2 := runClient (recvLoop 5) (fst (fst r)) (snd r) in
  snd (fst r) = None /\
  callsSince (snd r) (snd r2) = [RecvMsgCall "" (Some (errorsNew "unavailable"))] /\
  length (finalizations (csi_span (fst (fst r))) (snd r2)) = 0%nat /\
  length (finalizations (csi_span (fst (fst r))) (snd r2)) <> 1%nat.
Proof. repeat split; vm_compute; (reflexivity || discriminate). Qed.

(** A caller that sends once and receives until the stream ends: one
    [RecvMsg] returns the end-of-stream signal and the span is finalized
    once. *)
Lemma span_finalization_witness :
  let r := tracingStreamClientInterceptor sampleTracer background "desc" "Watch"
             (opening (mkScripted [None; None] [] background)) emptyWorld in
  let r2 := runClient (sendThen 1 (recvLoop 5)) (fst (fst r)) (snd r) in
  is_Some (csi_cs (fst (fst r))) /\
  countCalls isEOF (callsSince (snd r) (snd r2)) = 1%nat /\
  length (finalizations (csi_span (fst (fst r))) (snd r2)) = 1%nat.
Proof.
  intros r r2.
  assert (Hopened : is_Some (csi_cs (fst (fst r)))) by (eexists; vm_compute; reflexivity).
  assert (Hone : countCalls isEOF (callsSince (snd r) (snd r2)) = 1%nat)
    by (vm_compute; reflexivity).
  split; [exact Hopened|]. split; [exact Hone|].
  refine (proj1 (proj2 (proj2 (proj2 (proj2 (proj2 span_finalization)) scripted _ sampleTracer
    background "desc" "Watch" (opening (mkScripted [None; None] [] background)) emptyWorld
    (sendThen 1 (recvLoop 5)) (fst (fst r)) (snd (fst r)) (snd r)
    (fst (fst r2)) (snd (fst r2)) (snd r2) _ Hopened _))) Hone).
  - vm_compute; reflexivity.
  - vm_compute; reflexivity.
Defined.

Example client_stream_drained_twice :
  let r := tracingStreamClientInterceptor sampleTracer background "desc" "Watch"
             (opening endedStream) emptyWorld in
  let r2 := runClient (recvTimes 2) (fst (fst r)) (snd r) in
  callsSince (snd r) (snd r2) = [RecvMsgCall "" (Some io_EOF); RecvMsgCall "" (Some io_EOF)] /\
  length (finalizations (csi_span (fst (fst r))) (snd r2)) = 2%nat.
Proof. repeat split; vm_compute; reflexivity. Qed.

(** ** C2: a stream that fails to open *)

Lemma runClient_nil {S : Type} `{ClientStream S} (p : clientProg) span done i o w :
  snd (runClient p (mkClientStreamInterceptor None span done i o) w) = w.
Proof. destruct p; reflexivity. Qed.

(** C2 fails on the code: when the streamer returns an error, the
    streaming client interceptor logs it and tags the span as errored, but
    returns without running the completion callback; the proxy it returns
    wraps a nil stream, on which every call panics, so that nothing the
    caller does with it finalizes the span either. *)
Theorem stream_client_open_failure (S : Type) (CS : ClientStream S)
    tracer ctx desc method (e : error) w (p : clientProg) :
  let '(csi, err, w1) :=
    tracingStreamClientInterceptor tracer ctx desc method (refusing e) w in
  err = Some e /\
  csi_span csi = length (spans w) /\
  callInfo method e ∈ logsSince w w1 /\
  spanTags (csi_span csi) w1 !! "error" = Some (TagBool true) /\
  finalizations (csi_span csi) w1 = [] /\
  finalizations (csi_span csi) (snd (runClient p csi w1)) = [].
Proof.
  rewrite stream_client_run. cbv zeta. unfold refusing. world_simpl.
  rewrite runClient_nil.
  unfold spanTags, finalizations, logsSince. world_simpl.
  rewrite lookup_snoc_new, drop_app_length. world_simpl.
  repeat split; try reflexivity.
  apply elem_of_app. right. apply list_elem_of_singleton. reflexivity.
Qed.

(** The same on a concrete call: the streamer refuses the connection. *)
Example stream_client_open_failure_run :
  let '(csi, err, w1) :=
    tracingStreamClientInterceptor sampleTracer background "desc" "Watch"
      (@refusing scripted (errorsNew "connection refused")) emptyWorld in
  err = Some (errorsNew "connection refused") /\
  length (finalizations (csi_span csi) w1) = 0%nat /\
  fst (fst (runClient (recvLoop 5) csi w1)) = true.
Proof. vm_compute. repeat split. Qed.

(** ** C3 and C10: the counts a finalized span reports *)

Lemma eofCounts_first pre m post i o :
  countCalls isEOF pre = 0%nat ->
  eofCounts (pre ++ RecvMsgCall m (Some io_EOF) :: post) i o =
  (Nat.iter (countCalls isRecvNotEOF pre) incr i, Nat.iter (countCalls isSend pre) incr o)
    :: eofCounts post (Nat.iter (countCalls isRecvNotEOF pre) incr i)
                      (Nat.iter (countCalls isSend pre) incr o).
Proof.
  revert i o. induction pre as [|c pre IH]; intros i o Hno.
  - cbn. destruct (decide (Some io_EOF = Some io_EOF)); [reflexivity|contradiction].
  - cbn [countCalls] in Hno.
    destruct c; cbn [app eofCounts]; cbn [isEOF] in Hno;
      try (rewrite (countCalls_skipped isRecvNotEOF) by reflexivity);
      try (rewrite (countCalls_skipped isSend) by reflexivity);
      try (apply IH; exact Hno).
    + rewrite (iter_countCalls_counted isSend) by reflexivity. apply IH. exact Hno.
    + destruct (decide (res = Some io_EOF)) as [->|Hne].
      * rewrite bool_decide_true in Hno by reflexivity. discriminate.
      * rewrite (bool_decide_false _ Hne) in Hno.
        rewrite (iter_countCalls_counted isRecvNotEOF) by (apply isRecvNotEOF_other, Hne).
        apply IH. exact Hno.
Qed.

Lemma countCalls_isRecvNotEOF tr :
  countCalls isEOF tr = 0%nat -> countCalls isRecvNotEOF tr = countCalls isRecv tr.
Proof.
  induction tr as [|c tr IH]; intros Hno; [reflexivity|].
  cbn [countCalls] in *. unfold isRecvNotEOF at 1.
  destruct (isEOF c); [discriminate|]. rewrite IH by exact Hno.
  rewrite andb_true_r. reflexivity.
Qed.

(** The first snapshot of the span of an opened client stream reports the
    counters as they were at the first end-of-stream signal. *)
Lemma client_first_snapshot (S : Type) (CS : ClientStream S) tracer ctx desc method
    (streamer : Streamer S) w p csi err w1 panicked csi' w2 pre m post :
  tracingStreamClientInterceptor tracer ctx desc method streamer w = (csi, err, w1) ->
  is_Some (csi_cs csi) ->
  runClient p csi w1 = (panicked, csi', w2) ->
  callsSince w1 w2 = pre ++ RecvMsgCall m (Some io_EOF) :: post ->
  countCalls isEOF pre = 0%nat ->
  exists snap,
    finalizations (csi_span csi) w2 !! 0%nat = Some snap /\
    reports snap (Nat.iter (countCalls isRecv pre) incr 0,
                  Nat.iter (countCalls isSend pre) incr 0).
Proof.
  intros Hopen Hcs Hrun Htr Hno.
  rewrite stream_client_run in Hopen. cbv zeta in Hopen.
  injection Hopen as <- <- <-. cbn in Hcs |- *.
  destruct Hcs as [s Hs]. rewrite Hs in Hrun.
  match type of Hrun with runClient _ _ ?w0 = _ =>
    destruct (runClient_spec p s (length (spans w)) 0 0 w0)
      as (tr & s' & snaps & w' & Hrun' & _ & _ & Hcalls & _ & Hfin & Hrep) end.
  { cbn. rewrite length_app; cbn. lia. }
  rewrite Hrun' in Hrun. injection Hrun as <- <- <-.
  unfold callsSince in Htr. rewrite Hcalls, drop_app_length in Htr. subst tr.
  rewrite eofCounts_first in Hrep by exact Hno.
  rewrite countCalls_isRecvNotEOF in Hrep by exact Hno.
  inversion Hrep as [|snap io snaps' ios Hsnap Hrest]; subst.
  exists snap. split; [|exact Hsnap].
  rewrite Hfin. unfold finalizations; cbn. rewrite lookup_snoc_new. reflexivity.
Qed.

(** C3, as amended.  On a client stream opened by the interceptor, let the
    caller make N [SendMsg] calls and M [RecvMsg] calls that return
    anything but the end-of-stream signal (a message or an error) before
    the first [RecvMsg] that returns it; with N and M below 2^63, where
    the counters wrap, the span is then finalized with exactly N sent and
    M received. *)
Theorem client_stream_counts (S : Type) (CS : ClientStream S) tracer ctx desc method
    (streamer : Streamer S) w p csi err w1 panicked csi' w2 pre m post :
  tracingStreamClientInterceptor tracer ctx desc method streamer w = (csi, err, w1) ->
  is_Some (csi_cs csi) ->
  runClient p csi w1 = (panicked, csi', w2) ->
  callsSince w1 w2 = pre ++ RecvMsgCall m (Some io_EOF) :: post ->
  countCalls isEOF pre = 0%nat ->
  Z.of_nat (countCalls isSend pre) < 2 ^ 63 ->
  Z.of_nat (countCalls isRecv pre) < 2 ^ 63 ->
  exists snap,
    finalizations (csi_span csi) w2 !! 0%nat = Some snap /\
    snap !! "grpc.stream_sent" = Some (TagInt (Z.of_nat (countCalls isSend pre))) /\
    snap !! "grpc.stream_received" = Some (TagInt (Z.of_nat (countCalls isRecv pre))).
Proof.
  intros Hopen Hcs Hrun Htr Hno HN HM.
  destruct (client_first_snapshot S CS tracer ctx desc method streamer w p csi err w1
              panicked csi' w2 pre m post Hopen Hcs Hrun Htr Hno) as (snap & Hsnap & Hrec & Hsent).
  exists snap. rewrite !iter_incr_0 in * by exact HN || exact HM.
  cbn in Hrec, Hsent. auto.
Qed.

(** C3 as stated counts successful receives only; the code counts failed
    ones too.  On a stream that delivers two messages around a failed
    [RecvMsg], one send and two successful receives are reported as one
    sent and three received. *)
Lemma client_stream_counts_counterexample :
  let r := tracingStreamClientInterceptor sampleTracer background "desc" "Watch"
             (opening flakyStream) emptyWorld in
  let r2 := runClient (sendThen 1 (recvUntilEOF 9)) (fst (fst r)) (snd r) in
  callsSince (snd r) (snd r2) =
    [SendMsgCall "msg" None; RecvMsgCall "" None;
     RecvMsgCall "" (Some (errorsNew "unavailable")); RecvMsgCall "" None;
     RecvMsgCall "" (Some io_EOF)] /\
  countCalls isSend (callsSince (snd r) (snd r2)) = 1%nat /\
  countCalls isRecvOk (callsSince (snd r) (snd r2)) = 2%nat /\
  reported (csi_span (fst (fst r))) (snd r2) = [(Some (TagInt 3), Some (TagInt 1))].
Proof. repeat split; vm_compute; reflexivity. Qed.

(** One send, two messages and one failed receive before the stream ends
    are reported as one sent and three received. *)
Lemma client_stream_counts_witness :
  let r := tracingStreamClientInterceptor sampleTracer background "desc" "Watch"
             (opening flakyStream) emptyWorld in
  let r2 := runClient (sendThen 1 (recvUntilEOF 9)) (fst (fst r)) (snd r) in
  exists snap,
    finalizations (csi_span (fst (fst r))) (snd r2) !! 0%nat = Some snap /\
    snap !! "grpc.stream_sent" = Some (TagInt 1) /\
    snap !! "grpc.stream_received" = Some (TagInt 3).
Proof.
  intros r r2.
  refine (client_stream_counts scripted _ sampleTracer background "desc" "Watch"
    (opening flakyStream) emptyWorld (sendThen 1 (recvUntilEOF 9))
    (fst (fst r)) (snd (fst r)) (snd r) (fst (fst r2)) (snd (fst r2)) (snd r2)
    [SendMsgCall "msg" None; RecvMsgCall "" None;
     RecvMsgCall "" (Some (errorsNew "unavailable")); RecvMsgCall "" None]
    "" [] _ _ _ _ _ _ _).
  - vm_compute; reflexivity.
  - eexists. vm_compute; reflexivity.
  - vm_compute; reflexivity.
  - vm_compute; reflexivity.
  - vm_compute; reflexivity.
  - vm_compute; reflexivity.
  - vm_compute; reflexivity.
Defined.

(** ** C4: results pass through *)

(** C4.  Each interceptor returns what the wrapped code returned: the
    unary client interceptor the invoker's error (and the reply as the
    invoker left it), the unary server interceptor the handler's response
    and error, the streaming server interceptor the handler's error, and
    the streaming client interceptor the streamer's error next to a proxy
    around the streamer's stream.  The wrapped code is called once. *)
Theorem results_pass_through :
  (forall tracer ctx method req reply invoker w,
     let r := tracingUnaryClientInterceptor tracer ctx method req reply invoker w in
     exists ctx' w_call,
       callsSince w (snd r) = [InvokerCall ctx' method req] /\
       fst r = invoker ctx' method req reply w_call) /\
  (forall host tracer ctx req FullMethod handler w,
     let r := tracingUnaryServerInterceptor host tracer ctx req FullMethod handler w in
     exists ctx' w_call,
       callsSince w (snd r) = [HandlerCall ctx' req] /\
       fst r = handler ctx' req w_call) /\
  (forall (S : Type) (SS : ServerStream S) host tracer srv (ss : S) FullMethod handler w,
     let r := tracingStreamServerInterceptor host tracer srv ss FullMethod handler w in
     exists ssi w_call,
       ssi_ss ssi = ss /\
       head (callsSince w (snd r)) = Some (StreamHandlerCall srv) /\
       fst r = fst (fst (runServer (handler srv) ssi w_call))) /\
  (forall (S : Type) (CS : ClientStream S) tracer ctx desc method (streamer : Streamer S) w,
     let r := tracingStreamClientInterceptor tracer ctx desc method streamer w in
     exists ctx' w_call,
       callsSince w (snd r) = [StreamerCall ctx' method] /\
       streamer ctx' desc method w_call = (csi_cs (fst (fst r)), snd (fst r))).
Proof.
  split; [|split; [|split]].
  - intros. subst r. rewrite unary_client_run. cbv zeta.
    eexists _, _. unfold callsSince. world_simpl. rewrite drop_app_length.
    split; reflexivity.
  - intros. subst r. rewrite unary_server_run. cbv zeta.
    eexists _, _. unfold callsSince. world_simpl. rewrite drop_app_length.
    split; reflexivity.
  - intros. subst r.
    destruct (stream_server_run host tracer srv ss FullMethod handler w)
      as (herr & tr & s & Hrun & ->).
    eexists _, _. unfold callsSince. world_simpl. rewrite drop_app_length.
    split; [|split; [reflexivity|]]; [|rewrite Hrun; reflexivity]. reflexivity.
  - intros. subst r. rewrite stream_client_run. cbv zeta.
    eexists _, _. unfold callsSince. world_simpl. rewrite drop_app_length.
    split; [reflexivity|]. apply surjective_pairing.
Qed.

(** ** C5: the caller's metadata is copied, not changed *)

(** C5.  When the context of a client call carries metadata, the map the
    caller supplied is the same after the call; the invoker (or streamer)
    is called with a context that refers to another map, which holds the
    caller's entries with the injected trace keys appended. *)
Theorem metadata_copied :
  (forall tracer ctx method req reply invoker w md m,
     ctxMD ctx = Some md ->
     mds w !! md = Some m ->
     let w' := snd (tracingUnaryClientInterceptor tracer ctx method req reply invoker w) in
     mds w' !! md = Some m /\
     exists ctx' md',
       callsSince w w' = [InvokerCall ctx' method req] /\
       ctxMD ctx' = Some md' /\ md' <> md /\
       mds w' !! md' =
         Some (setAll (fst (Inject tracer (Span_Context (length (spans w))))) m)) /\
  (forall (S : Type) (CS : ClientStream S) tracer ctx desc method (streamer : Streamer S)
          w md m,
     ctxMD ctx = Some md ->
     mds w !! md = Some m ->
     let w' := snd (tracingStreamClientInterceptor tracer ctx desc method streamer w) in
     mds w' !! md = Some m /\
     exists ctx' md',
       callsSince w w' = [StreamerCall ctx' method] /\
       ctxMD ctx' = Some md' /\ md' <> md /\
       mds w' !! md' =
         Some (setAll (fst (Inject tracer (Span_Context (length (spans w))))) m)).
Proof.
  split.
  - intros tracer ctx method req reply invoker w md m Hctx Hmd w'. subst w'.
    rewrite unary_client_run. cbv zeta. unfold callsSince, metadataOf, contents, Span_Context.
    world_simpl. rewrite Hctx, Hmd, drop_app_length. world_simpl.
    pose proof (lookup_lt_Some _ _ _ Hmd) as Hlt.
    split; [rewrite lookup_app_l by exact Hlt; exact Hmd|].
    eexists _, _. split; [reflexivity|]. split; [reflexivity|].
    split; [lia|]. apply lookup_snoc_new.
  - intros S CS tracer ctx desc method streamer w md m Hctx Hmd w'. subst w'.
    rewrite stream_client_run. cbv zeta. unfold callsSince, metadataOf, contents, Span_Context.
    world_simpl. rewrite Hctx, Hmd, drop_app_length. world_simpl.
    pose proof (lookup_lt_Some _ _ _ Hmd) as Hlt.
    split; [rewrite lookup_app_l by exact Hlt; exact Hmd|].
    eexists _, _. split; [reflexivity|]. split; [reflexivity|].
    split; [lia|]. apply lookup_snoc_new.
Qed.

(** A call whose context carries [{user: [alice]}]: the map is left as it
    was, and the invoker sees a second map with the trace key added. *)
Lemma metadata_copied_witness :
  ctxMD withMetadata = Some 0%nat /\
  mds callerWorld !! 0%nat = Some {["user" := ["alice"]]} /\
  let w' := snd (tracingUnaryClientInterceptor sampleTracer withMetadata "Get" "req" ""
                   echoInvoker callerWorld) in
  mds w' !! 0%nat = Some {["user" := ["alice"]]} /\
  exists ctx' md',
    callsSince callerWorld w' = [InvokerCall ctx' "Get" "req"] /\
    ctxMD ctx' = Some md' /\ md' <> 0%nat /\
    mds w' !! md' =
      Some (setAll (fst (Inject sampleTracer (Span_Context (length (spans callerWorld)))))
                   {["user" := ["alice"]]}).
Proof.
  split; [reflexivity|]. split; [reflexivity|].
  apply (proj1 metadata_copied sampleTracer withMetadata "Get" "req" "" echoInvoker
           callerWorld 0%nat {["user" := ["alice"]]}); reflexivity.
Defined.

Example metadata_copy_run :
  let w' := snd (tracingUnaryClientInterceptor sampleTracer withMetadata "Get" "req" ""
                   echoInvoker callerWorld) in
  mds w' = [{["user" := ["alice"]]};
            <["trace-id" := ["7"]]> {["user" := ["alice"]]}].
Proof. vm_compute. reflexivity. Qed.

(** ** C7: no parent in the inbound metadata *)

(** C7.  When the tracer finds no parent context in the inbound metadata
    ([Extract] returns nil and [ErrSpanContextNotFound]), a server
    interceptor logs no warning, starts a root span named after the
    method, and calls the handler with a context that carries the span. *)
Theorem no_parent_root_span :
  (forall host tracer ctx req FullMethod handler w,
     Extract tracer (metadataOf ctx w) = (None, Some ErrSpanContextNotFound) ->
     let w' := snd (tracingUnaryServerInterceptor host tracer ctx req FullMethod handler w) in
     Forall (fun e => level e <> WARN) (logsSince w w') /\
     (exists span,
        spans w' !! length (spans w) = Some span /\
        parentContext span = None /\
        operationName span = "grpc:" +:+ FullMethod) /\
     exists ctx',
       callsSince w w' = [HandlerCall ctx' req] /\
       ctxSpan ctx' = Some (length (spans w))) /\
  (forall (S : Type) (SS : ServerStream S) host tracer srv (ss : S) FullMethod handler w,
     Extract tracer (metadataOf (ss_Context ss) w) = (None, Some ErrSpanContextNotFound) ->
     let w' := snd (tracingStreamServerInterceptor host tracer srv ss FullMethod handler w) in
     Forall (fun e => level e <> WARN) (logsSince w w') /\
     (exists span,
        spans w' !! length (spans w) = Some span /\
        parentContext span = None /\
        operationName span = "grpc:" +:+ FullMethod) /\
     head (callsSince w w') = Some (StreamHandlerCall srv)).
Proof.
  split.
  - intros host tracer ctx req FullMethod handler w Hnone w'. subst w'.
    rewrite unary_server_run. cbv zeta. rewrite Hnone.
    unfold logsSince, callsSince, extractWarnings. world_simpl.
    rewrite !drop_app_length, lookup_snoc_new.
    destruct (decide (ErrSpanContextNotFound = ErrSpanContextNotFound)); [|contradiction].
    split; [|split].
    + rewrite app_nil_l. destruct (snd (handler _ _ _)); world_simpl;
        repeat constructor; discriminate.
    + eexists. split; [reflexivity|]. split; reflexivity.
    + eexists. split; reflexivity.
  - intros S SS host tracer srv ss FullMethod handler w Hnone w'. subst w'.
    destruct (stream_server_run host tracer srv ss FullMethod handler w)
      as (herr & tr & s & _ & ->).
    rewrite Hnone.
    unfold logsSince, callsSince, extractWarnings. world_simpl.
    rewrite !drop_app_length, lookup_snoc_new.
    destruct (decide (ErrSpanContextNotFound = ErrSpanContextNotFound)); [|contradiction].
    split; [|split].
    + rewrite app_nil_l. destruct herr; world_simpl; repeat constructor; discriminate.
    + eexists. split; [reflexivity|]. split; reflexivity.
    + reflexivity.
Qed.

(** The spec's scenario: no inbound metadata, the handler fails with
    [boom]. *)
Lemma no_parent_root_span_witness :
  Extract sampleTracer (metadataOf background emptyWorld)
    = (None, Some ErrSpanContextNotFound) /\
  let w' := snd (tracingUnaryServerInterceptor "host-1" sampleTracer background "req"
                   "Method" failingHandler emptyWorld) in
  Forall (fun e => level e <> WARN) (logsSince emptyWorld w') /\
  (exists span,
     spans w' !! length (spans emptyWorld) = Some span /\
     parentContext span = None /\
     operationName span = "grpc:" +:+ "Method") /\
  exists ctx',
    callsSince emptyWorld w' = [HandlerCall ctx' "req"] /\
    ctxSpan ctx' = Some (length (spans emptyWorld)).
Proof.
  split; [reflexivity|].
  apply (proj1 no_parent_root_span "host-1" sampleTracer background "req" "Method"
           failingHandler emptyWorld).
  reflexivity.
Defined.

Example server_scenario_run :
  let r := tracingUnaryServerInterceptor "host-1" sampleTracer background "req"
             "Method" failingHandler emptyWorld in
  fst r = (None, Some (errorsNew "boom")) /\
  (operationName <$> spans (snd r)) = ["grpc:Method"] /\
  spanTags 0 (snd r) !! "error" = Some (TagBool true) /\
  spanTags 0 (snd r) !! "error_message" = Some (TagString "boom") /\
  length (finalizations 0 (snd r)) = 1%nat /\
  (level <$> logs (snd r)) = [INFO].
Proof. repeat split; vm_compute; reflexivity. Qed.

(** ** C8: a failed injection does not fail the call *)

(** C8.  When [Inject] returns an error, a client interceptor logs it as a
    warning, calls the invoker (or streamer) all the same, and returns
    what that returned. *)
Theorem inject_failure_not_fatal :
  (forall tracer ctx method req reply invoker w e,
     snd (Inject tracer (Span_Context (length (spans w)))) = Some e ->
     let r := tracingUnaryClientInterceptor tracer ctx method req reply invoker w in
     injectWarning e ∈ logsSince w (snd r) /\
     exists ctx' w_call,
       callsSince w (snd r) = [InvokerCall ctx' method req] /\
       fst r = invoker ctx' method req reply w_call) /\
  (forall (S : Type) (CS : ClientStream S) tracer ctx desc method (streamer : Streamer S) w e,
     snd (Inject tracer (Span_Context (length (spans w)))) = Some e ->
     let r := tracingStreamClientInterceptor tracer ctx desc method streamer w in
     injectWarning e ∈ logsSince w (snd r) /\
     exists ctx' w_call,
       callsSince w (snd r) = [StreamerCall ctx' method] /\
       streamer ctx' desc method w_call = (csi_cs (fst (fst r)), snd (fst r))).
Proof.
  split.
  - intros tracer ctx method req reply invoker w e Hinj r. subst r.
    rewrite unary_client_run. cbv zeta. unfold Span_Context in Hinj. rewrite Hinj.
    unfold logsSince, callsSince. world_simpl. rewrite !drop_app_length.
    split; [apply elem_of_cons; left; reflexivity|].
    eexists _, _. split; reflexivity.
  - intros S CS tracer ctx desc method streamer w e Hinj r. subst r.
    rewrite stream_client_run. cbv zeta. unfold Span_Context in Hinj. rewrite Hinj.
    unfold logsSince, callsSince. world_simpl. rewrite !drop_app_length.
    split; [apply elem_of_cons; left; reflexivity|].
    eexists _, _. split; [reflexivity|]. apply surjective_pairing.
Qed.

(** A tracer that cannot inject: the call goes through and succeeds. *)
Lemma inject_failure_not_fatal_witness :
  snd (Inject failingTracer (Span_Context (length (spans emptyWorld))))
    = Some (errorsNew "unsupported format") /\
  let r := tracingUnaryClientInterceptor failingTracer background "Get" "req" ""
             echoInvoker emptyWorld in
  injectWarning (errorsNew "unsupported format") ∈ logsSince emptyWorld (snd r) /\
  exists ctx' w_call,
    callsSince emptyWorld (snd r) = [InvokerCall ctx' "Get" "req"] /\
    fst r = echoInvoker ctx' "Get" "req" "" w_call.
Proof.
  split; [reflexivity|].
  apply (proj1 inject_failure_not_fatal failingTracer background "Get" "req" ""
           echoInvoker emptyWorld (errorsNew "unsupported format")).
  reflexivity.
Defined.

Example inject_failure_run :
  let r := tracingUnaryClientInterceptor failingTracer background "Get" "req" ""
             echoInvoker emptyWorld in
  fst r = ("req", None) /\
  logs (snd r) = [injectWarning (errorsNew "unsupported format")].
Proof. repeat split; vm_compute; reflexivity. Qed.

(** ** C9: the context of the server proxy *)

(** No method of the proxy changes the context it carries: every
    [Context()] call of a handler is answered with the context the proxy
    was made with. *)
Lemma contextsSeen_ctx {S : Type} `{ServerStream S} (p : serverProg) :
  forall (ssi : serverStreamInterceptor S) (w : world),
    Forall (fun c => c = ssi_ctx ssi) (contextsSeen p ssi w).
Proof.
  induction p as [err|md k IH|md k IH|k IH|m k IH|m k IH]; intros ssi w; cbn [contextsSeen].
  - constructor.
  - unfold serverStream_SendHeader.
    destruct (ss_SendHeader md (ssi_ss ssi)) as [r s1]. apply (IH r (ssi_with_ss ssi s1) w).
  - apply (IH (serverStream_SetTrailer md ssi) w).
  - constructor; [reflexivity|]. apply IH.
  - unfold serverStream_SendMsg; cbn [ssi_ss].
    destruct (ss_SendMsg m (ssi_ss ssi)) as [r s1].
    match goal with |- Forall _ (contextsSeen (k r) ?a ?b) => apply (IH r a b) end.
  - unfold serverStream_RecvMsg; cbn [ssi_ss].
    destruct (ss_RecvMsg m (ssi_ss ssi)) as [r s1].
    match goal with |- Forall _ (contextsSeen (k r) ?a ?b) => apply (IH r a b) end.
Qed.

(** C9.  The streaming server interceptor calls the handler once, with a
    proxy around the stream that carries the context derived by span
    start and [ContextWithSpan], and returns the error of that run of
    the handler; every [Context()] call the handler makes on the proxy,
    at whatever point, returns the derived context.  That context
    carries the new span, and so differs from the context of the wrapped
    stream, which cannot carry a span that did not exist yet. *)
Theorem server_stream_context (S : Type) (SS : ServerStream S) host tracer srv (ss : S)
    FullMethod (handler : StreamHandler) w :
  let r := tracingStreamServerInterceptor host tracer srv ss FullMethod handler w in
  let n := length (spans w) in
  let derived := derivedContext (ss_Context ss) ("grpc:" +:+ FullMethod)
                   (fst (Extract tracer (metadataOf (ss_Context ss) w))) w in
  let ssi := mkServerStreamInterceptor ss n (finishSpan n) 0 0 derived in
  exists w_call,
    callsSince w w_call = [StreamHandlerCall srv] /\
    fst r = fst (fst (runServer (handler srv) ssi w_call)) /\
    callsSince w (snd r) = callsSince w (snd (runServer (handler srv) ssi w_call)) /\
    serverStream_Context ssi = derived /\
    Forall (fun c => c = derived) (contextsSeen (handler srv) ssi w_call) /\
    ctxSpan derived = Some n /\
    (ctxSpan (ss_Context ss) <> Some n -> derived <> ss_Context ss).
Proof.
  intros r n derived ssi. subst r n derived ssi.
  change (derivedContext (ss_Context ss) ("grpc:" +:+ FullMethod)
            (fst (Extract tracer (metadataOf (ss_Context ss) w))) w)
    with (mkContext (ctxValues (ss_Context ss)) (ctxMD (ss_Context ss))
                    (Some (length (spans w))) (Some (length (spans w)))).
  pose proof (stream_server_run host tracer srv ss FullMethod handler w) as Hrun.
  cbv zeta in Hrun. destruct Hrun as (herr & tr & s & Hrun & ->).
  eexists. split; [|split; [|split; [|split; [|split; [|split]]]]].
  2: { rewrite Hrun. reflexivity. }
  - unfold callsSince. cbn [calls]. apply drop_app_length.
  - rewrite Hrun. reflexivity.
  - reflexivity.
  - match goal with |- Forall _ (contextsSeen ?p ?a ?b) => exact (contextsSeen_ctx p a b) end.
  - reflexivity.
  - intros Hfresh Heq. apply Hfresh. rewrite <- Heq. reflexivity.
Qed.

(** A handler that asks for its context first, on a stream whose own
    context carries no span: the one answer it gets is the derived
    context. *)
Lemma server_stream_context_witness :
  let ss := mkScripted [None] [] background in
  let r := tracingStreamServerInterceptor "host-1" sampleTracer "srv" ss "Watch" sampleHandler
             emptyWorld in
  let n := length (spans emptyWorld) in
  let derived := derivedContext (ss_Context ss) ("grpc:" +:+ "Watch")
                   (fst (Extract sampleTracer (metadataOf (ss_Context ss) emptyWorld)))
                   emptyWorld in
  let ssi := mkServerStreamInterceptor ss n (finishSpan n) 0 0 derived in
  ctxSpan (ss_Context ss) <> Some n /\
  derived <> ss_Context ss /\
  exists w_call,
    contextsSeen (sampleHandler "srv") ssi w_call = [derived] /\
    fst r = fst (fst (runServer (sampleHandler "srv") ssi w_call)).
Proof.
  intros ss r n derived ssi.
  assert (Hfresh : ctxSpan (ss_Context ss) <> Some n) by discriminate.
  split; [exact Hfresh|].
  destruct (server_stream_context scripted _ "host-1" sampleTracer "srv" ss "Watch"
              sampleHandler emptyWorld)
    as (w_call & _ & Hret & _ & _ & _ & _ & Hne).
  split; [exact (Hne Hfresh)|].
  exists w_call. split; [reflexivity|exact Hret].
Defined.

Example derived_context_run :
  derivedContext background "grpc:Watch" None emptyWorld
  = mkContext "background" None (Some 0%nat) (Some 0%nat).
Proof. reflexivity. Qed.

(** ** C10: what the receive counters count *)

(** C10.  The server proxy adds one to its received counter on every
    [RecvMsg], whatever the wrapped stream returns; the client proxy adds
    one on every [RecvMsg] that returns anything but [io.EOF], errors
    included.  The span of a server stream is finalized reporting the
    number of [RecvMsg] calls the handler made, and the span of a client
    stream reporting the number of [RecvMsg] calls made before the first
    end-of-stream signal (numbers below 2^63, where the counters wrap). *)
Theorem receive_counter_counts_invocations :
  (forall (S : Type) (SS : ServerStream S) m (ssi : serverStreamInterceptor S) w,
     ssi_inCount (snd (fst (serverStream_RecvMsg m ssi w))) = incr (ssi_inCount ssi)) /\
  (forall (S : Type) (CS : ClientStream S) m (csi : clientStreamInterceptor S) w s,
     csi_cs csi = Some s ->
     let r := clientStream_RecvMsg m csi w in
     fst (fst r) = Returned (fst (cs_RecvMsg m s)) /\
     csi_inCount (snd (fst r)) =
       if decide (fst (cs_RecvMsg m s) = Some io_EOF) then csi_inCount csi
       else incr (csi_inCount csi)) /\
  (forall (S : Type) (SS : ServerStream S) host tracer srv (ss : S) FullMethod handler w,
     let w' := snd (tracingStreamServerInterceptor host tracer srv ss FullMethod handler w) in
     let n := countCalls isRecv (callsSince w w') in
     Z.of_nat n < 2 ^ 63 ->
     exists snap,
       finalizations (length (spans w)) w' = [snap] /\
       snap !! "grpc.stream_received" = Some (TagInt (Z.of_nat n))) /\
  (forall (S : Type) (CS : ClientStream S) tracer ctx desc method (streamer : Streamer S) w
          p csi err w1 panicked csi' w2 pre m post,
     tracingStreamClientInterceptor tracer ctx desc method streamer w = (csi, err, w1) ->
     is_Some (csi_cs csi) ->
     runClient p csi w1 = (panicked, csi', w2) ->
     callsSince w1 w2 = pre ++ RecvMsgCall m (Some io_EOF) :: post ->
     countCalls isEOF pre = 0%nat ->
     Z.of_nat (countCalls isRecv pre) < 2 ^ 63 ->
     exists snap,
       finalizations (csi_span csi) w2 !! 0%nat = Some snap /\
       snap !! "grpc.stream_received" = Some (TagInt (Z.of_nat (countCalls isRecv pre)))).
Proof.
  split; [|split; [|split]].
  - intros. unfold serverStream_RecvMsg. cbn.
    destruct (ss_RecvMsg m (ssi_ss ssi)). reflexivity.
  - intros S CS m csi w s Hcs r. subst r. unfold clientStream_RecvMsg. rewrite Hcs.
    destruct (cs_RecvMsg m s) as [res s']. cbn [fst snd].
    destruct (decide (res = Some io_EOF)); split; reflexivity.
  - intros S SS host tracer srv ss FullMethod handler w w' n Hn. subst n w'.
    destruct (stream_server_run host tracer srv ss FullMethod handler w)
      as (herr & tr & s & _ & Heq).
    rewrite Heq in *. unfold callsSince in *. world_simpl. cbn [snd calls] in Hn.
    rewrite drop_app_length in *. cbn [countCalls isRecv] in *.
    rewrite Nat.add_0_l in *.
    eexists. unfold finalizations. world_simpl. rewrite lookup_snoc_new. world_simpl.
    split; [reflexivity|].
    unfold withCounts. rewrite lookup_insert_ne by discriminate. rewrite lookup_insert_eq.
    rewrite iter_incr_0 by exact Hn. reflexivity.
  - intros S CS tracer ctx desc method streamer w p csi err w1 panicked csi' w2 pre m post
      Hopen Hcs Hrun Htr Hno HM.
    destruct (client_first_snapshot S CS tracer ctx desc method streamer w p csi err w1
                panicked csi' w2 pre m post Hopen Hcs Hrun Htr Hno)
      as (snap & Hsnap & Hrec & _).
    exists snap. rewrite iter_incr_0 in Hrec by exact HM. auto.
Qed.

(** One failed [RecvMsg] on a client proxy; a handler that receives twice,
    the first time with an error; and a caller that sends once and
    receives four times, once with an error, until the stream ends. *)
Lemma receive_counter_counts_invocations_witness :
  (let csi := mkClientStreamInterceptor (Some failedStream) 0 (finishSpan 0) 0 0 in
   let r := clientStream_RecvMsg "" csi emptyWorld in
   csi_cs csi = Some failedStream /\
   fst (cs_RecvMsg "" failedStream) = Some (errorsNew "unavailable") /\
   fst (fst r) = Returned (fst (cs_RecvMsg "" failedStream)) /\
   csi_inCount (snd (fst r)) =
     if decide (fst (cs_RecvMsg "" failedStream) = Some io_EOF) then csi_inCount csi
     else incr (csi_inCount csi)) /\
  (let w' := snd (tracingStreamServerInterceptor "host-1" sampleTracer "srv" failedStream
                    "Watch" sampleHandler emptyWorld) in
   let n := countCalls isRecv (callsSince emptyWorld w') in
   n = 2%nat /\ Z.of_nat n < 2 ^ 63 /\
   exists snap,
     finalizations (length (spans emptyWorld)) w' = [snap] /\
     snap !! "grpc.stream_received" = Some (TagInt (Z.of_nat n))) /\
  (let r := tracingStreamClientInterceptor sampleTracer background "desc" "Watch"
              (opening flakyStream) emptyWorld in
   let r2 := runClient (sendThen 1 (recvUntilEOF 9)) (fst (fst r)) (snd r) in
   let pre := [SendMsgCall "msg" None; RecvMsgCall "" None;
               RecvMsgCall "" (Some (errorsNew "unavailable")); RecvMsgCall "" None] in
   countCalls isRecv pre = 3%nat /\
   exists snap,
     finalizations (csi_span (fst (fst r))) (snd r2) !! 0%nat = Some snap /\
     snap !! "grpc.stream_received" = Some (TagInt (Z.of_nat (countCalls isRecv pre)))).
Proof.
  split; [|split].
  - intros csi r. split; [reflexivity|]. split; [reflexivity|].
    apply (proj1 (proj2 receive_counter_counts_invocations) scripted _ "" csi emptyWorld
             failedStream).
    reflexivity.
  - intros w' n. split; [vm_compute; reflexivity|]. split; [vm_compute; reflexivity|].
    apply (proj1 (proj2 (proj2 receive_counter_counts_invocations)) scripted _ "host-1"
             sampleTracer "srv" failedStream "Watch" sampleHandler emptyWorld).
    vm_compute; reflexivity.
  - intros r r2 pre. split; [reflexivity|].
    refine (proj2 (proj2 (proj2 receive_counter_counts_invocations)) scripted _ sampleTracer
      background "desc" "Watch" (opening flakyStream) emptyWorld (sendThen 1 (recvUntilEOF 9))
      (fst (fst r)) (snd (fst r)) (snd r) (fst (fst r2)) (snd (fst r2)) (snd r2)
      pre "" [] _ _ _ _ _ _).
    + vm_compute; reflexivity.
    + eexists. vm_compute; reflexivity.
    + vm_compute; reflexivity.
    + vm_compute; reflexivity.
    + vm_compute; reflexivity.
    + vm_compute; reflexivity.
Defined.

Example server_stream_run :
  let w' := snd (tracingStreamServerInterceptor "host-1" sampleTracer "srv" failedStream
                   "Watch" sampleHandler emptyWorld) in
  callsSince emptyWorld w' =
    [StreamHandlerCall "srv"; RecvMsgCall "" (Some (errorsNew "unavailable"));
     RecvMsgCall "" (Some io_EOF); SendMsgCall "msg" None] /\
  reported 0 w' = [(Some (TagInt 2), Some (TagInt 1))].
Proof. repeat split; vm_compute; reflexivity. Qed.

(** ** C6: [ForeachKey] on metadata that does not decode *)

Section ForeachKeyFacts.
Variable DecodeKeyValue : string -> string -> (string * string) + error.
Context {H : Type}.

Lemma ForeachKey_values_pairs k vs rest (handler : @visitor H) h :
  ForeachPair DecodeKeyValue (map (pair k) vs ++ rest) handler h =
  match ForeachKey_values DecodeKeyValue k vs handler h with
  | inl returned => returned
  | inr h' => ForeachPair DecodeKeyValue rest handler h'
  end.
Proof.
  revert h. induction vs as [|v vs IH]; intros h; cbn; [reflexivity|].
  destruct (DecodeKeyValue k v) as [[rk rv]|err]; [|reflexivity].
  destruct (handler rk rv h) as [[err|] h']; [reflexivity|]. apply IH.
Qed.

(** The nested loops visit the pairs of the enumeration in order. *)
Lemma ForeachKey_pairs g (handler : @visitor H) h :
  ForeachKey DecodeKeyValue g handler h = ForeachPair DecodeKeyValue (pairsOf g) handler h.
Proof.
  revert h. induction g as [|[k vs] g IH]; intros h; cbn; [reflexivity|].
  rewrite ForeachKey_values_pairs.
  destruct (ForeachKey_values DecodeKeyValue k vs handler h); [reflexivity|]. apply IH.
Qed.

(** Pairs that decode and that the callback accepts as it is called on
    them: the loop passes them, each once and in order, and goes on with
    the rest. *)
Lemma ForeachPair_accepted pre (handler : @visitor H) :
  Forall (fun kv => exists p, DecodeKeyValue (fst kv) (snd kv) = inl p) pre ->
  forall h h1 visited rest,
  accepted handler (decodedPairs DecodeKeyValue pre) h = Some h1 ->
  ForeachPair DecodeKeyValue (pre ++ rest) (recording handler) (h, visited) =
  ForeachPair DecodeKeyValue rest (recording handler)
              (h1, visited ++ decodedPairs DecodeKeyValue pre).
Proof.
  intros Hpre. induction Hpre as [|[k0 v0] pre [[rk rv] Hdec] Hpre IH];
    intros h h1 visited rest Hacc.
  - cbn in Hacc. injection Hacc as <-. cbn. rewrite app_nil_r. reflexivity.
  - cbn in Hdec. cbn [app ForeachPair decodedPairs omap list_omap fst snd] in *.
    rewrite Hdec in *. cbn [accepted] in Hacc. unfold recording at 1. cbn [fst snd].
    destruct (handler rk rv h) as [[err|] h0]; [discriminate|].
    rewrite (IH h0 h1 (visited ++ [(rk, rv)]) rest Hacc), <- app_assoc. reflexivity.
Qed.

(** The loop at a pair that does not decode, and at a pair that the
    callback refuses. *)
Lemma ForeachPair_undecodable k v post e (handler : @visitor H) st :
  DecodeKeyValue k v = inr e ->
  ForeachPair DecodeKeyValue ((k, v) :: post) handler st = (Some e, st).
Proof. intros Hbad. cbn. rewrite Hbad. reflexivity. Qed.

Lemma ForeachPair_refused k v rk rv post e (handler : @visitor H) h h2 visited :
  DecodeKeyValue k v = inl (rk, rv) ->
  handler rk rv h = (Some e, h2) ->
  ForeachPair DecodeKeyValue ((k, v) :: post) (recording handler) (h, visited) =
  (Some e, (h2, visited ++ [(rk, rv)])).
Proof.
  intros Hdec Hrefused. cbn. rewrite Hdec. unfold recording. cbn [fst snd].
  rewrite Hrefused. reflexivity.
Qed.
End ForeachKeyFacts.

(** C6, as amended.  Take a metadata map, in whatever order [range] yields
    its entries, with a pair that does not decode, and a callback whose
    answers may depend on what it has seen before.  If the callback
    returns nil on each of its calls for the pairs before the first such
    pair, [ForeachKey] returns the decode error, having called the
    callback exactly once, in order, for each pair before it and for no
    pair after it.  If instead the callback returns an error on its call
    for an earlier pair, having returned nil until then, [ForeachKey]
    returns that error, and the callback has been called once for each
    pair up to that one and for none after it. *)
Theorem ForeachKey_stops_at_decode_failure
    (DecodeKeyValue : string -> string -> (string * string) + error) (H : Type)
    (handler : @visitor H) (h : H) (m : gmap string (list string)) g pre k v post e :
  rangeOf m g ->
  pairsOf g = pre ++ (k, v) :: post ->
  Forall (fun kv => exists p, DecodeKeyValue (fst kv) (snd kv) = inl p) pre ->
  DecodeKeyValue k v = inr e ->
  (forall h1,
     accepted handler (decodedPairs DecodeKeyValue pre) h = Some h1 ->
     ForeachKey DecodeKeyValue g (recording handler) (h, []) =
       (Some e, (h1, decodedPairs DecodeKeyValue pre))) /\
  (forall pre1 k1 v1 pre2 rk rv h1 h2 e1,
     pre = pre1 ++ (k1, v1) :: pre2 ->
     accepted handler (decodedPairs DecodeKeyValue pre1) h = Some h1 ->
     DecodeKeyValue k1 v1 = inl (rk, rv) ->
     handler rk rv h1 = (Some e1, h2) ->
     ForeachKey DecodeKeyValue g (recording handler) (h, []) =
       (Some e1, (h2, decodedPairs DecodeKeyValue pre1 ++ [(rk, rv)]))).
Proof.
  intros _ Hsplit Hpre Hbad. rewrite ForeachKey_pairs, Hsplit. split.
  - intros h1 Hacc.
    rewrite (ForeachPair_accepted DecodeKeyValue pre handler Hpre h h1 [] _ Hacc).
    apply ForeachPair_undecodable. exact Hbad.
  - intros pre1 k1 v1 pre2 rk rv h1 h2 e1 -> Hacc Hdec Hrefused.
    apply Forall_app in Hpre as [Hpre1 _].
    rewrite <- app_assoc.
    rewrite (ForeachPair_accepted DecodeKeyValue pre1 handler Hpre1 h h1 [] _ Hacc).
    apply (ForeachPair_refused DecodeKeyValue k1 v1 rk rv _ e1 handler h1 h2 _ Hdec Hrefused).
Qed.

(** C6 as stated fails when the callback gives up first: the second value
    of the key does not decode, but the callback refuses the first, and
    [ForeachKey] returns the callback's error. *)
Lemma ForeachKey_counterexample :
  let m : gmap string (list string) := {["k-bin" := ["aGk="; "!!!"]]} in
  let g := [("k-bin", ["aGk="; "!!!"])] in
  rangeOf m g /\
  grpcDecodeKeyValue "k-bin" "aGk=" = inl ("k-bin", "hi") /\
  grpcDecodeKeyValue "k-bin" "!!!" = inr (CorruptInputError 0) /\
  ForeachKey grpcDecodeKeyValue g (recording refuseAll) (tt, [])
    = (Some (errorsNew "stop"), (tt, [("k-bin", "hi")])).
Proof.
  intros m g. split; [|repeat split; vm_compute; reflexivity].
  unfold rangeOf, m, g. rewrite map_to_list_singleton. reflexivity.
Qed.

(** Two keys, the second with a value that is not base64 between two that
    are.  A callback that gives up at its third call is not called a
    third time, and the decode error is returned; one that gives up at
    its second call ends the iteration itself. *)
Lemma ForeachKey_stops_at_decode_failure_witness :
  let m : gmap string (list string) :=
    {["trace-id" := ["7"]; "k-bin" := ["aGk="; "!!!"; "aGk="]]} in
  let g := [("trace-id", ["7"]); ("k-bin", ["aGk="; "!!!"; "aGk="])] in
  rangeOf m g /\
  ForeachKey grpcDecodeKeyValue g (recording (refuseFrom 3)) (0%nat, []) =
    (Some (CorruptInputError 0),
     (2%nat, decodedPairs grpcDecodeKeyValue [("trace-id", "7"); ("k-bin", "aGk=")])) /\
  ForeachKey grpcDecodeKeyValue g (recording (refuseFrom 2)) (0%nat, []) =
    (Some (errorsNew "enough"),
     (2%nat, decodedPairs grpcDecodeKeyValue [("trace-id", "7")] ++ [("k-bin", "hi")])).
Proof.
  intros m g.
  assert (Hrange : rangeOf m g).
  { unfold rangeOf, m, g. vm_compute. first [reflexivity | apply perm_swap]. }
  assert (Hsplit : pairsOf g =
            [("trace-id", "7"); ("k-bin", "aGk=")] ++ ("k-bin", "!!!") :: [("k-bin", "aGk=")])
    by reflexivity.
  assert (Hpre : Forall (fun kv => exists p, grpcDecodeKeyValue (fst kv) (snd kv) = inl p)
                        [("trace-id", "7"); ("k-bin", "aGk=")])
    by (repeat constructor; eexists; vm_compute; reflexivity).
  assert (Hbad : grpcDecodeKeyValue "k-bin" "!!!" = inr (CorruptInputError 0))
    by (vm_compute; reflexivity).
  split; [exact Hrange|]. split.
  - apply (proj1 (ForeachKey_stops_at_decode_failure grpcDecodeKeyValue nat (refuseFrom 3)
                    0%nat m g _ "k-bin" "!!!" _ _ Hrange Hsplit Hpre Hbad)).
    vm_compute. reflexivity.
  - apply (proj2 (ForeachKey_stops_at_decode_failure grpcDecodeKeyValue nat (refuseFrom 2)
                    0%nat m g _ "k-bin" "!!!" _ _ Hrange Hsplit Hpre Hbad)
             [("trace-id", "7")] "k-bin" "aGk=" [] "k-bin" "hi" 1%nat).
    + reflexivity.
    + vm_compute. reflexivity.
    + vm_compute. reflexivity.
    + vm_compute. reflexivity.
Defined.

Example ForeachKey_run :
  ForeachKey grpcDecodeKeyValue
    [("trace-id", ["7"]); ("k-bin", ["aGk="; "!!!"; "aGk="])] (recording acceptAll) (tt, [])
  = (Some (CorruptInputError 0), (tt, [("trace-id", "7"); ("k-bin", "hi")])).
Proof. vm_compute. reflexivity. Qed.

Example ForeachKey_all_decoded :
  ForeachKey grpcDecodeKeyValue
    [("trace-id", ["7"]); ("k-bin", ["aGk="])] (recording acceptAll) (tt, [])
  = (None, (tt, [("trace-id", "7"); ("k-bin", "hi")])).
Proof. vm_compute. reflexivity. Qed.

(** With no inbound metadata the carrier has nothing to show a tracer:
    the visitor is never called. *)
Lemma ForeachKey_empty (DecodeKeyValue : string -> string -> (string * string) + error)
    (H : Type) (handler : @visitor H) (h : H) g :
  rangeOf ∅ g -> ForeachKey DecodeKeyValue g (recording handler) (h, []) = (None, (h, [])).
Proof.
  unfold rangeOf. rewrite map_to_list_empty. intros Hg.
  apply Permutation_nil_r in Hg. subst g. reflexivity.
Qed.

(** * Further properties of the carrier adapter *)

(** An enumeration of a map has each key once. *)
Lemma rangeOf_NoDup m g : rangeOf m g -> NoDup (fst <$> g).
Proof.
  unfold rangeOf. intros Hg. rewrite Hg. apply NoDup_fst_map_to_list.
Qed.

Lemma rangeOf_elem_of m g k vs : rangeOf m g -> (k, vs) ∈ g <-> m !! k = Some vs.
Proof.
  unfold rangeOf. intros Hg. rewrite Hg. apply elem_of_map_to_list.
Qed.

Lemma filter_key_same (k : string) (vs : list string) :
  filter (fun kv : string * string => fst kv = k) (map (pair k) vs) = pair k <$> vs.
Proof.
  induction vs as [|v vs IH]; [reflexivity|].
  change (map (pair k) (v :: vs)) with ((k, v) :: map (pair k) vs).
  rewrite filter_cons_True by reflexivity. rewrite IH. reflexivity.
Qed.

Lemma filter_key_other (k k0 : string) (vs : list string) :
  k0 <> k -> filter (fun kv : string * string => fst kv = k) (map (pair k0) vs) = [].
Proof.
  intros Hne. induction vs as [|v vs IH]; [reflexivity|].
  change (map (pair k0) (v :: vs)) with ((k0, v) :: map (pair k0) vs).
  rewrite filter_cons_False by (cbn; congruence). exact IH.
Qed.

Lemma pairsOf_cons k vs g : pairsOf ((k, vs) :: g) = map (pair k) vs ++ pairsOf g.
Proof. reflexivity. Qed.

Lemma filter_key_absent (k : string) g :
  k ∉ fst <$> g -> filter (fun kv : string * string => fst kv = k) (pairsOf g) = [].
Proof.
  induction g as [|[k1 vs1] g IH]; intros Hnotin; [reflexivity|].
  rewrite pairsOf_cons, filter_app.
  rewrite fmap_cons in Hnotin. apply not_elem_of_cons in Hnotin as [Hne Hnotin].
  rewrite filter_key_other by (cbn in Hne; congruence).
  apply IH, Hnotin.
Qed.

(** The pairs of one key in an enumeration without repeated keys are the
    values of that key, in the order of the slice. *)
Lemma pairsOf_key g k vs :
  NoDup (fst <$> g) -> (k, vs) ∈ g ->
  filter (fun kv => fst kv = k) (pairsOf g) = pair k <$> vs.
Proof.
  induction g as [|[k0 vs0] g IH]; intros Hnd Hin.
  - inversion Hin.
  - rewrite fmap_cons in Hnd. apply NoDup_cons in Hnd as [Hnotin Hnd].
    rewrite pairsOf_cons, filter_app.
    apply elem_of_cons in Hin as [Heq|Hin].
    + injection Heq as <- <-.
      rewrite filter_key_same, filter_key_absent by exact Hnotin.
      apply app_nil_r.
    + assert (Hne : k0 <> k).
      { intros ->. apply Hnotin. apply list_elem_of_fmap.
        exists (k, vs). split; [reflexivity|exact Hin]. }
      rewrite filter_key_other by exact Hne. apply IH; assumption.
Qed.

(** X1.  When every pair of the metadata decodes and the callback returns
    nil on each of its calls, [ForeachKey] returns nil after calling the
    callback exactly once for every value of every key, in ranging
    order: as many calls as the map holds values.  The callback's
    answers may depend on what it has seen before. *)
Theorem ForeachKey_visits_all
    (DecodeKeyValue : string -> string -> (string * string) + error) (H : Type)
    (handler : @visitor H) (h h1 : H) (m : gmap string (list string)) g :
  rangeOf m g ->
  Forall (fun kv => exists p, DecodeKeyValue (fst kv) (snd kv) = inl p) (pairsOf g) ->
  accepted handler (decodedPairs DecodeKeyValue (pairsOf g)) h = Some h1 ->
  ForeachKey DecodeKeyValue g (recording handler) (h, []) =
    (None, (h1, decodedPairs DecodeKeyValue (pairsOf g))) /\
  length (decodedPairs DecodeKeyValue (pairsOf g)) =
    sum_list_with (fun kv => length (snd kv)) (map_to_list m).
Proof.
  intros Hrange Hdec Hacc. split.
  - rewrite ForeachKey_pairs.
    rewrite <- (app_nil_r (pairsOf g)) at 1.
    rewrite (ForeachPair_accepted DecodeKeyValue (pairsOf g) handler Hdec h h1 [] [] Hacc).
    reflexivity.
  - unfold rangeOf in Hrange. rewrite <- Hrange.
    clear -Hdec. induction g as [|[k vs] g IH]; [reflexivity|].
    rewrite pairsOf_cons in *. apply Forall_app in Hdec as [Hvs Hg].
    unfold decodedPairs in *. rewrite omap_app, length_app, IH by exact Hg.
    cbn [sum_list_with snd]. f_equal.
    clear -Hvs. induction vs as [|v vs IH]; [reflexivity|].
    cbn in Hvs. apply Forall_cons in Hvs as [[p Hp] Hvs]. cbn in Hp.
    cbn. rewrite Hp. cbn. f_equal. apply IH, Hvs.
Qed.

(** A callback that would give up at its fourth call is called three
    times for three values. *)
Lemma ForeachKey_visits_all_witness :
  let m : gmap string (list string) :=
    {["trace-id" := ["7"]; "k-bin" := ["aGk="; "aGk="]]} in
  let g := [("k-bin", ["aGk="; "aGk="]); ("trace-id", ["7"])] in
  rangeOf m g /\
  ForeachKey grpcDecodeKeyValue g (recording (refuseFrom 4)) (0%nat, []) =
    (None, (3%nat, decodedPairs grpcDecodeKeyValue (pairsOf g))) /\
  length (decodedPairs grpcDecodeKeyValue (pairsOf g)) =
    sum_list_with (fun kv => length (snd kv)) (map_to_list m).
Proof.
  intros m g.
  assert (Hrange : rangeOf m g).
  { unfold rangeOf, m, g. vm_compute. first [reflexivity | apply perm_swap]. }
  split; [exact Hrange|].
  apply (ForeachKey_visits_all grpcDecodeKeyValue nat (refuseFrom 4) 0%nat 3%nat m g Hrange).
  - repeat constructor; eexists; vm_compute; reflexivity.
  - vm_compute. reflexivity.
Defined.

(** X2.  When the callback returns an error on its call for a pair,
    having returned nil on its calls for the pairs before it, which all
    decode, [ForeachKey] stops there and returns the callback's error:
    the callback has been called once for each pair up to and including
    that one, and for none after it.  [g] is the order in which the
    metadata is ranged over; the callback's answers may depend on what
    it has seen before, so that it can refuse a pair it accepted
    earlier. *)
Theorem ForeachKey_stops_at_callback_error
    (DecodeKeyValue : string -> string -> (string * string) + error) (H : Type)
    (handler : @visitor H) (h h1 h2 : H) g pre k v rk rv post e :
  pairsOf g = pre ++ (k, v) :: post ->
  Forall (fun kv => exists p, DecodeKeyValue (fst kv) (snd kv) = inl p) pre ->
  accepted handler (decodedPairs DecodeKeyValue pre) h = Some h1 ->
  DecodeKeyValue k v = inl (rk, rv) ->
  handler rk rv h1 = (Some e, h2) ->
  ForeachKey DecodeKeyValue g (recording handler) (h, []) =
    (Some e, (h2, decodedPairs DecodeKeyValue pre ++ [(rk, rv)])).
Proof.
  intros Hsplit Hpre Hacc Hkv Hrefused.
  rewrite ForeachKey_pairs, Hsplit.
  rewrite (ForeachPair_accepted DecodeKeyValue pre handler Hpre h h1 [] _ Hacc).
  apply (ForeachPair_refused DecodeKeyValue k v rk rv post e handler h1 h2 _ Hkv Hrefused).
Qed.

(** The same value three times under one key: the callback accepts it
    twice and refuses it the third time. *)
Lemma ForeachKey_stops_at_callback_error_witness :
  let g := [("user", ["a"; "a"; "a"; "b"])] in
  ForeachKey grpcDecodeKeyValue g (recording (refuseFrom 3)) (0%nat, []) =
    (Some (errorsNew "enough"),
     (3%nat, decodedPairs grpcDecodeKeyValue [("user", "a"); ("user", "a")] ++ [("user", "a")])).
Proof.
  intros g.
  apply (ForeachKey_stops_at_callback_error grpcDecodeKeyValue nat (refuseFrom 3)
           0%nat 2%nat 3%nat g [("user", "a"); ("user", "a")] "user" "a" "user" "a"
           [("user", "b")] (errorsNew "enough")).
  - reflexivity.
  - repeat constructor; eexists; vm_compute; reflexivity.
  - vm_compute. reflexivity.
  - vm_compute. reflexivity.
  - vm_compute. reflexivity.
Defined.

(** X3.  After [Set(key, val)] on a carrier, whatever the order in which
    the map is ranged over, the pairs of [key] are its earlier values in
    their order followed by [val], and the pairs of every other key are
    what they were. *)
Theorem Set_appends_in_order (md : nat) (key val : string) (w : world)
    (m : gmap string (list string)) g :
  mds w !! md = Some m ->
  rangeOf (contents md (grpcTraceMD_Set md key val w)) g ->
  filter (fun kv => fst kv = key) (pairsOf g) = pair key <$> (default [] (m !! key) ++ [val]) /\
  (forall k, k <> key ->
     filter (fun kv => fst kv = k) (pairsOf g) = pair k <$> default [] (m !! k)).
Proof.
  intros Hmd Hrange.
  assert (Hnew : contents md (grpcTraceMD_Set md key val w) = appendValue key val m).
  { unfold contents, grpcTraceMD_Set, set_mds. cbn. rewrite list_lookup_alter_eq, Hmd.
    reflexivity. }
  rewrite Hnew in Hrange.
  pose proof (rangeOf_NoDup _ _ Hrange) as Hnd.
  split.
  - apply pairsOf_key; [exact Hnd|].
    apply (rangeOf_elem_of _ _ _ _ Hrange). unfold appendValue. apply lookup_insert_eq.
  - intros k Hne.
    destruct (m !! k) as [vs|] eqn:Hk; cbn.
    + apply pairsOf_key; [exact Hnd|].
      apply (rangeOf_elem_of _ _ _ _ Hrange). unfold appendValue.
      rewrite lookup_insert_ne by congruence. exact Hk.
    + apply filter_key_absent. intros Hin.
      apply list_elem_of_fmap in Hin as [[k' vs] [Heq Hin]]. cbn in Heq. subst k'.
      apply (rangeOf_elem_of _ _ _ _ Hrange) in Hin. unfold appendValue in Hin.
      rewrite lookup_insert_ne in Hin by congruence. congruence.
Qed.

Lemma Set_appends_in_order_witness :
  let m : gmap string (list string) := {["user" := ["alice"]]} in
  let w' := grpcTraceMD_Set 0 "user" "bob" callerWorld in
  let g := [("user", ["alice"; "bob"])] in
  mds callerWorld !! 0%nat = Some m /\
  rangeOf (contents 0 w') g /\
  filter (fun kv => fst kv = "user") (pairsOf g)
    = pair "user" <$> (default [] (m !! "user") ++ ["bob"]) /\
  (forall k, k <> "user" ->
     filter (fun kv => fst kv = k) (pairsOf g) = pair k <$> default [] (m !! k)).
Proof.
  intros m w' g.
  assert (Hrange : rangeOf (contents 0 w') g).
  { unfold rangeOf, w', g. vm_compute. reflexivity. }
  split; [reflexivity|]. split; [exact Hrange|].
  apply (Set_appends_in_order 0 "user" "bob" callerWorld m g).
  - reflexivity.
  - exact Hrange.
Defined.

(** * Further properties of the interceptors *)






Example outgoing_metadata_run :
  let w' := snd (tracingUnaryClientInterceptor
                   (mkTracer (fun _ => ([("user", "tracer"); ("trace-id", "7")], None))
                             (fun _ => (None, None)))
                   withMetadata "Get" "req" "" echoInvoker callerWorld) in
  contents 1 w' = {["user" := ["alice"; "tracer"]; "trace-id" := ["7"]]} /\
  contents 0 w' = {["user" := ["alice"]]}.
Proof. split; vm_compute; reflexivity. Qed.

(** X5.  The unary client interceptor finalizes its span after tagging
    it: the span is named [grpc:] and the method, and is reported with
    [span.kind] client, and with [error] true exactly when the invoker
    returned an error.  It logs a warning if the injection failed and then
    an info entry if the invoker failed, and nothing else. *)
Theorem unary_client_span tracer ctx method req reply invoker w :
  let r := tracingUnaryClientInterceptor tracer ctx method req reply invoker w in
  let n := length (spans w) in
  exists span snap,
    spans (snd r) !! n = Some span /\
    operationName span = "grpc:" +:+ method /\
    finished span = [snap] /\
    snap !! "span.kind" = Some (TagString "client") /\
    snap !! "error" = match snd (fst r) with
                      | Some _ => Some (TagBool true)
                      | None => None
                      end /\
    logsSince w (snd r) =
      (injectWarning <$> optList (snd (Inject tracer (Span_Context n)))) ++
      (callInfo method <$> optList (snd (fst r))).
Proof.
  intros r n. subst r n. rewrite unary_client_run. cbv zeta.
  unfold logsSince, Span_Context. world_simpl. rewrite drop_app_length, lookup_snoc_new.
  eexists _, _. split; [reflexivity|]. split; [reflexivity|]. split; [reflexivity|].
  destruct (snd (invoker _ _ _ _ _)); repeat split; reflexivity.
Qed.

(** X6.  The unary server interceptor starts its span under whatever
    context the tracer extracted, and finalizes it after tagging it: the
    span is reported with [span.kind] server and the host name, and, when
    the handler returned an error, with [error] true and the error's text
    as [error_message] (without either tag otherwise). *)
Theorem unary_server_span host tracer ctx req FullMethod handler w :
  let r := tracingUnaryServerInterceptor host tracer ctx req FullMethod handler w in
  let n := length (spans w) in
  exists span snap,
    spans (snd r) !! n = Some span /\
    operationName span = "grpc:" +:+ FullMethod /\
    parentContext span = fst (Extract tracer (metadataOf ctx w)) /\
    finished span = [snap] /\
    snap !! "span.kind" = Some (TagString "server") /\
    snap !! "grpc.hostname" = Some (TagString host) /\
    snap !! "error" = match snd (fst r) with
                      | Some _ => Some (TagBool true)
                      | None => None
                      end /\
    snap !! "error_message" = (TagString ∘ Error) <$> snd (fst r).
Proof.
  intros r n. subst r n. rewrite unary_server_run. cbv zeta.
  world_simpl. rewrite lookup_snoc_new.
  eexists _, _. split; [reflexivity|]. split; [reflexivity|]. split; [reflexivity|].
  split; [reflexivity|].
  destruct (snd (handler _ _ _)); repeat split; reflexivity.
Qed.

(** A handler run against the server proxy is the handler run against
    the wrapped stream with its [Context()] calls answered by the proxy's
    context; the proxy counts what it forwards. *)
Lemma runServer_direct {S : Type} `{ServerStream S} (p : serverProg) :
  forall (ssi : serverStreamInterceptor S) (w : world),
    runServer p ssi w =
    let '(herr, s', tr) := runDirectServer (answerContext (ssi_ctx ssi) p) (ssi_ss ssi) in
    (herr,
     mkServerStreamInterceptor s' (ssi_span ssi) (ssi_done ssi)
       (Nat.iter (countCalls isRecv tr) incr (ssi_inCount ssi))
       (Nat.iter (countCalls isSend tr) incr (ssi_outCount ssi))
       (ssi_ctx ssi),
     mkWorld (spans w) (mds w) (logs w) (calls w ++ tr)).
Proof.
  induction p as [err|md k IH|md k IH|k IH|m k IH|m k IH]; intros ssi w;
    cbn [runServer answerContext runDirectServer].
  - destruct ssi, w; cbn. rewrite app_nil_r. reflexivity.
  - unfold serverStream_SendHeader.
    destruct (ss_SendHeader md (ssi_ss ssi)) as [r s1]. rewrite IH. reflexivity.
  - rewrite IH. reflexivity.
  - rewrite IH. reflexivity.
  - unfold serverStream_SendMsg; cbn [ssi_ss].
    destruct (ss_SendMsg m (ssi_ss ssi)) as [r s1]. rewrite IH. cbn [ssi_with_ss ssi_ss ssi_ctx].
    destruct (runDirectServer _ s1) as [[herr s'] tr].
    cbn [ssi_span ssi_done ssi_inCount ssi_outCount ssi_ctx spans mds logs calls add_call].
    rewrite (iter_countCalls_counted isSend) by reflexivity.
    rewrite (countCalls_skipped isRecv) by reflexivity.
    rewrite <- app_assoc. reflexivity.
  - unfold serverStream_RecvMsg; cbn [ssi_ss].
    destruct (ss_RecvMsg m (ssi_ss ssi)) as [r s1]. rewrite IH. cbn [ssi_with_ss ssi_ss ssi_ctx].
    destruct (runDirectServer _ s1) as [[herr s'] tr].
    cbn [ssi_span ssi_done ssi_inCount ssi_outCount ssi_ctx spans mds logs calls add_call].
    rewrite (iter_countCalls_counted isRecv) by reflexivity.
    rewrite (countCalls_skipped isSend) by reflexivity.
    rewrite <- app_assoc. reflexivity.
Qed.

(** The streaming server interceptor in terms of the handler run against
    the wrapped stream. *)
Lemma stream_server_direct {S : Type} `{ServerStream S} host tracer srv (ss : S)
    FullMethod handler w :
  let n := length (spans w) in
  let ctx := ss_Context ss in
  let found := Extract tracer (metadataOf ctx w) in
  let derived := derivedContext ctx ("grpc:" +:+ FullMethod) (fst found) w in
  let '(herr, s', tr) := runDirectServer (answerContext derived (handler srv)) ss in
  let final := withCounts (Nat.iter (countCalls isRecv tr) incr 0)
                          (Nat.iter (countCalls isSend tr) incr 0) (serverTags host herr) in
  tracingStreamServerInterceptor host tracer srv ss FullMethod handler w =
    (herr, mkWorld (spans w ++ [mkSpan ("grpc:" +:+ FullMethod) (fst found) final [final]])
                   (match ctxMD ctx with Some _ => mds w | None => mds w ++ [∅] end)
                   (logs w ++ extractWarnings (snd found) ++
                    (callInfo FullMethod <$> optList herr))
                   (calls w ++ StreamHandlerCall srv :: tr)).
Proof.
  cbv zeta.
  destruct (stream_server_run host tracer srv ss FullMethod handler w)
    as (herr & tr & s & Hrun & Heq).
  rewrite runServer_direct in Hrun. cbn [ssi_ctx ssi_ss] in Hrun.
  change (derivedContext (ss_Context ss) ("grpc:" +:+ FullMethod)
            (fst (Extract tracer (metadataOf (ss_Context ss) w))) w)
    with (mkContext (ctxValues (ss_Context ss)) (ctxMD (ss_Context ss))
                    (Some (length (spans w))) (Some (length (spans w)))).
  destruct (runDirectServer _ ss) as [[herr' s'] tr'].
  injection Hrun as <- _ _ _ Hcalls.
  rewrite <- app_assoc in Hcalls. apply app_inv_head in Hcalls.
  injection Hcalls as <-. exact Heq.
Qed.

(** X7.  The span of a server stream is finalized once, after the handler
    has returned, and reports as sent the number of [SendMsg] calls the
    handler made, whatever they returned (below 2^63, where the counter
    wraps), next to [span.kind] server, the host name and, when the
    handler returned an error, [error] true and the error's text. *)
Theorem stream_server_span (S : Type) (SS : ServerStream S) host tracer srv (ss : S)
    FullMethod handler w :
  let r := tracingStreamServerInterceptor host tracer srv ss FullMethod handler w in
  let n := countCalls isSend (callsSince w (snd r)) in
  Z.of_nat n < 2 ^ 63 ->
  exists snap,
    finalizations (length (spans w)) (snd r) = [snap] /\
    snap !! "grpc.stream_sent" = Some (TagInt (Z.of_nat n)) /\
    snap !! "span.kind" = Some (TagString "server") /\
    snap !! "grpc.hostname" = Some (TagString host) /\
    snap !! "error" = match fst r with
                      | Some _ => Some (TagBool true)
                      | None => None
                      end /\
    snap !! "error_message" = (TagString ∘ Error) <$> fst r.
Proof.
  intros r n. subst r n.
  pose proof (stream_server_direct host tracer srv ss FullMethod handler w) as Hrun.
  cbv zeta in Hrun. destruct (runDirectServer _ ss) as [[herr s'] tr]. rewrite Hrun.
  unfold callsSince, finalizations. world_simpl. rewrite drop_app_length, lookup_snoc_new.
  cbn [countCalls isSend]. rewrite Nat.add_0_l. intros Hn.
  eexists. split; [reflexivity|]. unfold withCounts.
  rewrite iter_incr_0 by exact Hn.
  split; [apply lookup_insert_eq|].
  rewrite !(lookup_insert_ne _ "grpc.stream_sent") by discriminate.
  rewrite !(lookup_insert_ne _ "grpc.stream_received") by discriminate.
  destruct herr; repeat split; reflexivity.
Qed.

Lemma stream_server_span_witness :
  let r := tracingStreamServerInterceptor "host-1" sampleTracer "srv" failedStream
             "Watch" sampleHandler emptyWorld in
  let n := countCalls isSend (callsSince emptyWorld (snd r)) in
  n = 1%nat /\ Z.of_nat n < 2 ^ 63 /\
  exists snap,
    finalizations (length (spans emptyWorld)) (snd r) = [snap] /\
    snap !! "grpc.stream_sent" = Some (TagInt (Z.of_nat n)) /\
    snap !! "span.kind" = Some (TagString "server") /\
    snap !! "grpc.hostname" = Some (TagString "host-1") /\
    snap !! "error" = match fst r with
                      | Some _ => Some (TagBool true)
                      | None => None
                      end /\
    snap !! "error_message" = (TagString ∘ Error) <$> fst r.
Proof.
  intros r n. split; [vm_compute; reflexivity|]. split; [vm_compute; reflexivity|].
  apply (stream_server_span scripted _ "host-1" sampleTracer "srv" failedStream "Watch"
           sampleHandler emptyWorld).
  vm_compute; reflexivity.
Defined.

(** X8.  When the tracer fails to extract a context, with an error other
    than [ErrSpanContextNotFound], a server interceptor logs the error as
    a warning and carries on: the span starts under whatever context
    [Extract] returned, the handler is called, and its result is
    returned. *)
Theorem extract_failure_not_fatal :
  (forall host tracer ctx req FullMethod handler w e,
     snd (Extract tracer (metadataOf ctx w)) = Some e ->
     e <> ErrSpanContextNotFound ->
     let r := tracingUnaryServerInterceptor host tracer ctx req FullMethod handler w in
     extractWarning e ∈ logsSince w (snd r) /\
     (exists span,
        spans (snd r) !! length (spans w) = Some span /\
        parentContext span = fst (Extract tracer (metadataOf ctx w))) /\
     exists ctx' w_call,
       callsSince w (snd r) = [HandlerCall ctx' req] /\
       fst r = handler ctx' req w_call) /\
  (forall (S : Type) (SS : ServerStream S) host tracer srv (ss : S) FullMethod handler w e,
     snd (Extract tracer (metadataOf (ss_Context ss) w)) = Some e ->
     e <> ErrSpanContextNotFound ->
     let r := tracingStreamServerInterceptor host tracer srv ss FullMethod handler w in
     extractWarning e ∈ logsSince w (snd r) /\
     (exists span,
        spans (snd r) !! length (spans w) = Some span /\
        parentContext span = fst (Extract tracer (metadataOf (ss_Context ss) w))) /\
     head (callsSince w (snd r)) = Some (StreamHandlerCall srv)).
Proof.
  split.
  - intros host tracer ctx req FullMethod handler w e Hx Hne r. subst r.
    rewrite unary_server_run. cbv zeta. rewrite Hx.
    unfold logsSince, callsSince, extractWarnings. world_simpl.
    rewrite !drop_app_length, lookup_snoc_new.
    destruct (decide (e = ErrSpanContextNotFound)); [contradiction|].
    split; [apply elem_of_cons; left; reflexivity|].
    split; [eexists; split; reflexivity|].
    eexists _, _. split; reflexivity.
  - intros S SS host tracer srv ss FullMethod handler w e Hx Hne r. subst r.
    destruct (stream_server_run host tracer srv ss FullMethod handler w)
      as (herr & tr & s & _ & ->).
    rewrite Hx.
    unfold logsSince, callsSince, extractWarnings. world_simpl.
    rewrite !drop_app_length, lookup_snoc_new.
    destruct (decide (e = ErrSpanContextNotFound)); [contradiction|].
    split; [apply elem_of_cons; left; reflexivity|].
    split; [eexists; split; reflexivity|]. reflexivity.
Qed.

Lemma extract_failure_not_fatal_witness :
  snd (Extract failingTracer (metadataOf background emptyWorld)) = Some (errorsNew "corrupted") /\
  errorsNew "corrupted" <> ErrSpanContextNotFound /\
  let r := tracingUnaryServerInterceptor "host-1" failingTracer background "req" "Method"
             failingHandler emptyWorld in
  extractWarning (errorsNew "corrupted") ∈ logsSince emptyWorld (snd r) /\
  (exists span,
     spans (snd r) !! length (spans emptyWorld) = Some span /\
     parentContext span = fst (Extract failingTracer (metadataOf background emptyWorld))) /\
  exists ctx' w_call,
    callsSince emptyWorld (snd r) = [HandlerCall ctx' "req"] /\
    fst r = failingHandler ctx' "req" w_call.
Proof.
  split; [reflexivity|]. split; [discriminate|].
  apply (proj1 extract_failure_not_fatal "host-1" failingTracer background "req" "Method"
           failingHandler emptyWorld (errorsNew "corrupted")).
  - reflexivity.
  - discriminate.
Defined.

(** A caller run against a client proxy that wraps a stream is the caller
    run against the stream: no call panics, the stream sees the same
    calls and ends in the same state, and neither the log nor the
    metadata change. *)
Lemma runClient_direct {S : Type} `{ClientStream S} (p : clientProg) :
  forall (s : S) (span : nat) (i o : Z) (w : world),
  exists i' o' w',
    runClient p (mkClientStreamInterceptor (Some s) span (finishSpan span) i o) w =
      (false,
       mkClientStreamInterceptor (Some (fst (runDirectClient p s))) span (finishSpan span) i' o',
       w') /\
    calls w' = calls w ++ snd (runDirectClient p s) /\
    mds w' = mds w /\ logs w' = logs w.
Proof.
  induction p as [|k IH|k IH|k IH|k IH|m k IH|m k IH]; intros s span i o w;
    cbn [runClient runDirectClient].
  - exists i, o, w. cbn. rewrite app_nil_r. repeat split.
  - unfold clientStream_Header, csi_with_cs; cbn. destruct (cs_Header s) as [r s1]. apply IH.
  - unfold clientStream_Trailer, csi_with_cs; cbn. destruct (cs_Trailer s) as [r s1]. apply IH.
  - unfold clientStream_CloseSend, csi_with_cs; cbn. destruct (cs_CloseSend s) as [r s1].
    apply IH.
  - unfold clientStream_Context; cbn. apply IH.
  - unfold clientStream_SendMsg, csi_with_cs; cbn. destruct (cs_SendMsg m s) as [r s1].
    destruct (IH r s1 span i (incr o) (add_call (SendMsgCall m r) w))
      as (i' & o' & w' & Hrun & Hcalls & Hmds & Hlogs).
    destruct (runDirectClient (k r) s1) as [s2 tr]. cbn [fst snd] in *.
    exists i', o', w'. rewrite Hrun, Hcalls, Hmds, Hlogs. cbn [calls add_call].
    rewrite <- app_assoc. repeat split.
  - unfold clientStream_RecvMsg, csi_with_cs; cbn. destruct (cs_RecvMsg m s) as [r s1].
    destruct (decide (r = Some io_EOF)) as [->|Hne].
    + destruct (IH (Some io_EOF) s1 span i o
                  (finishSpan span
                     (SetTag span "grpc.stream_sent" (TagInt o)
                        (SetTag span "grpc.stream_received" (TagInt i)
                           (add_call (RecvMsgCall m (Some io_EOF)) w)))))
        as (i' & o' & w' & Hrun & Hcalls & Hmds & Hlogs).
      destruct (runDirectClient (k (Some io_EOF)) s1) as [s2 tr]. cbn [fst snd] in *.
      exists i', o', w'. rewrite Hrun, Hcalls, Hmds, Hlogs. cbn.
      rewrite <- app_assoc. repeat split.
    + destruct (IH r s1 span (incr i) o (add_call (RecvMsgCall m r) w))
        as (i' & o' & w' & Hrun & Hcalls & Hmds & Hlogs).
      destruct (runDirectClient (k r) s1) as [s2 tr]. cbn [fst snd] in *.
      exists i', o', w'. rewrite Hrun, Hcalls, Hmds, Hlogs. cbn [calls add_call].
      rewrite <- app_assoc. repeat split.
Qed.

(** X9.  The client proxy is transparent: on a stream the interceptor has
    opened, a caller that goes through the proxy gets from every call
    what the wrapped stream returns, so that it makes the same calls and
    leaves the stream in the same state as if it had used the stream
    itself; no call panics, and the proxy neither logs nor touches
    metadata. *)
Theorem client_proxy_transparent (S : Type) (CS : ClientStream S) tracer ctx desc method
    (streamer : Streamer S) w p csi err w1 s panicked csi' w2 :
  tracingStreamClientInterceptor tracer ctx desc method streamer w = (csi, err, w1) ->
  csi_cs csi = Some s ->
  runClient p csi w1 = (panicked, csi', w2) ->
  panicked = false /\
  csi_cs csi' = Some (fst (runDirectClient p s)) /\
  callsSince w1 w2 = snd (runDirectClient p s) /\
  logs w2 = logs w1 /\ mds w2 = mds w1.
Proof.
  intros Hopen Hcs Hrun.
  rewrite stream_client_run in Hopen. cbv zeta in Hopen.
  injection Hopen as <- <- <-. cbn in Hcs. rewrite Hcs in Hrun.
  match type of Hrun with runClient _ (mkClientStreamInterceptor _ ?n _ _ _) ?w0 = _ =>
    destruct (runClient_direct p s n 0 0 w0) as (i' & o' & w' & Hrun' & Hcalls & Hmds & Hlogs)
  end.
  rewrite Hrun' in Hrun. injection Hrun as <- <- <-.
  unfold callsSince. rewrite Hcalls, drop_app_length. auto.
Qed.

Lemma client_proxy_transparent_witness :
  let r := tracingStreamClientInterceptor sampleTracer background "desc" "Watch"
             (opening flakyStream) emptyWorld in
  let r2 := runClient (sendThen 1 (recvUntilEOF 9)) (fst (fst r)) (snd r) in
  csi_cs (fst (fst r)) = Some flakyStream /\
  fst (fst r2) = false /\
  csi_cs (snd (fst r2)) = Some (fst (runDirectClient (sendThen 1 (recvUntilEOF 9)) flakyStream)) /\
  callsSince (snd r) (snd r2) = snd (runDirectClient (sendThen 1 (recvUntilEOF 9)) flakyStream) /\
  logs (snd r2) = logs (snd r) /\ mds (snd r2) = mds (snd r).
Proof.
  intros r r2.
  assert (Hcs : csi_cs (fst (fst r)) = Some flakyStream) by (vm_compute; reflexivity).
  split; [exact Hcs|].
  refine (client_proxy_transparent scripted _ sampleTracer background "desc" "Watch"
    (opening flakyStream) emptyWorld (sendThen 1 (recvUntilEOF 9))
    (fst (fst r)) (snd (fst r)) (snd r) flakyStream
    (fst (fst r2)) (snd (fst r2)) (snd r2) _ Hcs _).
  - vm_compute; reflexivity.
  - vm_compute; reflexivity.
Defined.

(** X10.  The server proxy is transparent but for [Context()]: the
    streaming server interceptor returns the error the handler returns
    when run against the wrapped stream with its [Context()] calls
    answered by the derived context, and the wrapped stream sees exactly
    the [SendMsg] and [RecvMsg] calls of that run. *)
Theorem server_proxy_transparent (S : Type) (SS : ServerStream S) host tracer srv (ss : S)
    FullMethod handler w :
  let r := tracingStreamServerInterceptor host tracer srv ss FullMethod handler w in
  let derived := derivedContext (ss_Context ss) ("grpc:" +:+ FullMethod)
                   (fst (Extract tracer (metadataOf (ss_Context ss) w))) w in
  let direct := runDirectServer (answerContext derived (handler srv)) ss in
  fst r = fst (fst direct) /\
  callsSince w (snd r) = StreamHandlerCall srv :: snd direct.
Proof.
  intros r derived direct. subst r derived direct.
  pose proof (stream_server_direct host tracer srv ss FullMethod handler w) as Hrun.
  cbv zeta in Hrun. destruct (runDirectServer _ ss) as [[herr s'] tr]. rewrite Hrun.
  unfold callsSince. world_simpl. rewrite drop_app_length. split; reflexivity.
Qed.

(** X11.  The server interceptors only read the inbound metadata: every
    map of the store is the same after the call, and the context the
    unary handler is called with refers to the same metadata as the
    caller's context (to none when that carried none) and carries the new
    span. *)
Theorem server_leaves_metadata :
  (forall host tracer ctx req FullMethod handler w md m,
     mds w !! md = Some m ->
     let w' := snd (tracingUnaryServerInterceptor host tracer ctx req FullMethod handler w) in
     mds w' !! md = Some m /\
     exists ctx',
       callsSince w w' = [HandlerCall ctx' req] /\
       ctxMD ctx' = ctxMD ctx /\
       ctxSpan ctx' = Some (length (spans w))) /\
  (forall (S : Type) (SS : ServerStream S) host tracer srv (ss : S) FullMethod handler w md m,
     mds w !! md = Some m ->
     let w' := snd (tracingStreamServerInterceptor host tracer srv ss FullMethod handler w) in
     mds w' !! md = Some m).
Proof.
  split.
  - intros host tracer ctx req FullMethod handler w md m Hmd w'. subst w'.
    rewrite unary_server_run. cbv zeta. unfold callsSince. world_simpl.
    rewrite drop_app_length. split.
    + destruct (ctxMD ctx); [exact Hmd|].
      rewrite lookup_app_l by (eapply lookup_lt_Some; exact Hmd). exact Hmd.
    + eexists. split; [reflexivity|]. split; reflexivity.
  - intros S SS host tracer srv ss FullMethod handler w md m Hmd w'. subst w'.
    destruct (stream_server_run host tracer srv ss FullMethod handler w)
      as (herr & tr & s & _ & ->).
    world_simpl. destruct (ctxMD (ss_Context ss)); [exact Hmd|].
    rewrite lookup_app_l by (eapply lookup_lt_Some; exact Hmd). exact Hmd.
Qed.

Lemma server_leaves_metadata_witness :
  let m : gmap string (list string) := {["user" := ["alice"]]} in
  mds callerWorld !! 0%nat = Some m /\
  let w' := snd (tracingUnaryServerInterceptor "host-1" sampleTracer withMetadata "req"
                   "Method" failingHandler callerWorld) in
  mds w' !! 0%nat = Some m /\
  exists ctx',
    callsSince callerWorld w' = [HandlerCall ctx' "req"] /\
    ctxMD ctx' = ctxMD withMetadata /\
    ctxSpan ctx' = Some (length (spans callerWorld)).
Proof.
  intros m. split; [reflexivity|].
  apply (proj1 server_leaves_metadata "host-1" sampleTracer withMetadata "req" "Method"
           failingHandler callerWorld 0%nat m).
  reflexivity.
Defined.

(** X12.  The client proxy finalizes the span every time [RecvMsg]
    returns the end-of-stream signal, not only the first time: the span
    of an opened stream has no finalization when the interceptor
    returns, and afterwards as many as the caller has seen end-of-stream
    signals, two if it calls [RecvMsg] once more after the end. *)
Theorem client_span_finalized_per_EOF (S : Type) (CS : ClientStream S) tracer ctx desc method
    (streamer : Streamer S) w p csi err w1 panicked csi' w2 :
  tracingStreamClientInterceptor tracer ctx desc method streamer w = (csi, err, w1) ->
  is_Some (csi_cs csi) ->
  runClient p csi w1 = (panicked, csi', w2) ->
  finalizations (csi_span csi) w1 = [] /\
  length (finalizations (csi_span csi) w2) = countCalls isEOF (callsSince w1 w2).
Proof.
  intros Hopen Hcs Hrun.
  destruct (client_stream_finalizations S CS tracer ctx desc method streamer w p csi err w1
              panicked csi' w2 Hopen Hcs Hrun) as (_ & Hnone & Hcount).
  split; assumption.
Qed.

Lemma client_span_finalized_per_EOF_witness :
  let r := tracingStreamClientInterceptor sampleTracer background "desc" "Watch"
             (opening endedStream) emptyWorld in
  let r2 := runClient (recvTimes 2) (fst (fst r)) (snd r) in
  is_Some (csi_cs (fst (fst r))) /\
  countCalls isEOF (callsSince (snd r) (snd r2)) = 2%nat /\
  finalizations (csi_span (fst (fst r))) (snd r) = [] /\
  length (finalizations (csi_span (fst (fst r))) (snd r2)) =
    countCalls isEOF (callsSince (snd r) (snd r2)).
Proof.
  intros r r2.
  assert (Hcs : is_Some (csi_cs (fst (fst r)))) by (eexists; vm_compute; reflexivity).
  split; [exact Hcs|]. split; [vm_compute; reflexivity|].
  refine (client_span_finalized_per_EOF scripted _ sampleTracer background "desc" "Watch"
    (opening endedStream) emptyWorld (recvTimes 2)
    (fst (fst r)) (snd (fst r)) (snd r)
    (fst (fst r2)) (snd (fst r2)) (snd r2) _ Hcs _).
  - vm_compute; reflexivity.
  - vm_compute; reflexivity.
Defined.

(** * Properties of package obserr *)

Section ObserrFacts.
Import obserr.

Lemma obserr_annotate_ptr (p : nat) (anns : list value) :
  Forall plain anns ->
  forall (st : list obserr.Error) (o : obserr.Error),
  st !! p = Some o ->
  exists st',
    annotateAll (EPtr p) anns st = (Returned (EPtr p), st') /\
    length st' = length st /\
    (exists o', st' !! p = Some o' /\
       orig o' = orig o /\ vals o' = vals o /\
       errorString (err o') =
         foldl (fun msg an => printed an +:+ ": " +:+ msg) (errorString (err o)) anns) /\
    (forall q, q <> p -> st' !! q = st !! q).
Proof.
  intros Hplain. induction Hplain as [|an anns Han Hanns IH]; intros st o Hp.
  - exists st. cbn. split; [reflexivity|]. split; [reflexivity|].
    split; [exists o; auto|]. auto.
  - cbn [annotateAll]. unfold Annotate. cbn [toValue New]. unfold Error_Annotate.
    assert (Hann : annotation an st = Returned (printed an)).
    { destruct an; cbn in Han |- *; [reflexivity|reflexivity|contradiction|reflexivity|reflexivity]. }
    rewrite Hann, Hp.
    set (o1 := mkError (orig o) (errorsNew (printed an +:+ ": " +:+ errorString (err o))) (vals o)).
    assert (Hp1 : <[p := o1]> st !! p = Some o1).
    { apply list_lookup_insert_eq. eapply lookup_lt_Some. exact Hp. }
    destruct (IH (<[p := o1]> st) o1 Hp1) as (st' & Hrun & Hlen & (o' & Ho' & Horig & Hvals & Hmsg) & Hother).
    exists st'. split; [exact Hrun|].
    split; [rewrite Hlen; apply length_insert|].
    split.
    + exists o'. split; [exact Ho'|]. split; [exact Horig|]. split; [exact Hvals|].
      rewrite Hmsg. reflexivity.
    + intros q Hq. rewrite Hother by exact Hq. apply list_lookup_insert_ne. congruence.
Qed.
End ObserrFacts.

(** X13.  However often an error that is not an [*Error] is annotated
    (with annotations that are not [*Error]s themselves), [Original]
    gives back that very error; one [*Error] is allocated, by the first
    annotation, and its text is the annotations, last one first, each
    followed by a colon, and then the error's own text.  No existing
    [*Error] changes. *)
Theorem Original_survives_annotation (e0 : error) (anns : list obserr.value)
    (st : list obserr.Error) :
  Forall obserr.plain anns ->
  anns <> [] ->
  exists st',
    obserr.annotateAll (obserr.EPlain e0) anns st = (Returned (obserr.EPtr (length st)), st') /\
    length st' = S (length st) /\
    obserr.Original (obserr.EPtr (length st)) st' = Returned (obserr.EPlain e0) /\
    obserr.Error_Error (length st) st' =
      Returned (foldl (fun msg an => obserr.printed an +:+ ": " +:+ msg)
                      (obserr.errorString e0) anns) /\
    (forall p o, st !! p = Some o -> st' !! p = Some o).
Proof.
  intros Hplain Hne. destruct anns as [|an anns]; [contradiction|].
  apply Forall_cons in Hplain as [Han Hanns].
  cbn [obserr.annotateAll]. unfold obserr.Annotate. cbn [obserr.toValue obserr.New].
  unfold obserr.alloc. cbv beta iota. unfold obserr.Error_Annotate.
  assert (Hann : obserr.annotation an (st ++ [obserr.mkError e0 e0 ∅])
                 = Returned (obserr.printed an)).
  { destruct an; cbn in Han |- *; [reflexivity|reflexivity|contradiction|reflexivity|reflexivity]. }
  rewrite Hann, lookup_snoc_new. cbn [obserr.orig obserr.err obserr.vals].
  set (o1 := obserr.mkError e0 _ ∅).
  set (st1 := <[length st := o1]> (st ++ [obserr.mkError e0 e0 ∅])).
  assert (Hst1 : st1 = st ++ [o1]).
  { subst st1. replace (length st) with (length st + 0)%nat at 1 by lia.
    rewrite insert_app_r. reflexivity. }
  assert (Hp1 : st1 !! length st = Some o1) by (rewrite Hst1; apply lookup_snoc_new).
  destruct (obserr_annotate_ptr (length st) anns Hanns st1 o1 Hp1)
    as (st' & Hrun & Hlen & (o' & Ho' & Horig & Hvals & Hmsg) & Hother).
  exists st'. split; [exact Hrun|].
  split; [rewrite Hlen, Hst1, length_app; cbn; lia|].
  unfold obserr.Original, obserr.Error_Error. rewrite Ho', Horig, Hmsg.
  split; [reflexivity|]. split; [reflexivity|].
  intros p o Hp. rewrite Hother by (apply lookup_lt_Some in Hp; lia).
  rewrite Hst1. rewrite lookup_app_l by (eapply lookup_lt_Some; exact Hp). exact Hp.
Qed.

Lemma Original_survives_annotation_witness :
  let anns := [obserr.VString "read header"; obserr.VError ErrSpanContextNotFound;
               obserr.VOther "42"] in
  Forall obserr.plain anns /\ anns <> [] /\
  exists st',
    obserr.annotateAll (obserr.EPlain io_EOF) anns [] = (Returned (obserr.EPtr 0), st') /\
    length st' = 1%nat /\
    obserr.Original (obserr.EPtr 0) st' = Returned (obserr.EPlain io_EOF) /\
    obserr.Error_Error 0 st' =
      Returned (foldl (fun msg an => obserr.printed an +:+ ": " +:+ msg)
                      (obserr.errorString io_EOF) anns) /\
    (forall p o, ([] : list obserr.Error) !! p = Some o -> st' !! p = Some o).
Proof.
  intros anns.
  assert (Hplain : Forall obserr.plain anns) by (repeat constructor).
  assert (Hne : anns <> []) by discriminate.
  split; [exact Hplain|]. split; [exact Hne|].
  exact (Original_survives_annotation io_EOF anns [] Hplain Hne).
Defined.

Example obserr_annotate_run :
  let '(r, st) := obserr.annotateAll (obserr.EPlain io_EOF)
                    [obserr.VString "read header"; obserr.VString "load config"] [] in
  r = Returned (obserr.EPtr 0) /\
  obserr.Error_Error 0 st = Returned "load config: read header: EOF" /\
  obserr.Original (obserr.EPtr 0) st = Returned (obserr.EPlain io_EOF).
Proof. cbn. repeat split. Qed.

(** X14.  Annotating an [*Error] changes that object and returns it:
    [New] does not copy an [*Error], so none is allocated, every holder
    of the pointer sees the new text, and the values stored in it and
    its original error stay; no other [*Error] changes. *)
Theorem Annotate_in_place (p : nat) (anns : list obserr.value) (st : list obserr.Error)
    (o : obserr.Error) :
  st !! p = Some o ->
  Forall obserr.plain anns ->
  exists st',
    obserr.annotateAll (obserr.EPtr p) anns st = (Returned (obserr.EPtr p), st') /\
    length st' = length st /\
    obserr.Error_Error p st' =
      Returned (foldl (fun msg an => obserr.printed an +:+ ": " +:+ msg)
                      (obserr.errorString (obserr.err o)) anns) /\
    obserr.Error_Vals p st' = Returned (obserr.vals o) /\
    obserr.Original (obserr.EPtr p) st' = Returned (obserr.EPlain (obserr.orig o)) /\
    (forall q, q <> p -> st' !! q = st !! q).
Proof.
  intros Hp Hplain.
  destruct (obserr_annotate_ptr p anns Hplain st o Hp)
    as (st' & Hrun & Hlen & (o' & Ho' & Horig & Hvals & Hmsg) & Hother).
  exists st'. unfold obserr.Error_Error, obserr.Error_Vals, obserr.Original.
  rewrite Ho', Horig, Hvals, Hmsg. auto 10.
Qed.

Lemma Annotate_in_place_witness :
  let anns := [obserr.VString "read header"; obserr.VNil] in
  sampleObserr !! 0%nat = Some (obserr.mkError io_EOF io_EOF {["attempt" := obserr.VOther "3"]}) /\
  Forall obserr.plain anns /\
  exists st',
    obserr.annotateAll (obserr.EPtr 0) anns sampleObserr = (Returned (obserr.EPtr 0), st') /\
    length st' = length sampleObserr /\
    obserr.Error_Error 0 st' = Returned "<nil>: read header: EOF" /\
    obserr.Error_Vals 0 st' = Returned {["attempt" := obserr.VOther "3"]} /\
    obserr.Original (obserr.EPtr 0) st' = Returned (obserr.EPlain io_EOF) /\
    (forall q, q <> 0%nat -> st' !! q = sampleObserr !! q).
Proof.
  intros anns.
  assert (Hplain : Forall obserr.plain anns) by (repeat constructor).
  split; [reflexivity|]. split; [exact Hplain|].
  exact (Annotate_in_place 0 anns sampleObserr _ eq_refl Hplain).
Defined.

Section ObserrSetFacts.
Import obserr.

Lemma Set_loop_keyvals pairs bad (v : gmap string value) :
  Set_loop (keyvals pairs ++ bad) v =
  Set_loop bad (foldl (fun m kv => <[fst kv := snd kv]> m) v pairs).
Proof.
  revert v. induction pairs as [|[k x] pairs IH]; intros v; [reflexivity|].
  cbn [keyvals flat_map app fst snd Set_loop foldl]. apply IH.
Qed.

Lemma Set_loop_malformed bad (v : gmap string value) :
  malformed bad -> Set_loop bad v = (true, v).
Proof.
  destruct bad as [|[| | | |] [|x rest]]; cbn; intros Hbad; try reflexivity; contradiction.
Qed.

Lemma lastFor_cons k k0 x0 pairs :
  lastFor k ((k0, x0) :: pairs) =
  match lastFor k pairs with
  | Some x => Some x
  | None => if decide (k0 = k) then Some x0 else None
  end.
Proof.
  unfold lastFor. destruct (decide (k0 = k)) as [Heq|Hne].
  - rewrite filter_cons_True by exact Heq. rewrite last_cons.
    destruct (last (filter _ pairs)); reflexivity.
  - rewrite filter_cons_False by exact Hne. destruct (last (filter _ pairs)); reflexivity.
Qed.

Lemma lookup_stored pairs (v : gmap string value) k :
  foldl (fun m kv => <[fst kv := snd kv]> m) v pairs !! k =
  match lastFor k pairs with
  | Some x => Some x
  | None => v !! k
  end.
Proof.
  revert v. induction pairs as [|[k0 x0] pairs IH]; intros v; [reflexivity|].
  cbn [foldl fst snd]. rewrite IH, lastFor_cons.
  destruct (lastFor k pairs); [reflexivity|].
  destruct (decide (k0 = k)) as [->|Hne].
  - apply lookup_insert_eq.
  - apply lookup_insert_ne. exact Hne.
Qed.

(** [Set] on an existing [*Error], for arguments that are pairs followed
    by [bad]: the pairs are stored, and the call panics exactly when
    [bad] is malformed. *)
Lemma Error_Set_stores p pairs bad (st : list obserr.Error) o :
  st !! p = Some o ->
  bad = [] \/ malformed bad ->
  exists st' o',
    Error_Set p (keyvals pairs ++ bad) st =
      (match bad with [] => Returned p | _ => Panicked end, st') /\
    st' !! p = Some o' /\
    orig o' = orig o /\ err o' = err o /\
    (forall k, vals o' !! k = match lastFor k pairs with
                              | Some x => Some x
                              | None => vals o !! k
                              end) /\
    (forall q, q <> p -> st' !! q = st !! q).
Proof.
  intros Hp Hbad.
  assert (Hlt : (p < length st)%nat) by (eapply lookup_lt_Some; exact Hp).
  destruct (keyvals pairs ++ bad) as [|x kvs] eqn:Hkvs.
  - apply app_eq_nil in Hkvs as [Hpairs ->].
    destruct pairs as [|[k x] pairs]; [|discriminate].
    exists st, o. cbn. repeat split; auto.
  - unfold Error_Set. rewrite Hp, <- Hkvs, Set_loop_keyvals.
    set (v := foldl _ (vals o) pairs).
    assert (Hloop : Set_loop bad v = (match bad with [] => false | _ => true end, v)).
    { destruct Hbad as [->|Hbad]; [reflexivity|].
      rewrite Set_loop_malformed by exact Hbad. destruct bad; [contradiction|reflexivity]. }
    rewrite Hloop.
    exists (<[p := mkError (orig o) (err o) v]> st), (mkError (orig o) (err o) v).
    split; [destruct bad; reflexivity|].
    split; [apply list_lookup_insert_eq; exact Hlt|].
    split; [reflexivity|]. split; [reflexivity|].
    split; [intros k; apply lookup_stored|].
    intros q Hq. apply list_lookup_insert_ne. congruence.
Qed.
End ObserrSetFacts.

(** X15.  [Set] with (key, value) pairs on an [*Error] returns it, and
    [Get] then returns for each key the value of the last pair that has
    that key, and what it returned before for keys that no pair has (nil
    for a key never set); the text of the error, its original and every
    other [*Error] stay as they were. *)
Theorem Set_then_Get (p : nat) (pairs : list (string * obserr.value))
    (st : list obserr.Error) (o : obserr.Error) (k : string) :
  st !! p = Some o ->
  exists st',
    obserr.Error_Set p (obserr.keyvals pairs) st = (Returned p, st') /\
    obserr.Error_Get p k st' =
      Returned (match obserr.lastFor k pairs with
                | Some x => x
                | None => default obserr.VNil (obserr.vals o !! k)
                end) /\
    obserr.Error_Error p st' = obserr.Error_Error p st /\
    obserr.Original (obserr.EPtr p) st' = obserr.Original (obserr.EPtr p) st /\
    (forall q, q <> p -> st' !! q = st !! q).
Proof.
  intros Hp.
  destruct (Error_Set_stores p pairs [] st o Hp (or_introl eq_refl))
    as (st' & o' & Hset & Hp' & Horig & Herr & Hvals & Hother).
  rewrite app_nil_r in Hset.
  exists st'. split; [exact Hset|].
  unfold obserr.Error_Get, obserr.Error_Error, obserr.Original.
  rewrite Hp, Hp', Horig, Herr, Hvals.
  split; [destruct (obserr.lastFor k pairs); reflexivity|]. auto.
Qed.

Lemma Set_then_Get_witness :
  let pairs := [("attempt", obserr.VOther "4"); ("host", obserr.VString "db-1");
                ("attempt", obserr.VOther "5")] in
  sampleObserr !! 0%nat = Some (obserr.mkError io_EOF io_EOF {["attempt" := obserr.VOther "3"]}) /\
  obserr.lastFor "attempt" pairs = Some (obserr.VOther "5") /\
  exists st',
    obserr.Error_Set 0 (obserr.keyvals pairs) sampleObserr = (Returned 0%nat, st') /\
    obserr.Error_Get 0 "attempt" st' =
      Returned (match obserr.lastFor "attempt" pairs with
                | Some x => x
                | None => default obserr.VNil
                            (obserr.vals (obserr.mkError io_EOF io_EOF
                                            {["attempt" := obserr.VOther "3"]}) !! "attempt")
                end) /\
    obserr.Error_Error 0 st' = obserr.Error_Error 0 sampleObserr /\
    obserr.Original (obserr.EPtr 0) st' = obserr.Original (obserr.EPtr 0) sampleObserr /\
    (forall q, q <> 0%nat -> st' !! q = sampleObserr !! q).
Proof.
  intros pairs. split; [reflexivity|]. split; [reflexivity|].
  exact (Set_then_Get 0 pairs sampleObserr _ "attempt" eq_refl).
Defined.

(** X16.  [Set] panics when it meets a key that is not a string or a last
    key without a value, and not before: the pairs in front of it are
    stored by then and stay stored, as [Get] shows. *)
Theorem Set_malformed_panics (p : nat) (pairs : list (string * obserr.value))
    (bad : list obserr.value) (st : list obserr.Error) (o : obserr.Error) (k : string) :
  st !! p = Some o ->
  obserr.malformed bad ->
  exists st',
    obserr.Error_Set p (obserr.keyvals pairs ++ bad) st = (Panicked, st') /\
    obserr.Error_Get p k st' =
      Returned (match obserr.lastFor k pairs with
                | Some x => x
                | None => default obserr.VNil (obserr.vals o !! k)
                end).
Proof.
  intros Hp Hbad.
  destruct (Error_Set_stores p pairs bad st o Hp (or_intror Hbad))
    as (st' & o' & Hset & Hp' & Horig & Herr & Hvals & Hother).
  exists st'. split; [rewrite Hset; destruct bad; [contradiction|reflexivity]|].
  unfold obserr.Error_Get. rewrite Hp', Hvals.
  destruct (obserr.lastFor k pairs); reflexivity.
Qed.

Lemma Set_malformed_panics_witness :
  let pairs := [("host", obserr.VString "db-1")] in
  let bad := [obserr.VString "attempt"] in
  sampleObserr !! 0%nat = Some (obserr.mkError io_EOF io_EOF {["attempt" := obserr.VOther "3"]}) /\
  obserr.malformed bad /\
  exists st',
    obserr.Error_Set 0 (obserr.keyvals pairs ++ bad) sampleObserr = (Panicked, st') /\
    obserr.Error_Get 0 "host" st' =
      Returned (match obserr.lastFor "host" pairs with
                | Some x => x
                | None => default obserr.VNil
                            (obserr.vals (obserr.mkError io_EOF io_EOF
                                            {["attempt" := obserr.VOther "3"]}) !! "host")
                end).
Proof.
  intros pairs bad. split; [reflexivity|]. split; [exact I|].
  exact (Set_malformed_panics 0 pairs bad sampleObserr _ "host" eq_refl I).
Defined.

Example obserr_set_run :
  let '(r, st) := obserr.Error_Set 0 [obserr.VString "host"; obserr.VString "db-1";
                                      obserr.VOther "7"; obserr.VString "x"] sampleObserr in
  r = Panicked /\
  obserr.Error_Get 0 "host" st = Returned (obserr.VString "db-1") /\
  obserr.Error_Get 0 "x" st = Returned obserr.VNil.
Proof. cbn. repeat split. Qed.

Lemma insert_snoc {A : Type} (l : list A) (x y : A) :
  <[length l := y]> (l ++ [x]) = l ++ [y].
Proof.
  replace (length l) with (length l + 0)%nat by lia.
  rewrite insert_app_r. reflexivity.
Qed.

(** X17.  Annotating a nil error does not give nil: [New] makes an error
    with the text [<nil>] out of it, so that [Annotate(nil, an)] returns a
    new [*Error] whose text is the annotation, a colon and [<nil>], and
    whose original is that made-up error. *)
Theorem Annotate_nil (an : obserr.value) (st : list obserr.Error) :
  obserr.plain an ->
  exists st',
    obserr.Annotate obserr.ENil an st = (Returned (length st), st') /\
    length st' = S (length st) /\
    obserr.Error_Error (length st) st' = Returned (obserr.printed an +:+ ": " +:+ "<nil>") /\
    obserr.Original (obserr.EPtr (length st)) st'
      = Returned (obserr.EPlain (errorsNew "<nil>")).
Proof.
  intros Han. unfold obserr.Annotate. cbn [obserr.toValue obserr.New].
  unfold obserr.alloc. cbv beta iota. unfold obserr.Error_Annotate.
  assert (Hann : obserr.annotation an
                   (st ++ [obserr.mkError (errorsNew "<nil>") (errorsNew "<nil>") ∅])
                 = Returned (obserr.printed an)).
  { destruct an; cbn in Han |- *; [reflexivity|reflexivity|contradiction|reflexivity|reflexivity]. }
  rewrite Hann, lookup_snoc_new, insert_snoc.
  eexists. split; [reflexivity|].
  split; [rewrite length_app; cbn; lia|].
  unfold obserr.Error_Error, obserr.Original.
  rewrite lookup_snoc_new. split; reflexivity.
Qed.

Lemma Annotate_nil_witness :
  obserr.plain (obserr.VString "load config") /\
  exists st',
    obserr.Annotate obserr.ENil (obserr.VString "load config") [] = (Returned (length (@nil obserr.Error)), st') /\
    length st' = S (length (@nil obserr.Error)) /\
    obserr.Error_Error (length (@nil obserr.Error)) st'
      = Returned (obserr.printed (obserr.VString "load config") +:+ ": " +:+ "<nil>") /\
    obserr.Original (obserr.EPtr (length (@nil obserr.Error))) st'
      = Returned (obserr.EPlain (errorsNew "<nil>")).
Proof.
  split; [exact I|].
  exact (Annotate_nil (obserr.VString "load config") [] I).
Defined.

(** * Properties of package topk *)

Section TopkTrackFacts.
Import topk.

Lemma seen_cons id id0 b l :
  seen id ((id0, b) :: l) = ((if decide (id0 = id) then 1 else 0) + seen id l)%nat.
Proof.
  unfold seen. destruct (decide (id0 = id)) as [Heq|Hne].
  - rewrite filter_cons_True by exact Heq. reflexivity.
  - rewrite filter_cons_False by exact Hne. reflexivity.
Qed.

Lemma sampled_cons id id0 b l :
  sampled id ((id0, b) :: l) =
  ((if decide (id0 = id) then if b then 1 else 0 else 0) + sampled id l)%nat.
Proof.
  unfold sampled. destruct (decide (id0 = id)) as [Heq|Hne].
  - destruct b.
    + rewrite filter_cons_True by (split; [exact Heq|reflexivity]). reflexivity.
    + rewrite filter_cons_False by (cbn; intros [_ ?]; discriminate). reflexivity.
  - rewrite filter_cons_False by (cbn; intros [? _]; contradiction). reflexivity.
Qed.

Lemma sampled_le_seen id l : (sampled id l <= seen id l)%nat.
Proof.
  induction l as [|[id0 b] l IH]; [reflexivity|].
  rewrite seen_cons, sampled_cons. destruct (decide (id0 = id)); destruct b; lia.
Qed.

Lemma seen_le_length id l : (seen id l <= length l)%nat.
Proof. unfold seen. apply length_filter. Qed.

(** One [Track]: the project's entry is made if it is missing, its first
    counter goes up, its second one if the event is in the sample; no
    other entry changes and nothing is sent. *)
Lemma Track_counts id b p id' :
  counts (Track id b p) !! id' =
  if decide (id = id') then
    Some (mkSampledCount
            (incr (preSampling (default (mkSampledCount 0 0) (counts p !! id))))
            (let post := postSampling (default (mkSampledCount 0 0) (counts p !! id)) in
             if b then incr post else post))
  else counts p !! id'.
Proof.
  unfold Track. destruct (counts p !! id) as [c|] eqn:Hc.
  - rewrite Hc. cbn [counts set_counts default].
    destruct (decide (id = id')) as [<-|Hne].
    + rewrite lookup_insert_eq. destruct b; reflexivity.
    + apply lookup_insert_ne. exact Hne.
  - rewrite lookup_insert_eq. cbn [counts set_counts default preSampling postSampling].
    destruct (decide (id = id')) as [<-|Hne].
    + rewrite lookup_insert_eq. destruct b; reflexivity.
    + rewrite !lookup_insert_ne by exact Hne. reflexivity.
Qed.

Lemma Track_frame id b p :
  eventName (Track id b p) = eventName p /\ tracked (Track id b p) = tracked p /\
  received (Track id b p) = received p /\ printed (Track id b p) = printed p.
Proof.
  unfold Track. destruct (counts p !! id) as [c|] eqn:Hc;
    [rewrite Hc|rewrite lookup_insert_eq]; repeat split.
Qed.

Lemma trackAll_counts l : forall p id,
  counts (trackAll l p) !! id =
  match seen id l with
  | O => counts p !! id
  | S _ =>
      Some (mkSampledCount
              (Nat.iter (seen id l) incr
                 (preSampling (default (mkSampledCount 0 0) (counts p !! id))))
              (Nat.iter (sampled id l) incr
                 (postSampling (default (mkSampledCount 0 0) (counts p !! id)))))
  end.
Proof.
  induction l as [|[id0 b] l IH]; intros p id; [reflexivity|].
  change (trackAll ((id0, b) :: l) p) with (trackAll l (Track id0 b p)).
  rewrite IH, seen_cons, sampled_cons, Track_counts.
  pose proof (sampled_le_seen id l) as Hle.
  destruct (decide (id0 = id)) as [->|Hne].
  - cbn [default from_option Datatypes.id preSampling postSampling].
    destruct (seen id l) as [|n] eqn:Hseen.
    + assert (sampled id l = 0)%nat as -> by lia. destruct b; reflexivity.
    + cbn [Nat.add]. f_equal. f_equal.
      * rewrite <- Nat.iter_succ_r. reflexivity.
      * destruct b; [|reflexivity]. rewrite <- Nat.iter_succ_r. reflexivity.
  - cbn [Nat.add]. reflexivity.
Qed.

Lemma trackAll_frame l : forall p,
  eventName (trackAll l p) = eventName p /\ tracked (trackAll l p) = tracked p /\
  received (trackAll l p) = received p /\ printed (trackAll l p) = printed p.
Proof.
  induction l as [|[id0 b] l IH]; intros p; [repeat split|].
  change (trackAll ((id0, b) :: l) p) with (trackAll l (Track id0 b p)).
  destruct (IH (Track id0 b p)) as (-> & -> & -> & ->). apply Track_frame.
Qed.

(** From no counts at all, and short of the wrap-around of the counters. *)
Lemma trackAll_fresh l p id :
  counts p = ∅ ->
  Z.of_nat (length l) < 2 ^ 63 ->
  counts (trackAll l p) !! id =
    (if decide (seen id l = 0%nat) then None
     else Some (mkSampledCount (Z.of_nat (seen id l)) (Z.of_nat (sampled id l)))).
Proof.
  intros Hempty Hlen.
  pose proof (sampled_le_seen id l) as Hle.
  pose proof (seen_le_length id l) as Hlen'.
  rewrite trackAll_counts, Hempty, lookup_empty. cbn [default preSampling postSampling].
  destruct (seen id l) as [|n] eqn:Hseen; [reflexivity|].
  destruct (decide (S n = 0%nat)); [discriminate|].
  rewrite !iter_incr_0 by (unfold int_half; lia). reflexivity.
Qed.
End TopkTrackFacts.

(** X18.  Starting from a tracker without counts (a new one, or one just
    flushed), after any sequence of fewer than 2^63 [Track] calls a
    project has an entry exactly if it was tracked, its first counter is
    the number of times it was tracked and its second the number of
    those that were in the sample, which is never more; [Track] sends
    nothing. *)
Theorem Track_counts_projects (l : list (Z * bool)) (p : topk.projectTracker) (id : Z) :
  topk.counts p = ∅ ->
  Z.of_nat (length l) < 2 ^ 63 ->
  topk.counts (topk.trackAll l p) !! id =
    (if decide (topk.seen id l = 0%nat) then None
     else Some (topk.mkSampledCount (Z.of_nat (topk.seen id l))
                                    (Z.of_nat (topk.sampled id l)))) /\
  (topk.sampled id l <= topk.seen id l)%nat /\
  topk.tracked (topk.trackAll l p) = topk.tracked p /\
  topk.received (topk.trackAll l p) = topk.received p.
Proof.
  intros Hempty Hlen.
  split; [apply trackAll_fresh; assumption|].
  split; [apply sampled_le_seen|].
  destruct (trackAll_frame l p) as (_ & -> & -> & _). split; reflexivity.
Qed.

Lemma Track_counts_projects_witness :
  let l := [(7, true); (9, false); (7, false); (7, true)] in
  let p := topk.NewProjectTracker "ev" in
  topk.counts p = ∅ /\ Z.of_nat (length l) < 2 ^ 63 /\
  topk.counts (topk.trackAll l p) !! 7 =
    (if decide (topk.seen 7 l = 0%nat) then None
     else Some (topk.mkSampledCount (Z.of_nat (topk.seen 7 l))
                                    (Z.of_nat (topk.sampled 7 l)))) /\
  (topk.sampled 7 l <= topk.seen 7 l)%nat /\
  topk.tracked (topk.trackAll l p) = topk.tracked p /\
  topk.received (topk.trackAll l p) = topk.received p.
Proof.
  intros l p. split; [reflexivity|]. split; [reflexivity|].
  apply (Track_counts_projects l p 7); reflexivity.
Defined.

Example topk_track_run :
  topk.counts (topk.trackAll [(7, true); (7, false); (9, false)] (topk.NewProjectTracker "ev"))
  = {[7 := topk.mkSampledCount 2 1; 9 := topk.mkSampledCount 1 0]}.
Proof. vm_compute. reflexivity. Qed.

Section TopkFlushFacts.
Import topk.
Variable client : Client.

Lemma sentEvents_app ms1 ms2 : sentEvents (ms1 ++ ms2) = sentEvents ms1 + sentEvents ms2.
Proof.
  induction ms1 as [|m ms1 IH]; [reflexivity|].
  cbn [app sentEvents foldr]. fold (sentEvents (ms1 ++ ms2)). fold (sentEvents ms1).
  rewrite IH. destruct m as [name|name n]; [reflexivity|].
  destruct (decide (name = "num_sent_events")); lia.
Qed.

Lemma incrs_app name ms1 ms2 : incrs name (ms1 ++ ms2) = (incrs name ms1 + incrs name ms2)%nat.
Proof. unfold incrs. rewrite filter_app, length_app. reflexivity. Qed.

(** One [send]: the batch goes to the client, its size is added to
    [num_sent_events] whether or not the client fails, and then either
    [success] or [failures] goes up by one, the latter with a line
    printed. *)
Lemma sentEvents_batch n name :
  sentEvents [IncrBy "num_sent_events" n; Incr name] = n.
Proof.
  unfold sentEvents. cbn [foldr].
  destruct (decide ("num_sent_events" = "num_sent_events")); [lia|congruence].
Qed.

Lemma send_spec events p :
  exists ms pr,
    send client events p =
      mkProjectTracker (eventName p) (counts p) (tracked p ++ [events])
                       (received p ++ ms) (printed p ++ pr) /\
    sentEvents ms = Z.of_nat (length events) /\
    (incrs "success" ms + incrs "failures" ms = 1)%nat /\
    length pr = incrs "failures" ms.
Proof.
  unfold send. destruct (client (tracked p) events) as [e|].
  - exists [IncrBy "num_sent_events" (Z.of_nat (length events)); Incr "failures"],
      ["error while tracking to mixpanel api: " +:+ Error e].
    rewrite <- app_assoc. split; [reflexivity|]. split; [apply sentEvents_batch|]. split; reflexivity.
  - exists [IncrBy "num_sent_events" (Z.of_nat (length events)); Incr "success"], [].
    rewrite <- app_assoc, app_nil_r. split; [reflexivity|]. split; [apply sentEvents_batch|].
    split; reflexivity.
Qed.

(** The loop of [flush]: full batches are sent as they fill up, and what
    is left over is shorter than a batch. *)
Lemma flush_range_spec g : forall events p,
  (length events < maxBatchSize)%nat ->
  exists bs ms pr events',
    flush_range client g events p =
      (events', mkProjectTracker (eventName p) (counts p) (tracked p ++ bs)
                                 (received p ++ ms) (printed p ++ pr)) /\
    concat bs ++ events' = events ++ (eventOf (eventName p) <$> g) /\
    Forall (fun b => length b = maxBatchSize) bs /\
    (length events' < maxBatchSize)%nat /\
    sentEvents ms = Z.of_nat (length (concat bs)) /\
    (incrs "success" ms + incrs "failures" ms = length bs)%nat /\
    length pr = incrs "failures" ms.
Proof.
  induction g as [|entry g IH]; intros events p Hlt.
  - exists [], [], [], events. cbn. rewrite !app_nil_r. destruct p. repeat split; auto.
  - cbn [flush_range].
    destruct (decide (length (events ++ [eventOf (eventName p) entry]) = maxBatchSize))
      as [Hfull|Hnot].
    + destruct (send_spec (events ++ [eventOf (eventName p) entry]) p)
        as (ms0 & pr0 & -> & Hsent0 & Hincr0 & Hpr0).
      match goal with |- context [flush_range client g [] ?q] =>
        destruct (IH [] q) as (bs & ms & pr & events' & Hrun & Hcat & Hall & Hlt' & Hsent & Hincr & Hpr)
      end.
      { unfold maxBatchSize. cbn. lia. }
      cbn [eventName counts tracked received printed] in Hrun, Hcat.
      exists ((events ++ [eventOf (eventName p) entry]) :: bs), (ms0 ++ ms), (pr0 ++ pr), events'.
      rewrite Hrun, <- !app_assoc. split; [reflexivity|].
      split; [cbn [concat]; rewrite <- !app_assoc, Hcat; reflexivity|].
      split; [constructor; assumption|]. split; [exact Hlt'|].
      rewrite sentEvents_app, !incrs_app, !length_app. cbn [concat length].
      rewrite length_app, Nat2Z.inj_add.
      lia.
    + destruct (IH (events ++ [eventOf (eventName p) entry]) p)
        as (bs & ms & pr & events' & Hrun & Hcat & Hall & Hlt' & Hsent & Hincr & Hpr).
      { rewrite length_app in *. cbn in *. lia. }
      exists bs, ms, pr, events'. rewrite Hrun. split; [reflexivity|].
      split; [rewrite Hcat, <- app_assoc; reflexivity|]. auto.
Qed.

Lemma length_concat_full (bs : list (list TrackedEvent)) :
  Forall (fun b => length b = maxBatchSize) bs ->
  length (concat bs) = (maxBatchSize * length bs)%nat.
Proof.
  induction 1 as [|b bs Hb _ IH]; [reflexivity|].
  cbn [concat length]. rewrite length_app, IH, Hb. lia.
Qed.

(** [flush] as a whole, for an order [g] in which the counts are ranged
    over. *)
Lemma flush_spec g p :
  g ≡ₚ map_to_list (counts p) ->
  exists full rest ms pr,
    flush client g p =
      mkProjectTracker (eventName p) ∅ (tracked p ++ full ++ rest)
                       (received p ++ ms) (printed p ++ pr) /\
    concat (full ++ rest) = eventOf (eventName p) <$> g /\
    Forall (fun b => length b = maxBatchSize) full /\
    (rest = [] \/ exists b, rest = [b] /\ (0 < length b < maxBatchSize)%nat) /\
    length (full ++ rest) = ((size (counts p) + (maxBatchSize - 1)) / maxBatchSize)%nat /\
    sentEvents ms = Z.of_nat (size (counts p)) /\
    (incrs "success" ms + incrs "failures" ms = length (full ++ rest))%nat /\
    length pr = incrs "failures" ms.
Proof.
  intros Hg.
  assert (Hlen : length g = size (counts p)).
  { rewrite Hg. apply length_map_to_list. }
  unfold flush. destruct (decide (size (counts p) = 0%nat)) as [Hzero|Hpos].
  - exists [], [], [], []. rewrite !app_nil_r.
    rewrite Hzero in Hlen. apply length_zero_iff_nil in Hlen. subst g.
    rewrite Hzero. destruct p. repeat split; auto.
  - pose proof (fun bs => length_concat_full bs) as Hfull.
    destruct (flush_range_spec g [] (set_counts ∅ p))
      as (bs & ms & pr & events' & Hrun & Hcat & Hall & Hlt & Hsent & Hincr & Hpr).
    { unfold maxBatchSize. cbn. lia. }
    rewrite Hrun. cbn [eventName counts tracked received printed set_counts] in *.
    assert (Htotal : (length (concat bs) + length events' = size (counts p))%nat).
    { rewrite <- Hlen, <- length_app, Hcat. cbn. apply length_fmap. }
    destruct (decide (0 < length events')%nat) as [Hsome|Hnone].
    + destruct (send_spec events'
                  (mkProjectTracker (eventName p) ∅ (tracked p ++ bs) (received p ++ ms)
                                    (printed p ++ pr)))
        as (ms0 & pr0 & -> & Hsent0 & Hincr0 & Hpr0).
      cbn [eventName counts tracked received printed].
      exists bs, [events'], (ms ++ ms0), (pr ++ pr0).
      rewrite <- !app_assoc. split; [reflexivity|].
      split; [rewrite concat_app; cbn [concat]; rewrite app_nil_r; exact Hcat|].
      split; [exact Hall|].
      split; [right; exists events'; split; [reflexivity|lia]|].
      specialize (Hfull bs Hall).
      split.
      { rewrite length_app. cbn [length]. unfold maxBatchSize in *.
        apply (Nat.div_unique _ _ _ (length events' - 1)); lia. }
      rewrite sentEvents_app, !incrs_app, !length_app. cbn [length]. lia.
    + assert (events' = []) as -> by (apply length_zero_iff_nil; lia).
      exists bs, [], ms, pr. rewrite !app_nil_r in *.
      split; [reflexivity|]. split; [exact Hcat|]. split; [exact Hall|].
      split; [left; reflexivity|].
      specialize (Hfull bs Hall). cbn [length] in Htotal.
      split.
      { unfold maxBatchSize in *. apply (Nat.div_unique _ _ _ 99); lia. }
      lia.
Qed.

Lemma flush_counts_empty g p : counts (flush client g p) = ∅.
Proof.
  unfold flush. destruct (decide (size (counts p) = 0%nat)); [reflexivity|].
  destruct (flush_range_spec g [] (set_counts ∅ p))
    as (bs & ms & pr & events' & Hrun & _).
  { unfold maxBatchSize. cbn. lia. }
  rewrite Hrun. destruct (decide (0 < length events')%nat); [|reflexivity].
  destruct (send_spec events'
              (mkProjectTracker (eventName (set_counts ∅ p)) (counts (set_counts ∅ p))
                 (tracked (set_counts ∅ p) ++ bs) (received (set_counts ∅ p) ++ ms)
                 (printed (set_counts ∅ p) ++ pr))) as (ms0 & pr0 & -> & _).
  reflexivity.
Qed.

Lemma flush_nothing g p : counts p = ∅ -> flush client g p = p.
Proof.
  intros Hempty. unfold flush. rewrite Hempty, map_size_empty.
  destruct (decide (0%nat = 0%nat)); [|contradiction].
  destruct p. cbn in *. subst. reflexivity.
Qed.
End TopkFlushFacts.

Lemma eventOf_inj name e1 e2 : topk.eventOf name e1 = topk.eventOf name e2 -> e1 = e2.
Proof.
  destruct e1 as [id1 [pre1 post1]], e2 as [id2 [pre2 post2]]. unfold topk.eventOf. cbn [fst snd
    topk.preSampling topk.postSampling]. intros Heq.
  apply (f_equal topk.Properties) in Heq. cbn [topk.Properties] in Heq.
  pose proof (f_equal (fun m => m !! "project_id") Heq) as Hid.
  pose proof (f_equal (fun m => m !! "pre_sampling") Heq) as Hpre.
  pose proof (f_equal (fun m => m !! "post_sampling") Heq) as Hpost.
  cbv beta in Hid, Hpre, Hpost.
  rewrite !lookup_insert_eq in Hid.
  rewrite !(lookup_insert_ne _ "project_id"), !(lookup_insert_ne _ "count"), !lookup_insert_eq
    in Hpre by discriminate.
  rewrite !(lookup_insert_ne _ "project_id"), !(lookup_insert_ne _ "count"),
    !(lookup_insert_ne _ "pre_sampling"), !lookup_insert_eq in Hpost by discriminate.
  congruence.
Qed.

(** X19.  [flush] empties the counts and gives the client one event per
    project that had an entry, in the order of the range, cut into
    batches: every batch but possibly the last holds exactly 100 events,
    a last shorter one holds between 1 and 99, so that n projects make
    (n + 99) / 100 batches.  This holds whatever the client answers: a
    batch it refuses is neither kept nor sent again. *)
Theorem flush_batches (client : topk.Client) (g : list (Z * topk.sampledCount))
    (p : topk.projectTracker) :
  g ≡ₚ map_to_list (topk.counts p) ->
  topk.counts (topk.flush client g p) = ∅ /\
  exists full rest,
    topk.tracked (topk.flush client g p) = topk.tracked p ++ full ++ rest /\
    concat (full ++ rest) = topk.eventOf (topk.eventName p) <$> g /\
    Forall (fun b => length b = topk.maxBatchSize) full /\
    (rest = [] \/ exists b, rest = [b] /\ (0 < length b < topk.maxBatchSize)%nat) /\
    length (full ++ rest) =
      ((size (topk.counts p) + (topk.maxBatchSize - 1)) / topk.maxBatchSize)%nat.
Proof.
  intros Hg. split; [apply flush_counts_empty|].
  destruct (flush_spec client g p Hg)
    as (full & rest & ms & pr & -> & Hcat & Hall & Hrest & Hnum & _).
  exists full, rest. repeat split; assumption.
Qed.

Lemma flush_batches_witness :
  let p := topk.trackAll [(7, true); (9, false); (7, false)] (topk.NewProjectTracker "ev") in
  let g := map_to_list (topk.counts p) in
  g ≡ₚ map_to_list (topk.counts p) /\
  topk.counts (topk.flush flakyClient g p) = ∅ /\
  exists full rest,
    topk.tracked (topk.flush flakyClient g p) = topk.tracked p ++ full ++ rest /\
    concat (full ++ rest) = topk.eventOf (topk.eventName p) <$> g /\
    Forall (fun b => length b = topk.maxBatchSize) full /\
    (rest = [] \/ exists b, rest = [b] /\ (0 < length b < topk.maxBatchSize)%nat) /\
    length (full ++ rest) =
      ((size (topk.counts p) + (topk.maxBatchSize - 1)) / topk.maxBatchSize)%nat.
Proof.
  intros p g. split; [reflexivity|].
  apply (flush_batches flakyClient g p). reflexivity.
Defined.

(** 250 projects go out as batches of 100, 100 and 50; the client refuses
    the second one, which costs one [failures] and one printed line. *)
Example topk_flush_run :
  let p := topk.trackAll manyProjects (topk.NewProjectTracker "ev") in
  let p' := topk.flush flakyClient (map_to_list (topk.counts p)) p in
  length <$> topk.tracked p' = [100; 100; 50]%nat /\
  topk.received p' =
    [topk.IncrBy "num_sent_events" 100; topk.Incr "success";
     topk.IncrBy "num_sent_events" 100; topk.Incr "failures";
     topk.IncrBy "num_sent_events" 50; topk.Incr "success"] /\
  topk.printed p' = ["error while tracking to mixpanel api: rate limited"] /\
  topk.counts p' = ∅.
Proof. vm_compute. repeat split; reflexivity. Qed.

(** X20.  The metrics of a [flush]: the amounts added to
    [num_sent_events] sum to the number of projects that had an entry,
    also when the client refused some or all of the batches; every batch
    counts once, as [success] or as [failures]; and one line is printed
    per failure. *)
Theorem flush_metrics (client : topk.Client) (g : list (Z * topk.sampledCount))
    (p : topk.projectTracker) :
  g ≡ₚ map_to_list (topk.counts p) ->
  exists ms pr,
    topk.received (topk.flush client g p) = topk.received p ++ ms /\
    topk.printed (topk.flush client g p) = topk.printed p ++ pr /\
    topk.sentEvents ms = Z.of_nat (size (topk.counts p)) /\
    (topk.incrs "success" ms + topk.incrs "failures" ms)%nat =
      (length (topk.tracked (topk.flush client g p)) - length (topk.tracked p))%nat /\
    length pr = topk.incrs "failures" ms.
Proof.
  intros Hg.
  destruct (flush_spec client g p Hg)
    as (full & rest & ms & pr & -> & _ & _ & _ & _ & Hsent & Hincr & Hpr).
  exists ms, pr. cbn [topk.received topk.printed topk.tracked].
  rewrite length_app. repeat split; try assumption. lia.
Qed.

Lemma flush_metrics_witness :
  let p := topk.trackAll [(7, true); (9, false); (7, false)] (topk.NewProjectTracker "ev") in
  let g := map_to_list (topk.counts p) in
  g ≡ₚ map_to_list (topk.counts p) /\
  exists ms pr,
    topk.received (topk.flush refuseBatches g p) = topk.received p ++ ms /\
    topk.printed (topk.flush refuseBatches g p) = topk.printed p ++ pr /\
    topk.sentEvents ms = Z.of_nat (size (topk.counts p)) /\
    (topk.incrs "success" ms + topk.incrs "failures" ms)%nat =
      (length (topk.tracked (topk.flush refuseBatches g p)) - length (topk.tracked p))%nat /\
    length pr = topk.incrs "failures" ms.
Proof.
  intros p g. split; [reflexivity|].
  apply (flush_metrics refuseBatches g p). reflexivity.
Defined.

(** X21.  A [flush], or the [Close] of the tracker, right after a
    [flush] does nothing: nothing is sent to the client, no metric is
    reported, also when the first [flush] failed. *)
Theorem flush_twice (client client' : topk.Client) (g g' : list (Z * topk.sampledCount))
    (p : topk.projectTracker) :
  topk.flush client' g' (topk.flush client g p) = topk.flush client g p /\
  topk.Close client' g' (topk.flush client g p) = topk.flush client g p.
Proof.
  assert (Hflush : topk.flush client' g' (topk.flush client g p) = topk.flush client g p).
  { apply flush_nothing, flush_counts_empty. }
  split; exact Hflush.
Qed.

(** X22.  [Track] and [flush] together: when a new tracker has seen fewer
    than 2^63 [Track] calls, the events the next [flush] hands to the
    client name exactly the projects that were tracked, each with the
    number of its calls as [count] and [pre_sampling] and the number of
    those in the sample as [post_sampling]. *)
Theorem Track_then_flush (client : topk.Client) (name : string) (l : list (Z * bool))
    (g : list (Z * topk.sampledCount)) (id : Z) (c : topk.sampledCount) :
  let p := topk.trackAll l (topk.NewProjectTracker name) in
  g ≡ₚ map_to_list (topk.counts p) ->
  Z.of_nat (length l) < 2 ^ 63 ->
  topk.eventOf name (id, c) ∈ concat (topk.tracked (topk.flush client g p)) <->
  (0 < topk.seen id l)%nat /\
  c = topk.mkSampledCount (Z.of_nat (topk.seen id l)) (Z.of_nat (topk.sampled id l)).
Proof.
  intros p Hg Hlen.
  destruct (flush_spec client g p Hg) as (full & rest & ms & pr & -> & Hcat & _).
  destruct (trackAll_frame l (topk.NewProjectTracker name)) as (Hname & Htracked & _).
  fold p in Hname, Htracked. cbn [topk.tracked]. rewrite Htracked.
  cbn [topk.NewProjectTracker topk.tracked app]. rewrite Hcat, Hname.
  cbn [topk.NewProjectTracker topk.eventName].
  pose proof (trackAll_fresh l (topk.NewProjectTracker name) id eq_refl Hlen) as Hcount.
  fold p in Hcount.
  rewrite list_elem_of_fmap. split.
  - intros (e & Heq & He). apply eventOf_inj in Heq. subst e.
    rewrite Hg in He. apply elem_of_map_to_list in He. rewrite He in Hcount.
    destruct (decide (topk.seen id l = 0%nat)); [discriminate|].
    split; [lia|congruence].
  - intros (Hseen & ->). exists (id, topk.mkSampledCount (Z.of_nat (topk.seen id l))
                                       (Z.of_nat (topk.sampled id l))).
    split; [reflexivity|]. rewrite Hg. apply elem_of_map_to_list. rewrite Hcount.
    destruct (decide (topk.seen id l = 0%nat)); [lia|reflexivity].
Qed.

Lemma Track_then_flush_witness :
  let l := [(7, true); (9, false); (7, false)] in
  let p := topk.trackAll l (topk.NewProjectTracker "ev") in
  let g := map_to_list (topk.counts p) in
  g ≡ₚ map_to_list (topk.counts p) /\ Z.of_nat (length l) < 2 ^ 63 /\
  (topk.eventOf "ev" (7, topk.mkSampledCount 2 1)
     ∈ concat (topk.tracked (topk.flush flakyClient g p)) <->
   (0 < topk.seen 7 l)%nat /\
   topk.mkSampledCount 2 1 =
     topk.mkSampledCount (Z.of_nat (topk.seen 7 l)) (Z.of_nat (topk.sampled 7 l))).
Proof.
  intros l p g. split; [reflexivity|]. split; [reflexivity|].
  apply (Track_then_flush flakyClient "ev" l g 7 (topk.mkSampledCount 2 1)); reflexivity.
Defined.
